(** * The hidden-endpoint acquisition pipeline of [API.py] and [DOM.py]

    A shallow embedding of the signed fetch ([SeleniumDriverAPI.fetch_api]),
    the paginated listing calls of [PyktokAPI], its result cache and the
    merge/de-duplication persistence ([_deduplicate] and the [save_*_csv]
    helpers), followed by the properties the specification states about
    them.

    Conventions.
    - Python values that come out of [json.loads] are terms of [json]; a
      Python [dict] is an association list read with [dict_get] (first
      binding of a key).  JSON numbers are integers here; floating point is
      outside the embedding.
    - A string is the sequence of its characters, each a code point below
      256 (Basic Latin and Latin-1); the Python string functions below are
      given on these.  Text with other characters is outside the embedding.
    - Stateful code is written in the state-and-exception monad [M]: a
      computation takes the state and returns an [outcome] (a value, a raised
      exception, or [OutOfFuel] for a [while] loop cut off by its fuel)
      together with the new state.
    - The browser, the network and the platform are an oracle: the tapes of
      [SeleniumDriverAPI] hold, per driver method, the successive replies
      of the scripted browser.  A tape that has run out stands for a browser
      that has gone away: the method raises.
    - [time.sleep], logging and the choice of a warm-up URL have no effect on
      the modelled state and are left out. *)

From Stdlib Require Import ZArith List String Ascii Bool Lia DecimalString DecimalZ.
From stdpp Require Import base option list gmap strings.

Set Warnings "-register-all".
Local Open Scope Z_scope.
Local Open Scope string_scope.
Local Open Scope list_scope.

(** ** Python values *)

Inductive json : Type :=
| JNull
| JBool (b : bool)
| JNum (n : Z)
| JStr (s : string)
| JArr (items : list json)
| JObj (fields : list (string * json)).

(** A Python dict with string keys, in insertion order. *)
Abbreviation dict := (list (string * json)).

Fixpoint dict_get (d : dict) (k : string) : option json :=
  match d with
  | [] => None
  | (k', v) :: rest => if String.eqb k' k then Some v else dict_get rest k
  end.

(** [d.get(k, default)] *)
Definition py_get (d : dict) (k : string) (default : json) : json :=
  match dict_get d k with Some v => v | None => default end.

(** [k in d] *)
Definition py_in (k : string) (d : dict) : bool :=
  match dict_get d k with Some _ => true | None => false end.

(** [d[k] = v]: replaces the value of a present key in place, appends a new
    key at the end. *)
Fixpoint dict_set (d : dict) (k : string) (v : json) : dict :=
  match d with
  | [] => [(k, v)]
  | (k', v') :: rest =>
      if String.eqb k' k then (k', v) :: rest else (k', v') :: dict_set rest k v
  end.

(** [{**d1, **d2}] *)
Definition dict_update (d1 d2 : dict) : dict :=
  fold_left (fun acc kv => dict_set acc (fst kv) (snd kv)) d2 d1.

(** [d.setdefault(k, v)] *)
Definition dict_setdefault (d : dict) (k : string) (v : json) : dict :=
  if py_in k d then d else dict_set d k v.

(** Truth value of a Python object ([if x:], [not x]). *)
Definition py_truthy (j : json) : bool :=
  match j with
  | JNull => false
  | JBool b => b
  | JNum n => negb (Z.eqb n 0)
  | JStr s => negb (String.eqb s "")
  | JArr l => match l with [] => false | _ => true end
  | JObj f => match f with [] => false | _ => true end
  end.

(** [x == n] for an integer literal [n] ([True == 1] and [False == 0] hold in
    Python). *)
Definition py_eq_int (j : json) (n : Z) : bool :=
  match j with
  | JNum m => Z.eqb m n
  | JBool b => Z.eqb (if b then 1 else 0) n
  | _ => false
  end.

Fixpoint chars (s : string) : list json :=
  match s with
  | EmptyString => []
  | String c rest => JStr (String c EmptyString) :: chars rest
  end.

(** What a [for x in j] loop iterates over; [None] is the [TypeError] of a
    value that is not iterable. *)
Definition py_iter (j : json) : option (list json) :=
  match j with
  | JArr l => Some l
  | JStr s => Some (chars s)
  | JObj f => Some (map (fun kv => JStr (fst kv)) f)
  | _ => None
  end.

(** [l[:n]] *)
Definition py_take {A} (l : list A) (n : Z) : list A :=
  if Z.leb 0 n then firstn (Z.to_nat n) l
  else firstn (length l - Z.to_nat (- n)) l.

(** [str(n)] for an [int] *)
Definition str_of_int (n : Z) : string := NilZero.string_of_int (Z.to_int n).

(** ** Outcomes of a call

    A call returns, raises, or is still running when its fuel ends. *)

Inductive exn : Type :=
| KeyError
| AttributeError
| TypeError
| ValueError
| JSONDecodeError
| WebDriverException
| PandasError
| OSError.

Inductive outcome (A : Type) : Type :=
| Ret (a : A)
| Raise (e : exn)
| OutOfFuel.
#[global] Arguments Ret {A} a.
#[global] Arguments Raise {A} e.
#[global] Arguments OutOfFuel {A}.

(** ** What the embedding takes from outside the repository

    [py_repr] is Python's [str] of a list or a dict.  [read_csv] is
    [pd.read_csv(path, keep_default_na=False)]: the frame pandas parses
    from the text of a file, with the column types it infers, or [None]
    when it raises.  [typed] is what pandas does to the cells of rows it
    puts into one frame: it gives every column one type, and a cell may
    change with it (an integer beside a missing value becomes a float);
    which cells do depends on the types the parts had and on the version
    of pandas.  [can_write] says whether a file can be opened for writing
    at a path.  [video_timestamp] and [video_stickers] are the two computed
    columns of [generate_video_data_row] (local-time formatting and the
    joined sticker texts). *)

(** A row of a DataFrame: column name to cell.  A row that lacks a column
    of its frame holds NaN there. *)
Abbreviation row := (list (string * json)).

(** A DataFrame: its columns, in order, and its rows. *)
Record frame : Type := mkFrame {
  columns : list string;
  values : list row
}.

(** The content of a CSV file: the header line and the lines below it, each
    a list of fields.  Quoting and escaping of a field are not modelled: a
    field is the text of its cell.  [pd.DataFrame().to_csv] leaves a file
    with neither columns nor lines. *)
Record csv_file : Type := mkCsv {
  header : list string;
  lines : list (list string)
}.

(** The file system: path to content; an absent path does not exist. *)
Abbreviation files := (gmap string csv_file).

Class External : Type := {
  py_repr : json -> string;
  read_csv : csv_file -> option frame;
  typed : list row -> list row;
  can_write : string -> bool;
  video_timestamp : dict -> string;
  video_stickers : dict -> string
}.

Section Frames.
Context `{External}.

(** [str(x)] *)
Definition py_str (j : json) : string :=
  match j with
  | JNull => "None"
  | JBool true => "True"
  | JBool false => "False"
  | JNum n => str_of_int n
  | JStr s => s
  | JArr _ | JObj _ => py_repr j
  end.

(** ** Frames

    [pd.DataFrame(rows)] of a list of dicts, which is also the frame that
    [pd.concat] makes of the one-row frames of these dicts: the columns are
    the keys in order of first appearance. *)
Fixpoint add_columns (cols : list string) (r : row) : list string :=
  match r with
  | [] => cols
  | (k, _) :: rest =>
      add_columns (if existsb (String.eqb k) cols then cols else cols ++ [k]) rest
  end.

Fixpoint csv_columns_from (cols : list string) (df : list row) : list string :=
  match df with
  | [] => cols
  | r :: rest => csv_columns_from (add_columns cols r) rest
  end.

Definition csv_columns (df : list row) : list string := csv_columns_from [] df.

Definition DataFrame (rs : list row) : frame := mkFrame (csv_columns rs) (typed rs).

(** [pd.DataFrame()] *)
Definition empty_frame : frame := mkFrame [] [].

(** [pd.concat([old, new_df], ignore_index=True)]: the columns of [old] and
    then those [new_df] adds, the rows of [old] and then those of
    [new_df]. *)
Definition concat (old new_df : frame) : frame :=
  mkFrame
    (columns old
     ++ List.filter (fun c => negb (existsb (String.eqb c) (columns old))) (columns new_df))
    (typed (values old ++ values new_df)).

(** [key in df.columns] *)
Definition has_column (key : string) (df : frame) : bool :=
  existsb (String.eqb key) (columns df).

(** ** [_deduplicate]

<<
def _deduplicate(existing_path, new_df, key="video_id"):
    if os.path.exists(existing_path):
        old = pd.read_csv(existing_path, keep_default_na=False)
        new_df = pd.concat([old, new_df], ignore_index=True)
    new_df[key] = new_df[key].astype(str)
    return new_df.drop_duplicates(subset=[key])
>> *)

(** The string the key cell of a row becomes under [astype(str)]; the
    [str] of NaN is ["nan"]. *)
Definition key_str (key : string) (r : row) : string :=
  match dict_get r key with
  | Some c => py_str c
  | None => "nan"
  end.

(** [df[key] = df[key].astype(str)] *)
Definition astype_str (key : string) (df : frame) : frame :=
  mkFrame (columns df) (map (fun r => dict_set r key (JStr (key_str key r))) (values df)).

(** Whether two cells are the same value for [drop_duplicates]: two texts
    when they are the same string, two numbers ([True] is 1 and [False] is
    0) when they are equal, [None] and [None], NaN and NaN.  After the
    coercion the cells under the key are texts; lists and dicts, which
    pandas cannot hash, do not occur there. *)
Definition cell_number (c : json) : option Z :=
  match c with
  | JNum n => Some n
  | JBool b => Some (if b then 1 else 0)
  | _ => None
  end.

Definition same_cell (a b : option json) : bool :=
  match a, b with
  | None, None => true
  | Some JNull, Some JNull => true
  | Some (JStr s), Some (JStr t) => String.eqb s t
  | Some x, Some y =>
      match cell_number x, cell_number y with
      | Some m, Some n => Z.eqb m n
      | _, _ => false
      end
  | _, _ => false
  end.

(** [df.drop_duplicates(subset=[key])]: the first row of each key cell is
    kept. *)
Fixpoint drop_duplicates_from (seen : list (option json)) (key : string) (df : list row)
  : list row :=
  match df with
  | [] => []
  | r :: rest =>
      if existsb (same_cell (dict_get r key)) seen
      then drop_duplicates_from seen key rest
      else r :: drop_duplicates_from (dict_get r key :: seen) key rest
  end.

Definition drop_duplicates (key : string) (df : frame) : frame :=
  mkFrame (columns df) (drop_duplicates_from [] key (values df)).

Definition _deduplicate (fs : files) (existing_path : string) (new_df : frame)
    (key : string) : outcome frame :=
  let merged :=
    match fs !! existing_path with
    | Some f =>
        match read_csv f with
        | Some old => Ret (concat old new_df)
        | None => Raise PandasError
        end
    | None => Ret new_df
    end in
  match merged with
  | Ret df =>
      if has_column key df
      then Ret (drop_duplicates key (astype_str key df))
      else Raise KeyError
  | Raise e => Raise e
  | OutOfFuel => OutOfFuel
  end.

(** [df.to_csv(path, index=False)]: the columns of the frame, and under
    them the text of every cell.  [None] and a missing cell (NaN) are
    written as the empty text.  Where the file cannot be opened for
    writing it raises and nothing is written. *)
Definition cell_text (c : option json) : string :=
  match c with
  | None => ""
  | Some JNull => ""
  | Some v => py_str v
  end.

Definition csv_line (cols : list string) (r : row) : list string :=
  map (fun c => cell_text (dict_get r c)) cols.

Definition csv_of (df : frame) : csv_file :=
  mkCsv (columns df) (map (csv_line (columns df)) (values df)).

Definition to_csv (path : string) (df : frame) (fs : files) : outcome files :=
  if can_write path then Ret (<[path := csv_of df]> fs) else Raise OSError.

(** The two lines every [save_*_csv] helper ends with: merge with what is on
    disk, write the result back to the same path.
<<
    combined = _deduplicate(filename, combined, key=...)
    combined.to_csv(filename, index=False)
>> *)
Definition mergeAndWrite (fs : files) (path : string) (new_df : frame)
    (key : string) : outcome files :=
  match _deduplicate fs path new_df key with
  | Ret df => to_csv path df fs
  | Raise e => Raise e
  | OutOfFuel => OutOfFuel
  end.

End Frames.

(** ** The state-and-exception monad *)

Definition M (S A : Type) : Type := S -> outcome A * S.

#[global] Instance M_ret {S} : MRet (M S) := fun A a s => (Ret a, s).

#[global] Instance M_bind {S} : MBind (M S) := fun A B f m s =>
  match m s with
  | (Ret a, s') => f a s'
  | (Raise e, s') => (Raise e, s')
  | (OutOfFuel, s') => (OutOfFuel, s')
  end.

Definition raise {S A} (e : exn) : M S A := fun s => (Raise e, s).

Definition out_of_fuel {S A} : M S A := fun s => (OutOfFuel, s).

(** [try: m  except Exception: h] *)
Definition try_except {S A} (m : M S A) (h : exn -> M S A) : M S A := fun s =>
  match m s with
  | (Raise e, s') => h e s'
  | r => r
  end.

(** [try: m  except Exception: pass] *)
Definition try_pass {S} (m : M S unit) : M S unit :=
  try_except m (fun _ => mret tt).

(** ** The scripted browser

    One tape per driver method.  [body] is the text a request returned,
    seen the way [fetch_api] looks at it: its length and what [json.loads]
    makes of it ([None]: [JSONDecodeError]). *)

Record body : Type := { body_len : nat; body_json : option json }.

Inductive script_reply : Type :=
| ScriptRaises
| ScriptReturns (v : json).

(** What [execute_async_script(js, signed_url)] hands back.  The script
    answers ["__STATUS_<code>__<text>"] or ["__FETCH_ERROR__:<message>"]. *)
Inductive async_reply : Type :=
| AsyncRaises
| AsyncFetchError
| AsyncStatus (status : string) (b : body)
| AsyncStatusUnclosed
| AsyncOther (b : body).

(** Ghost record of what a run did, oldest event first. *)
Inductive event : Type :=
| EvCall (endpoint : string) (params : dict)
| EvDerive
| EvAttempt (endpoint : string) (attempt : Z)
| EvRequest (endpoint : string) (merged : dict) (x_bogus : json)
| EvResult (endpoint : string) (resp : option dict)
| EvInvalidate
| EvFallback (hashtag : string).

Record SeleniumDriverAPI : Type := mkDriver {
  script_tape : list script_reply;
  nav_tape : list bool;
  cookie_tape : list (option (list (string * string)));
  async_tape : list async_reply;
  random_tape : list Z;
  _hidden_api_session_params : option dict;
  trace : list event
}.

Definition log (e : event) : M SeleniumDriverAPI unit := fun d =>
  (Ret tt,
   mkDriver (script_tape d) (nav_tape d) (cookie_tape d) (async_tape d)
     (random_tape d) (_hidden_api_session_params d) (trace d ++ [e])).

(** [driver.execute_script(...)] *)
Definition execute_script : M SeleniumDriverAPI json := fun d =>
  match script_tape d with
  | ScriptReturns v :: rest =>
      (Ret v, mkDriver rest (nav_tape d) (cookie_tape d) (async_tape d)
                (random_tape d) (_hidden_api_session_params d) (trace d))
  | ScriptRaises :: rest =>
      (Raise WebDriverException,
       mkDriver rest (nav_tape d) (cookie_tape d) (async_tape d)
         (random_tape d) (_hidden_api_session_params d) (trace d))
  | [] => (Raise WebDriverException, d)
  end.

(** [driver.get(url)] *)
Definition driver_get : M SeleniumDriverAPI unit := fun d =>
  match nav_tape d with
  | true :: rest =>
      (Ret tt, mkDriver (script_tape d) rest (cookie_tape d) (async_tape d)
                 (random_tape d) (_hidden_api_session_params d) (trace d))
  | false :: rest =>
      (Raise WebDriverException,
       mkDriver (script_tape d) rest (cookie_tape d) (async_tape d)
         (random_tape d) (_hidden_api_session_params d) (trace d))
  | [] => (Raise WebDriverException, d)
  end.

(** [driver.get_cookies()] *)
Definition get_cookies : M SeleniumDriverAPI (list (string * string)) := fun d =>
  match cookie_tape d with
  | Some cs :: rest =>
      (Ret cs, mkDriver (script_tape d) (nav_tape d) rest (async_tape d)
                 (random_tape d) (_hidden_api_session_params d) (trace d))
  | None :: rest =>
      (Raise WebDriverException,
       mkDriver (script_tape d) (nav_tape d) rest (async_tape d)
         (random_tape d) (_hidden_api_session_params d) (trace d))
  | [] => (Raise WebDriverException, d)
  end.

(** [driver.execute_async_script(js, signed_url)] *)
Definition execute_async_script : M SeleniumDriverAPI async_reply := fun d =>
  match async_tape d with
  | AsyncRaises :: rest =>
      (Raise WebDriverException,
       mkDriver (script_tape d) (nav_tape d) (cookie_tape d) rest
         (random_tape d) (_hidden_api_session_params d) (trace d))
  | r :: rest =>
      (Ret r, mkDriver (script_tape d) (nav_tape d) (cookie_tape d) rest
                (random_tape d) (_hidden_api_session_params d) (trace d))
  | [] => (Raise WebDriverException, d)
  end.

(** [random.randint(lo, hi)]; a tape that has run out draws [lo]. *)
Definition randint (lo : Z) : M SeleniumDriverAPI Z := fun d =>
  match random_tape d with
  | n :: rest =>
      (Ret n, mkDriver (script_tape d) (nav_tape d) (cookie_tape d) (async_tape d)
                rest (_hidden_api_session_params d) (trace d))
  | [] => (Ret lo, d)
  end.

Definition set_session_params (p : option dict) : M SeleniumDriverAPI unit := fun d =>
  (Ret tt, mkDriver (script_tape d) (nav_tape d) (cookie_tape d) (async_tape d)
             (random_tape d) p (trace d)).

Definition get_session_params : M SeleniumDriverAPI (option dict) := fun d =>
  (Ret (_hidden_api_session_params d), d).

(** [SeleniumDriverAPI.go]: [driver.get(url)] followed by a sleep. *)
Definition go : M SeleniumDriverAPI unit := driver_get.

(** [SeleniumDriverAPI.get_ms_token] *)
Fixpoint find_ms_token (cs : list (string * string)) : option string :=
  match cs with
  | [] => None
  | (name, value) :: rest =>
      if String.eqb name "msToken" then Some value else find_ms_token rest
  end.

Definition get_ms_token : M SeleniumDriverAPI (option string) :=
  cs ← get_cookies; mret (find_ms_token cs).

Definition HIDDEN_API_ENDPOINTS : list (string * string) :=
  [ ("user_detail", "/api/user/detail/");
    ("user_videos", "/api/post/item_list/");
    ("user_liked", "/api/favorite/item_list/");
    ("user_playlists", "/api/user/playlist");
    ("hashtag_detail", "/api/challenge/detail/");
    ("hashtag_videos", "/api/challenge/item_list/");
    ("video_comments", "/api/comment/list/");
    ("comment_replies", "/api/comment/list/reply/");
    ("related_videos", "/api/related/item_list/");
    ("trending", "/api/recommend/item_list/");
    ("search_users", "/api/search/user/full/");
    ("search_items", "/api/search/item/full/");
    ("search_general", "/api/search/general/full/");
    ("sound_detail", "/api/music/detail/");
    ("sound_videos", "/api/music/item_list/");
    ("playlist_detail", "/api/mix/detail/");
    ("playlist_videos", "/api/mix/item_list/") ].

Fixpoint endpoint_path (table : list (string * string)) (k : string) : option string :=
  match table with
  | [] => None
  | (k', p) :: rest => if String.eqb k' k then Some p else endpoint_path rest k
  end.

Section Pipeline.
Context `{External}.

(** ** [SeleniumDriverAPI._ensure_hidden_api_session_params] *)

Definition USER_AGENT : string :=
  "Mozilla/5.0 (Macintosh; Intel Mac OS X 10_15_7) AppleWebKit/537.36 (KHTML, like Gecko) Chrome/120.0.0.0 Safari/537.36".

(** The local helper [_js(expr, default)]. *)
Definition _js (default : string) : M SeleniumDriverAPI string :=
  try_except
    (val ← execute_script;
     mret (match val with JNull => default | _ => py_str val end))
    (fun _ => mret default).

Definition _ensure_hidden_api_session_params : M SeleniumDriverAPI dict :=
  memo ← get_session_params;
  match memo with
  | Some p => mret p
  | None =>
      user_agent ← _js USER_AGENT;
      language ← _js "en";
      platform ← _js "MacIntel";
      tz_name ← _js "America/New_York";
      screen_height ← _js "1080";
      screen_width ← _js "1920";
      device_id ← randint (10 ^ 18);
      history_len ← randint 1;
      let p : dict :=
        [ ("aid", JStr "1988");
          ("app_language", JStr language);
          ("app_name", JStr "tiktok_web");
          ("browser_language", JStr language);
          ("browser_name", JStr "Mozilla");
          ("browser_online", JStr "true");
          ("browser_platform", JStr platform);
          ("browser_version", JStr user_agent);
          ("channel", JStr "tiktok_web");
          ("cookie_enabled", JStr "true");
          ("device_id", JStr (str_of_int device_id));
          ("device_platform", JStr "web_pc");
          ("focus_state", JStr "true");
          ("from_page", JStr "user");
          ("history_len", JStr (str_of_int history_len));
          ("is_fullscreen", JStr "false");
          ("is_page_visible", JStr "true");
          ("language", JStr language);
          ("os", JStr platform);
          ("priority_region", JStr "");
          ("referer", JStr "");
          ("region", JStr "US");
          ("screen_height", JStr screen_height);
          ("screen_width", JStr screen_width);
          ("tz_name", JStr tz_name);
          ("webcast_language", JStr language) ] in
      set_session_params (Some p);;
      log EvDerive;;
      mret p
  end.

(** ** [SeleniumDriverAPI.fetch_api] *)

Definition max_sign_attempts : nat := 5.
Definition max_retries : Z := 5.

(** The loop that waits for [window.byted_acrawler]: [n] polls are left. *)
Fixpoint wait_acrawler (n : nat) : M SeleniumDriverAPI bool :=
  match n with
  | O => mret false
  | S n' =>
      ready ← try_except (result ← execute_script; mret (py_truthy result))
                         (fun _ => mret false);
      if ready : bool return M SeleniumDriverAPI bool
      then mret true
      else go;; wait_acrawler n'
  end.

Definition _expected_keys (key : string) : list string :=
  if String.eqb key "user_detail" then ["userInfo"]
  else if String.eqb key "hashtag_detail" then ["challengeInfo"]
  else if String.eqb key "video_comments" then ["comments"]
  else if String.eqb key "search_users" then ["user_list"]
  else if String.eqb key "search_items" then ["item_list"; "itemList"; "data"]
  else if String.eqb key "search_general" then ["data"; "item_list"; "itemList"]
  else if String.eqb key "sound_detail" then ["musicInfo"; "music"]
  else if String.eqb key "playlist_detail" then ["mixInfo"; "mix"]
  else ["itemList"].

Definition empty_body : body := {| body_len := 0; body_json := None |}.

(** The local helper [_do_fetch(signed_url)]: the HTTP status and the body
    text. *)
Definition _do_fetch : M SeleniumDriverAPI (option string * body) :=
  raw ← execute_async_script;
  match raw with
  | AsyncFetchError => mret (None, empty_body)
  | AsyncStatus status b => mret (Some status, b)
  | AsyncStatusUnclosed => raise ValueError
  | AsyncOther b => mret (None, b)
  | AsyncRaises => raise WebDriverException
  end.

(** How one pass through the body of the retry loop ends. *)
Inductive step (A : Type) : Type :=
| Continue
| Return (a : A).
#[global] Arguments Continue {A}.
#[global] Arguments Return {A} a.

(** What every branch that gives up on an attempt does:
<<
    if attempt < max_retries: ...; continue
    return None
>> *)
Definition retry_or_give_up (attempt : Z) : step (option dict) :=
  if Z.ltb attempt max_retries then Continue else Return None.

(** The parameters of the request:
<<
    merged_params = {**base_params, **params, "msToken": ms_token}
    if endpoint_key == "trending":
        merged_params.setdefault("from_page", "fyp")
    elif endpoint_key == "hashtag_videos":
        merged_params.setdefault("from_page", "challenge")
    elif endpoint_key in {"related_videos", "video_comments"}:
        merged_params.setdefault("from_page", "video")
>> *)
Definition merge_params (endpoint_key : string) (base_params params : dict)
    (ms_token : string) : dict :=
  let merged := dict_set (dict_update base_params params) "msToken" (JStr ms_token) in
  if String.eqb endpoint_key "trending"
  then dict_setdefault merged "from_page" (JStr "fyp")
  else if String.eqb endpoint_key "hashtag_videos"
  then dict_setdefault merged "from_page" (JStr "challenge")
  else if String.eqb endpoint_key "related_videos"
          || String.eqb endpoint_key "video_comments"
  then dict_setdefault merged "from_page" (JStr "video")
  else merged.

(** The body of [for attempt in range(1, max_retries + 1)]. *)
Definition fetch_attempt (endpoint_key : string) (base_params params : dict)
    (attempt : Z) : M SeleniumDriverAPI (step (option dict)) :=
  try_except
    (token ← get_ms_token;
     let ms_token := match token with Some t => t | None => "" end in
     let merged := merge_params endpoint_key base_params params ms_token in
     x_bogus ← try_except
                 (sign_result ← execute_script;
                  mret (match sign_result with
                        | JObj d => py_get d "X-Bogus" (JStr "")
                        | _ => JStr ""
                        end))
                 (fun _ => mret (JStr ""));
     log (EvRequest endpoint_key merged x_bogus);;
     '(status_code, b) ← _do_fetch;
     if (body_len b <? 10)%nat then
       if Z.ltb attempt max_retries
       then try_pass go;; mret Continue
       else mret (Return None)
     else
       match body_json b with
       | None => raise JSONDecodeError
       | Some (JObj data) =>
           if py_eq_int (py_get data "statusCode" JNull) 0
              || existsb (fun k => py_in k data) (_expected_keys endpoint_key)
           then mret (Return (Some data))
           else
             let status_code := py_get data "statusCode" JNull in
             if String.eqb endpoint_key "hashtag_videos"
                && py_eq_int status_code 100002
             then mret (Return None)
             else mret (retry_or_give_up attempt)
       | Some _ => raise AttributeError
       end)
    (fun _ => mret (retry_or_give_up attempt)).

(** The retry loop from [attempt] on, [remaining] passes left; running off
    its end is the final [return None]. *)
Fixpoint fetch_attempts (remaining : nat) (endpoint_key : string)
    (base_params params : dict) (attempt : Z)
  : M SeleniumDriverAPI (option dict) :=
  match remaining with
  | O => mret None
  | S remaining' =>
      log (EvAttempt endpoint_key attempt);;
      s ← fetch_attempt endpoint_key base_params params attempt;
      match s with
      | Return r => mret r
      | Continue =>
          fetch_attempts remaining' endpoint_key base_params params (attempt + 1)
      end
  end.

Definition fetch_api (endpoint_key : string) (params : dict)
  : M SeleniumDriverAPI (option dict) :=
  log (EvCall endpoint_key params);;
  match endpoint_path HIDDEN_API_ENDPOINTS endpoint_key with
  | None => raise KeyError
  | Some path =>
      base_params ← _ensure_hidden_api_session_params;
      acrawler_ready ← wait_acrawler max_sign_attempts;
      r ← (if acrawler_ready : bool
           then fetch_attempts (Z.to_nat max_retries) endpoint_key base_params params 1
           else mret None);
      log (EvResult endpoint_key r);;
      mret r
  end.

(** ** Python string helpers *)

(** [str.isspace], which is also the class [\s] of [re] on a [str]: the
    white space among the characters below 256 is U+0009 to U+000D,
    U+001C to U+0020, U+0085 and U+00A0. *)
Definition is_space (c : ascii) : bool :=
  let n := nat_of_ascii c in
  ((9 <=? n) && (n <=? 13) || (28 <=? n) && (n <=? 32) || (n =? 133) || (n =? 160))%nat.

Fixpoint drop_while (p : ascii -> bool) (l : list ascii) : list ascii :=
  match l with
  | [] => []
  | c :: rest => if p c then drop_while p rest else l
  end.

(** [s.strip()] *)
Definition py_strip (s : string) : string :=
  string_of_list_ascii
    (rev (drop_while is_space (rev (drop_while is_space (list_ascii_of_string s))))).

(** [s.lstrip(c)] for a one-character argument *)
Definition py_lstrip (c : ascii) (s : string) : string :=
  string_of_list_ascii (drop_while (Ascii.eqb c) (list_ascii_of_string s)).

Definition is_digit (c : ascii) : bool :=
  let n := nat_of_ascii c in ((48 <=? n) && (n <=? 57))%nat.

Fixpoint take_digits (s : string) : string :=
  match s with
  | EmptyString => EmptyString
  | String c rest => if is_digit c then String c (take_digits rest) else EmptyString
  end.

Fixpoint drop_chars (n : nat) (s : string) : string :=
  match n, s with
  | O, _ => s
  | S n', String _ rest => drop_chars n' rest
  | S _, EmptyString => EmptyString
  end.

(** [re.search(VIDEO_ID_REGEX, s)] with
    [VIDEO_ID_REGEX = r"(?<=/video/)([0-9]+)"]: group 1 of the leftmost
    match, the longest run of digits right after a ["/video/"]. *)
Fixpoint search_video_id (s : string) : option string :=
  match s with
  | EmptyString => None
  | String _ rest =>
      if String.prefix "/video/" s
      then match take_digits (drop_chars 7 s) with
           | EmptyString => search_video_id rest
           | digits => Some digits
           end
      else search_video_id rest
  end.

(** The two lines [get_video_comments], [get_related_videos] and their
    [save_*_csv] helpers start with:
<<
    m = re.search(VIDEO_ID_REGEX, str(video_id))
    vid = m.group(1) if m else str(video_id)
>> *)
Definition extract_vid (video_id : string) : string :=
  match search_video_id video_id with
  | Some digits => digits
  | None => video_id
  end.

(** ** [PyktokAPI] *)

Record PyktokAPI : Type := mkApi {
  _driver : SeleniumDriverAPI;
  _last_ok : gmap string json
}.

(** A driver method called from the client.  [_ensure_driver] hands out the
    started driver: the embedding starts after the execution context has been
    established. *)
Definition with_driver {A} (m : M SeleniumDriverAPI A) : M PyktokAPI A := fun a =>
  match m (_driver a) with
  | (r, d) => (r, mkApi d (_last_ok a))
  end.

Definition _cache_set (key : string) (value : json) : M PyktokAPI unit := fun a =>
  match value with
  | JNull => (Ret tt, a)
  | JArr [] => (Ret tt, a)
  | JObj [] => (Ret tt, a)
  | _ => (Ret tt, mkApi (_driver a) (<[key := value]> (_last_ok a)))
  end.

Definition _cache_get (key : string) (default : json) : M PyktokAPI json := fun a =>
  (Ret (match _last_ok a !! key with Some v => v | None => default end), a).

(** [_safe(obj, *keys, default=...)] *)
Fixpoint _safe (obj : json) (keys : list string) (default : json) : json :=
  match keys with
  | [] => match obj with JNull => default | _ => obj end
  | k :: rest =>
      match obj with
      | JObj d => _safe (py_get d k JNull) rest default
      | _ => default
      end
  end.

(** [not resp] for what [fetch_api] returned *)
Definition no_response (resp : option dict) : bool :=
  match resp with
  | None => true
  | Some [] => true
  | Some _ => false
  end.

Definition resp_json (resp : option dict) : json :=
  match resp with
  | None => JNull
  | Some d => JObj d
  end.

(** The loop every listing call runs over a page:
<<
    for item in resp.get("itemList", []):
        videos.append(item)
        if len(videos) >= count:
            break
>> *)
Fixpoint append_items (videos items : list json) (count : Z) : list json :=
  match items with
  | [] => videos
  | item :: rest =>
      let videos' := videos ++ [item] in
      if Z.leb count (Z.of_nat (length videos')) then videos'
      else append_items videos' rest count
  end.

(** The items of a page, or the [TypeError] of a listing field that cannot
    be iterated. *)
Definition page_items {S} (resp : dict) (field : string) : M S (list json) :=
  match py_iter (py_get resp field (JArr [])) with
  | Some items => mret items
  | None => raise TypeError
  end.

(** The way out of a listing call:
<<
    out = videos[:count]
    self._cache_set(key, out)
    return out
>> *)
Definition finish (cache_key : string) (videos : list json) (count : Z)
  : M PyktokAPI (list json) :=
  let out := py_take videos count in
  _cache_set cache_key (JArr out);;
  mret out.

Definition norm_username (username : string) : string :=
  py_strip (py_lstrip "@" (py_strip username)).

Definition norm_hashtag (hashtag : string) : string :=
  py_strip (py_lstrip "#" (py_strip hashtag)).

Definition get_user_info (username : string) : M PyktokAPI (option dict) :=
  let username := norm_username username in
  with_driver (try_pass go);;
  out ← with_driver
          (fetch_api "user_detail" [("uniqueId", JStr username); ("secUid", JStr "")]);
  _cache_set ("user_detail:" +:+ username) (resp_json out);;
  mret out.

Definition max_consecutive_failures : Z := 4.

(** The [while len(videos) < count] loop of [get_user_videos]; [fuel] bounds
    the number of times its body runs. *)
Fixpoint user_videos_loop (fuel : nat) (username : string) (sec_uid : json)
    (count : Z) (videos : list json) (cursor : json) (consecutive_failures : Z)
  : M PyktokAPI (list json) :=
  if Z.ltb (Z.of_nat (length videos)) count then
    match fuel with
    | O => out_of_fuel
    | S fuel' =>
        resp ← with_driver
                 (fetch_api "user_videos"
                    [("secUid", sec_uid); ("count", JNum 35); ("cursor", cursor)]);
        if no_response resp then
          let consecutive_failures := consecutive_failures + 1 in
          if Z.leb max_consecutive_failures consecutive_failures
          then mret (py_take videos count)
          else
            with_driver (set_session_params None;; log EvInvalidate);;
            with_driver (try_pass go);;
            user_videos_loop fuel' username sec_uid count videos cursor
              consecutive_failures
        else
          let r := match resp with Some r => r | None => [] end in
          items ← page_items r "itemList";
          let videos := append_items videos items count in
          if negb (py_truthy (py_get r "hasMore" (JBool false)))
          then finish ("user_videos:" +:+ username) videos count
          else user_videos_loop fuel' username sec_uid count videos
                 (py_get r "cursor" (JNum 0)) 0
    end
  else finish ("user_videos:" +:+ username) videos count.

Definition get_user_videos (fuel : nat) (username : string) (count : Z)
  : M PyktokAPI (list json) :=
  let username := norm_username username in
  user_resp ← get_user_info username;
  if no_response user_resp then mret []
  else
    let sec_uid := _safe (resp_json user_resp) ["userInfo"; "user"; "secUid"] (JStr "") in
    if negb (py_truthy sec_uid) then mret []
    else user_videos_loop fuel username sec_uid count [] (JNum 0) 0.

(** The local helper [_extract_videos(resp)] of [search_videos]. *)
Definition is_dict (j : json) : bool :=
  match j with JObj _ => true | _ => false end.

Definition list_field (resp : dict) (field : string) : list json :=
  match py_get resp field JNull with
  | JArr l => l
  | _ => []
  end.

Definition py_or (a b : json) : json := if py_truthy a then a else b.

Definition data_entry (entry : json) : list json :=
  match entry with
  | JObj e =>
      let candidate := py_get e "item" JNull in
      if is_dict candidate then [candidate]
      else
        let candidate := py_or (py_get e "item_info" JNull) (py_get e "itemInfo" JNull) in
        if is_dict candidate then [candidate] else []
  | _ => []
  end.

Definition _extract_videos (resp : dict) : list json :=
  List.filter is_dict (list_field resp "item_list")
  ++ List.filter is_dict (list_field resp "itemList")
  ++ flat_map data_entry (list_field resp "data").

(** A name between double quotes. *)
Definition quoted (s : string) : string :=
  String (ascii_of_nat 34) s +:+ String (ascii_of_nat 34) EmptyString.

Definition web_search_code : string :=
  "{" +:+ quoted "tiktok" +:+ ":{" +:+ quoted "client_params_x" +:+ ":{"
  +:+ quoted "search_engine" +:+ ":{"
  +:+ quoted "ies_mt_user_live_video_card_use_libra" +:+ ":1,"
  +:+ quoted "mt_search_general_user_live_card" +:+ ":1}},"
  +:+ quoted "search_server" +:+ ":{}}}".

(** The [while] loop of [search_videos]. *)
Fixpoint search_videos_loop (fuel : nat) (keyword : string) (count : Z)
    (videos : list json) (cursor : json) : M PyktokAPI (list json) :=
  if Z.ltb (Z.of_nat (length videos)) count then
    match fuel with
    | O => out_of_fuel
    | S fuel' =>
        resp ← with_driver
                 (fetch_api "search_general"
                    [("keyword", JStr keyword); ("cursor", cursor);
                     ("from_page", JStr "search");
                     ("web_search_code", JStr web_search_code)]);
        if no_response resp
        then finish ("search_videos:" +:+ keyword) videos count
        else
          let r := match resp with Some r => r | None => [] end in
          let items := _extract_videos r in
          match items with
          | [] => finish ("search_videos:" +:+ keyword) videos count
          | _ =>
              let videos := append_items videos items count in
              if negb (py_truthy (py_get r "has_more" (JBool false)))
              then finish ("search_videos:" +:+ keyword) videos count
              else search_videos_loop fuel' keyword count videos
                     (py_get r "cursor" (JNum 0))
          end
    end
  else finish ("search_videos:" +:+ keyword) videos count.

Definition search_videos (fuel : nat) (keyword : string) (count : Z)
  : M PyktokAPI (list json) :=
  search_videos_loop fuel keyword count [] (JNum 0).

Definition max_blocked_retries : Z := 3.

(** The [while] loop of [get_hashtag_videos]. *)
Fixpoint hashtag_videos_loop (fuel search_fuel : nat) (hashtag : string)
    (challenge_id : json) (count : Z) (videos : list json) (cursor : json)
    (blocked_retries : Z) : M PyktokAPI (list json) :=
  if Z.ltb (Z.of_nat (length videos)) count then
    match fuel with
    | O => out_of_fuel
    | S fuel' =>
        resp ← with_driver
                 (fetch_api "hashtag_videos"
                    [("challengeID", challenge_id); ("challengeName", JStr hashtag);
                     ("count", JNum 35); ("cursor", cursor)]);
        if no_response resp then
          let blocked_retries := blocked_retries + 1 in
          if Z.ltb max_blocked_retries blocked_retries then
            with_driver (log (EvFallback hashtag));;
            fallback_videos ← search_videos search_fuel ("#" +:+ hashtag) count;
            fallback_videos ←
              match fallback_videos with
              | [] => search_videos search_fuel hashtag count
              | _ => mret fallback_videos
              end;
            mret (py_take (videos ++ fallback_videos) count)
          else
            with_driver (set_session_params None;; log EvInvalidate);;
            with_driver (try_pass go);;
            hashtag_videos_loop fuel' search_fuel hashtag challenge_id count videos
              cursor blocked_retries
        else
          let r := match resp with Some r => r | None => [] end in
          items ← page_items r "itemList";
          let videos := append_items videos items count in
          if negb (py_truthy (py_get r "hasMore" (JBool false)))
          then finish ("hashtag_videos:" +:+ hashtag) videos count
          else hashtag_videos_loop fuel' search_fuel hashtag challenge_id count videos
                 (py_get r "cursor" (JNum 0)) blocked_retries
    end
  else finish ("hashtag_videos:" +:+ hashtag) videos count.

Definition get_hashtag_videos (fuel : nat) (hashtag : string) (count : Z)
  : M PyktokAPI (list json) :=
  let hashtag := norm_hashtag hashtag in
  detail ← with_driver (fetch_api "hashtag_detail" [("challengeName", JStr hashtag)]);
  if no_response detail then mret []
  else
    let challenge_id :=
      _safe (resp_json detail) ["challengeInfo"; "challenge"; "id"] (JStr "") in
    if negb (py_truthy challenge_id) then mret []
    else hashtag_videos_loop fuel fuel hashtag challenge_id count [] (JNum 0) 0.

(** The [while] loop of [get_video_comments]. *)
Fixpoint video_comments_loop (fuel : nat) (vid : string) (count : Z)
    (comments : list json) (cursor : json) : M PyktokAPI (list json) :=
  if Z.ltb (Z.of_nat (length comments)) count then
    match fuel with
    | O => out_of_fuel
    | S fuel' =>
        resp ← with_driver
                 (fetch_api "video_comments"
                    [("aweme_id", JStr vid); ("count", JNum 20); ("cursor", cursor)]);
        if no_response resp then mret (py_take comments count)
        else
          let r := match resp with Some r => r | None => [] end in
          items ← page_items r "comments";
          let comments := append_items comments items count in
          if negb (py_truthy (py_get r "has_more" (JBool false)))
          then finish ("video_comments:" +:+ vid) comments count
          else video_comments_loop fuel' vid count comments (py_get r "cursor" (JNum 0))
    end
  else finish ("video_comments:" +:+ vid) comments count.

Definition get_video_comments (fuel : nat) (video_id : string) (count : Z)
  : M PyktokAPI (list json) :=
  let vid := extract_vid video_id in
  video_comments_loop fuel vid count [] (JNum 0).

(** The [while] loop of [get_sound_videos]. *)
Fixpoint sound_videos_loop (fuel : nat) (sound_id : string) (count : Z)
    (videos : list json) (cursor : json) : M PyktokAPI (list json) :=
  if Z.ltb (Z.of_nat (length videos)) count then
    match fuel with
    | O => out_of_fuel
    | S fuel' =>
        resp ← with_driver
                 (fetch_api "sound_videos"
                    [("musicID", JStr sound_id); ("count", JNum 30); ("cursor", cursor)]);
        if no_response resp
        then finish ("sound_videos:" +:+ sound_id) videos count
        else
          let r := match resp with Some r => r | None => [] end in
          items ← page_items r "itemList";
          let videos := append_items videos items count in
          if negb (py_truthy (py_get r "hasMore" (JBool false)))
          then finish ("sound_videos:" +:+ sound_id) videos count
          else sound_videos_loop fuel' sound_id count videos (py_get r "cursor" (JNum 0))
    end
  else finish ("sound_videos:" +:+ sound_id) videos count.

Definition get_sound_videos (fuel : nat) (sound_id : string) (count : Z)
  : M PyktokAPI (list json) :=
  sound_videos_loop fuel sound_id count [] (JNum 0).

(** The [while] loop of [get_playlist_videos]. *)
Fixpoint playlist_videos_loop (fuel : nat) (playlist_id : string) (count : Z)
    (videos : list json) (cursor : json) : M PyktokAPI (list json) :=
  if Z.ltb (Z.of_nat (length videos)) count then
    match fuel with
    | O => out_of_fuel
    | S fuel' =>
        resp ← with_driver
                 (fetch_api "playlist_videos"
                    [("mixId", JStr playlist_id); ("count", JNum 30); ("cursor", cursor)]);
        if no_response resp
        then finish ("playlist_videos:" +:+ playlist_id) videos count
        else
          let r := match resp with Some r => r | None => [] end in
          items ← page_items r "itemList";
          let videos := append_items videos items count in
          if negb (py_truthy (py_get r "hasMore" (JBool false)))
          then finish ("playlist_videos:" +:+ playlist_id) videos count
          else playlist_videos_loop fuel' playlist_id count videos
                 (py_get r "cursor" (JNum 0))
    end
  else finish ("playlist_videos:" +:+ playlist_id) videos count.

Definition get_playlist_videos (fuel : nat) (playlist_id : string) (count : Z)
  : M PyktokAPI (list json) :=
  playlist_videos_loop fuel playlist_id count [] (JNum 0).

(** ** File names *)

Definition TIKTOK_BASE : string := "https://www.tiktok.com".

Definition newline : ascii := ascii_of_nat 10.

(** The rest of a match of [(.+?)(?=\?|$)] once its first character is
    taken: characters up to the next ["?"] or the end of the string (a
    newline ends the string only as its last character). *)
Fixpoint url_group_rest (t : string) : option string :=
  match t with
  | EmptyString => Some EmptyString
  | String c rest =>
      if Ascii.eqb c "?" then Some EmptyString
      else if Ascii.eqb c newline
      then match rest with EmptyString => Some EmptyString | _ => None end
      else option_map (String c) (url_group_rest rest)
  end.

Definition url_group (t : string) : option string :=
  match t with
  | EmptyString => None
  | String c rest =>
      if Ascii.eqb c newline then None
      else option_map (String c) (url_group_rest rest)
  end.

(** The first element of [re.findall(URL_REGEX, s)] with
    [URL_REGEX = r"(?<=\.com/)(.+?)(?=\?|$)"]. *)
Fixpoint url_regex_first (s : string) : option string :=
  match s with
  | EmptyString => None
  | String _ rest =>
      if String.prefix ".com/" s
      then match url_group (drop_chars 5 s) with
           | Some g => Some g
           | None => url_regex_first rest
           end
      else url_regex_first rest
  end.

(** [s.replace(a, b)] for one-character [a] and [b] *)
Fixpoint replace_char (a b : ascii) (s : string) : string :=
  match s with
  | EmptyString => EmptyString
  | String c rest => String (if Ascii.eqb c a then b else c) (replace_char a b rest)
  end.

Definition _dom_style_base_name_from_url (source_url : string) : string :=
  let base_name :=
    match url_regex_first source_url with
    | Some g => replace_char "/" "_" g
    | None => replace_char "/" "_" source_url
    end in
  match base_name with EmptyString => "output" | _ => base_name end.

(** [re.sub(r"\s+", "_", s)] *)
Fixpoint collapse_spaces (s : string) : string :=
  match s with
  | EmptyString => EmptyString
  | String c rest =>
      if is_space c then
        match rest with
        | String c' _ =>
            if is_space c' then collapse_spaces rest else String "_" (collapse_spaces rest)
        | EmptyString => String "_" EmptyString
        end
      else String c (collapse_spaces rest)
  end.

Definition is_safe_char (c : ascii) : bool :=
  let n := nat_of_ascii c in
  ((65 <=? n) && (n <=? 90) || (97 <=? n) && (n <=? 122) || is_digit c
   || Ascii.eqb c "_" || Ascii.eqb c "@" || Ascii.eqb c "-" || Ascii.eqb c ".")%nat.

(** [re.sub(r"[^A-Za-z0-9_@\-\.]+", "", s)] *)
Fixpoint keep_safe (s : string) : string :=
  match s with
  | EmptyString => EmptyString
  | String c rest => if is_safe_char c then String c (keep_safe rest) else keep_safe rest
  end.

Definition _sanitize_filename_part (s : string) : string :=
  let s := py_strip s in
  match s with
  | EmptyString => "unknown"
  | _ =>
      let s := replace_char "/" "_" s in
      let s := collapse_spaces s in
      let s := keep_safe s in
      match s with EmptyString => "unknown" | _ => s end
  end.

(** [sub in s] *)
Fixpoint contains (sub s : string) : bool :=
  String.prefix sub s ||
  match s with
  | EmptyString => false
  | String _ rest => contains sub rest
  end.

(** [str.lower] of one character: below 256 the capital letters are [A] to
    [Z] and U+00C0 to U+00DE without the sign U+00D7, each 32 below its
    small letter. *)
Definition lower_char (c : ascii) : ascii :=
  let n := nat_of_ascii c in
  if ((65 <=? n) && (n <=? 90) || (192 <=? n) && (n <=? 222) && negb (n =? 215))%nat
  then ascii_of_nat (n + 32) else c.

Fixpoint py_lower (s : string) : string :=
  match s with
  | EmptyString => EmptyString
  | String c rest => String (lower_char c) (py_lower rest)
  end.

Definition _default_csv_filename (endpoint identifier : string) : string :=
  let endpoint := py_lower (py_strip endpoint) in
  let identifier := py_strip identifier in
  let vid_part :=
    match search_video_id identifier with
    | Some digits => digits
    | None => _sanitize_filename_part identifier
    end in
  let named (path : string) (suffix : string) :=
    _dom_style_base_name_from_url (TIKTOK_BASE +:+ path) +:+ suffix in
  if String.eqb endpoint "user_videos" then
    named ("/@" +:+ py_strip (py_lstrip "@" identifier)) ".csv"
  else if String.eqb endpoint "user_info" then
    named ("/@" +:+ py_strip (py_lstrip "@" identifier)) "_user_info.csv"
  else if String.eqb endpoint "hashtag_videos" then
    named ("/tag/" +:+ py_strip (py_lstrip "#" identifier)) ".csv"
  else if String.eqb endpoint "video_comments" then
    "comments_" +:+ vid_part +:+ ".csv"
  else if String.eqb endpoint "related_videos" then
    if contains "tiktok.com" identifier
    then _dom_style_base_name_from_url identifier +:+ ".csv"
    else "related_" +:+ vid_part +:+ ".csv"
  else if String.eqb endpoint "trending" then
    named "/foryou" ".csv"
  else if String.eqb endpoint "search_videos" then
    named ("/search/" +:+ _sanitize_filename_part identifier) ".csv"
  else if String.eqb endpoint "search_users" then
    named ("/search/user/" +:+ _sanitize_filename_part identifier) ".csv"
  else if String.eqb endpoint "sound_videos" then
    named ("/music/" +:+ _sanitize_filename_part identifier) ".csv"
  else if String.eqb endpoint "sound_info" then
    named ("/music/" +:+ _sanitize_filename_part identifier) "_info.csv"
  else if String.eqb endpoint "playlist_videos" then
    named ("/playlist/" +:+ _sanitize_filename_part identifier) ".csv"
  else if String.eqb endpoint "playlist_info" then
    named ("/playlist/" +:+ _sanitize_filename_part identifier) "_info.csv"
  else
    let safe_id :=
      match identifier with
      | EmptyString => endpoint
      | _ => _sanitize_filename_part identifier
      end in
    endpoint +:+ "_" +:+ safe_id +:+ ".csv".

(** ** Rows *)

(** [generate_video_data_row(video_obj)]: the row of a video object.  An item
    that is not a dict has no [get]: [AttributeError]. *)
Definition generate_video_data_row (video_obj : json) : outcome row :=
  match video_obj with
  | JObj v =>
      Ret [ ("video_id", py_get v "id" (JStr ""));
            ("video_timestamp", JStr (video_timestamp v));
            ("video_duration", _safe video_obj ["video"; "duration"] (JStr ""));
            ("video_locationcreated", py_get v "locationCreated" (JStr ""));
            ("video_diggcount", _safe video_obj ["stats"; "diggCount"] (JStr ""));
            ("video_sharecount", _safe video_obj ["stats"; "shareCount"] (JStr ""));
            ("video_commentcount", _safe video_obj ["stats"; "commentCount"] (JStr ""));
            ("video_playcount", _safe video_obj ["stats"; "playCount"] (JStr ""));
            ("video_description", py_get v "desc" (JStr ""));
            ("video_is_ad", py_get v "isAd" (JBool false));
            ("video_stickers", JStr (video_stickers v));
            ("author_username", _safe video_obj ["author"; "uniqueId"] (JStr ""));
            ("author_name", _safe video_obj ["author"; "nickname"] (JStr ""));
            ("author_followercount", _safe video_obj ["authorStats"; "followerCount"] (JStr ""));
            ("author_followingcount", _safe video_obj ["authorStats"; "followingCount"] (JStr ""));
            ("author_heartcount", _safe video_obj ["authorStats"; "heartCount"] (JStr ""));
            ("author_videocount", _safe video_obj ["authorStats"; "videoCount"] (JStr ""));
            ("author_diggcount", _safe video_obj ["authorStats"; "diggCount"] (JStr ""));
            ("author_verified", _safe video_obj ["author"; "verified"] (JBool false));
            ("poi_name", _safe video_obj ["poi"; "name"] (JStr ""));
            ("poi_address", _safe video_obj ["poi"; "address"] (JStr ""));
            ("poi_city", _safe video_obj ["poi"; "city"] (JStr "")) ]
  | _ => Raise AttributeError
  end.

(** [_comment_export_row(comment_obj, aweme_id)] *)
Definition _comment_export_row (comment_obj : json) (aweme_id : string) : outcome row :=
  match comment_obj with
  | JObj c =>
      match py_get c "user" (JObj []) with
      | JObj user_obj =>
          Ret [ ("allow_download_photo", py_get c "allow_download_photo" (JBool false));
                ("author_pin", py_get c "author_pin" (JBool false));
                ("aweme_id", JStr (py_str (py_get c "aweme_id" (JStr aweme_id))));
                ("cid", JStr (py_str (py_get c "cid" (JStr ""))));
                ("collect_stat", py_get c "collect_stat" (JNum 0));
                ("comment_language", py_get c "comment_language" (JStr ""));
                ("comment_post_item_ids", py_get c "comment_post_item_ids" (JStr ""));
                ("create_time", py_get c "create_time" (JNum 0));
                ("digg_count", py_get c "digg_count" (JNum 0));
                ("image_list", py_get c "image_list" (JStr ""));
                ("is_author_digged", py_get c "is_author_digged" (JBool false));
                ("is_comment_translatable", py_get c "is_comment_translatable" (JBool false));
                ("is_high_purchase_intent", py_get c "is_high_purchase_intent" (JBool false));
                ("label_list", py_get c "label_list" (JStr ""));
                ("no_show", py_get c "no_show" (JBool false));
                ("reply_comment", py_get c "reply_comment" (JStr ""));
                ("reply_comment_total", py_get c "reply_comment_total" (JNum 0));
                ("reply_id", py_get c "reply_id" (JNum 0));
                ("reply_to_reply_id", py_get c "reply_to_reply_id" (JNum 0));
                ("share_info", py_get c "share_info" (JStr ""));
                ("sort_extra_score", py_get c "sort_extra_score" (JStr ""));
                ("sort_tags", py_get c "sort_tags" (JStr ""));
                ("status", py_get c "status" (JNum 0));
                ("stick_position", py_get c "stick_position" (JNum 0));
                ("text", py_get c "text" (JStr ""));
                ("text_extra", py_get c "text_extra" (JStr ""));
                ("trans_btn_style", py_get c "trans_btn_style" (JNum 0));
                ("user", py_get c "user" (JStr ""));
                ("user_buried", py_get c "user_buried" (JBool false));
                ("user_digged", py_get c "user_digged" (JNum 0));
                ("user_unique_id", py_get user_obj "unique_id" (JStr ""));
                ("user_nickname", py_get user_obj "nickname" (JStr ""));
                ("user_uid", py_get user_obj "uid" (JStr "")) ]
      | _ => Raise AttributeError
      end
  | _ => Raise AttributeError
  end.

(** [[f(x) for x in l]], stopping at the first exception. *)
Fixpoint map_rows (f : json -> outcome row) (l : list json) : outcome (list row) :=
  match l with
  | [] => Ret []
  | x :: rest =>
      match f x with
      | Ret r =>
          match map_rows f rest with
          | Ret rs => Ret (r :: rs)
          | Raise e => Raise e
          | OutOfFuel => OutOfFuel
          end
      | Raise e => Raise e
      | OutOfFuel => OutOfFuel
      end
  end.

(** ** The [save_*_csv] helpers *)

(** The client together with the files it writes. *)
Record World : Type := mkWorld {
  api : PyktokAPI;
  disk : files
}.

Definition with_api {A} (m : M PyktokAPI A) : M World A := fun w =>
  match m (api w) with
  | (r, a) => (r, mkWorld a (disk w))
  end.

(** The fallback on the cache that follows the fetch in every helper:
<<
    if not videos:
        cached = self._cache_get(key, [])
        if cached:
            videos = cached[:count]
>>
    Under a listing key the cache holds lists; another value cannot be
    sliced into rows. *)
Definition cached_fallback (key : string) (videos : list json) (count : Z)
  : M PyktokAPI (list json) :=
  match videos with
  | [] =>
      cached ← _cache_get key (JArr []);
      if py_truthy cached then
        match cached with
        | JArr l => mret (py_take l count)
        | _ => raise TypeError
        end
      else mret videos
  | _ => mret videos
  end.

(** [pd.DataFrame().to_csv(filename, index=False); return filename] *)
Definition save_nothing (filename : string) : M World string := fun w =>
  match to_csv filename empty_frame (disk w) with
  | Ret fs => (Ret filename, mkWorld (api w) fs)
  | Raise e => (Raise e, w)
  | OutOfFuel => (OutOfFuel, w)
  end.

(** The end of a helper once there are items: build the rows and the frame
    of them, merge it with the file, write the file, return its name. *)
Definition save_rows (filename : string) (rows : outcome (list row)) (key : string)
  : M World string := fun w =>
  match rows with
  | Ret combined =>
      match mergeAndWrite (disk w) filename (DataFrame combined) key with
      | Ret fs => (Ret filename, mkWorld (api w) fs)
      | Raise e => (Raise e, w)
      | OutOfFuel => (OutOfFuel, w)
      end
  | Raise e => (Raise e, w)
  | OutOfFuel => (OutOfFuel, w)
  end.

Definition filename_or (filename : option string) (endpoint identifier : string)
  : string :=
  match filename with
  | Some f => f
  | None => _default_csv_filename endpoint identifier
  end.

Definition save_user_videos_csv (fuel : nat) (username : string) (count : Z)
    (filename : option string) : M World string :=
  let filename := filename_or filename "user_videos" username in
  videos ← with_api (get_user_videos fuel username count);
  videos ← with_api
             (cached_fallback ("user_videos:" +:+ norm_username username) videos count);
  match videos with
  | [] => save_nothing filename
  | _ => save_rows filename (map_rows generate_video_data_row videos) "video_id"
  end.

Definition save_hashtag_videos_csv (fuel : nat) (hashtag : string) (count : Z)
    (filename : option string) : M World string :=
  let filename := filename_or filename "hashtag_videos" hashtag in
  videos ← with_api (get_hashtag_videos fuel hashtag count);
  videos ← with_api
             (cached_fallback ("hashtag_videos:" +:+ norm_hashtag hashtag) videos count);
  match videos with
  | [] => save_nothing filename
  | _ => save_rows filename (map_rows generate_video_data_row videos) "video_id"
  end.

Definition save_video_comments_csv (fuel : nat) (video_id : string) (count : Z)
    (filename : option string) : M World string :=
  let vid := extract_vid video_id in
  let filename := filename_or filename "video_comments" video_id in
  comments ← with_api (get_video_comments fuel video_id count);
  comments ← with_api (cached_fallback ("video_comments:" +:+ vid) comments count);
  match comments with
  | [] => save_nothing filename
  | _ => save_rows filename (map_rows (fun c => _comment_export_row c vid) comments) "cid"
  end.

Definition save_sound_videos_csv (fuel : nat) (sound_id : string) (count : Z)
    (filename : option string) : M World string :=
  let filename := filename_or filename "sound_videos" sound_id in
  videos ← with_api (get_sound_videos fuel sound_id count);
  videos ← with_api (cached_fallback ("sound_videos:" +:+ sound_id) videos count);
  match videos with
  | [] => save_nothing filename
  | _ => save_rows filename (map_rows generate_video_data_row videos) "video_id"
  end.

Definition save_playlist_videos_csv (fuel : nat) (playlist_id : string) (count : Z)
    (filename : option string) : M World string :=
  let filename := filename_or filename "playlist_videos" playlist_id in
  videos ← with_api (get_playlist_videos fuel playlist_id count);
  videos ← with_api (cached_fallback ("playlist_videos:" +:+ playlist_id) videos count);
  match videos with
  | [] => save_nothing filename
  | _ => save_rows filename (map_rows generate_video_data_row videos) "video_id"
  end.

Definition save_search_videos_csv (fuel : nat) (keyword : string) (count : Z)
    (filename : option string) : M World string :=
  let filename := filename_or filename "search_videos" keyword in
  videos ← with_api (search_videos fuel keyword count);
  videos ← with_api (cached_fallback ("search_videos:" +:+ keyword) videos count);
  match videos with
  | [] => save_nothing filename
  | _ => save_rows filename (map_rows generate_video_data_row videos) "video_id"
  end.

End Pipeline.

(** ** A concrete outside world, to run the embedding

    [pandas_read] is what [pd.read_csv(..., keep_default_na=False)] makes of
    the files of the examples: a column whose fields are all decimal
    integers that fit 64 bits (with an optional sign, and blanks around
    them) is read as integers, one whose fields are all [True]/[False] as
    booleans, any other column as the texts themselves (an empty field stays
    the empty text).  A file without columns cannot be read
    ([EmptyDataError]).  The frames of the examples have the same columns in
    every part and hold texts, integers and booleans: pandas re-types none
    of their cells.  Every path but the empty one can be written.  The
    examples do not print lists or dicts and have neither timestamps nor
    stickers.  Fields that pandas reads as floats are not among them. *)

Definition parse_digits (s : string) : option Z :=
  match s with
  | EmptyString => None
  | _ => option_map Z.of_uint (NilEmpty.uint_of_string s)
  end.

(** The blanks the integer parser of pandas skips around a number. *)
Definition is_blank (c : ascii) : bool :=
  let n := nat_of_ascii c in
  ((9 <=? n) && (n <=? 13) || (n =? 32))%nat.

Definition strip_blanks (s : string) : string :=
  string_of_list_ascii
    (rev (drop_while is_blank (rev (drop_while is_blank (list_ascii_of_string s))))).

(** The integer a field denotes, when pandas reads it as [int64]. *)
Definition parse_int64 (s : string) : option Z :=
  let parsed :=
    match strip_blanks s with
    | String "-" rest => option_map Z.opp (parse_digits rest)
    | String "+" rest => parse_digits rest
    | t => parse_digits t
    end in
  match parsed with
  | Some n => if Z.leb (- 2 ^ 63) n && Z.ltb n (2 ^ 63) then Some n else None
  | None => None
  end.

Definition parse_bool (s : string) : option bool :=
  if String.eqb s "True" || String.eqb s "TRUE" || String.eqb s "true" then Some true
  else if String.eqb s "False" || String.eqb s "FALSE" || String.eqb s "false"
  then Some false
  else None.

Fixpoint all_some {A B} (f : A -> option B) (l : list A) : option (list B) :=
  match l with
  | [] => Some []
  | x :: rest =>
      match f x, all_some f rest with
      | Some y, Some ys => Some (y :: ys)
      | _, _ => None
      end
  end.

Definition infer_column (texts : list string) : list json :=
  match texts with
  | [] => []
  | _ =>
      match all_some parse_int64 texts with
      | Some ns => map JNum ns
      | None =>
          match all_some parse_bool texts with
          | Some bs => map JBool bs
          | None => map JStr texts
          end
      end
  end.

Definition pandas_read (f : csv_file) : option frame :=
  match header f with
  | [] => None
  | cols =>
      let cells :=
        imap (fun j c => (c, infer_column (map (fun l => nth j l "") (lines f)))) cols in
      Some (mkFrame cols
              (imap (fun i _ => map (fun cc => (fst cc, nth i (snd cc) JNull)) cells)
                 (lines f)))
  end.

Definition pandas : External := {|
  py_repr := fun _ => "[]";
  read_csv := pandas_read;
  typed := fun rs => rs;
  can_write := fun path => negb (String.eqb path "");
  video_timestamp := fun _ => "";
  video_stickers := fun _ => ""
|}.

(** * The hidden-endpoint calls of [DOM.py]

    [Pyktok] of [DOM.py] has its own signed fetch, [_hidden_api_fetch], and
    its own listing calls on top of it.  The browser is the scripted browser
    of above (its memo of session parameters is not used here); the client
    creates it lazily, in [_ensure_driver].  A name that a function reads
    and that is neither local nor bound at module level is a [NameError]
    when the line is reached. *)

Module DOM.

(** The names [DOM.py] binds at module level, in the order of the file: its
    imports, constants, functions and classes. *)
Definition module_names : list string :=
  [ "annotations"; "os"; "sys"; "time"; "random"; "json"; "re"; "logging";
    "Any"; "Dict"; "List"; "Optional"; "Tuple"; "datetime"; "urlencode"; "quote";
    "pd"; "uc"; "By"; "StaleElementReferenceException"; "BeautifulSoup";
    "browser_cookie3"; "requests"; "logger"; "TIKTOK_BASE"; "HEADERS"; "URL_REGEX";
    "VIDEO_ID_REGEX"; "_STEALTH_SCRIPT"; "SeleniumDriver"; "_extract_json_from_html";
    "_extract_video_struct"; "DATA_COLUMNS"; "_safe"; "generate_data_row";
    "_deduplicate"; "Pyktok"; "_pyk"; "_get_pyk"; "specify_browser"; "save_tiktok";
    "get_tiktok_json"; "save_tiktok_multi_urls"; "save_tiktok_multi_page";
    "save_tiktok_comments"; "get_tiktok_comments"; "get_user_info"; "get_user_videos";
    "get_hashtag_videos"; "get_video_comments"; "get_related_videos";
    "get_trending_videos"; "search_users"; "get_sound_info"; "get_sound_videos";
    "get_playlist_info"; "get_playlist_videos"; "close"; "_cli" ].

(** The one module-level name that is bound to a dict of strings. *)
Definition HEADERS : list (string * string) :=
  [ ("Accept-Encoding", "gzip, deflate, sdch");
    ("Accept-Language", "en-US,en;q=0.8");
    ("Upgrade-Insecure-Requests", "1");
    ("User-Agent", "Mozilla/5.0 (Macintosh; Intel Mac OS X 10_15_7) AppleWebKit/537.36 (KHTML, like Gecko) Chrome/120.0.0.0 Safari/537.36");
    ("Accept", "text/html,application/xhtml+xml,application/xml;q=0.9,image/webp,*/*;q=0.8");
    ("Cache-Control", "max-age=0");
    ("Connection", "keep-alive") ].

Definition module_dicts : list (string * list (string * string)) :=
  [ ("HEADERS", HEADERS) ].

(** What a call of [DOM.py] can raise: the two exceptions of its own, and
    those of the code it shares with [API.py]. *)
Inductive error : Type :=
| NameError
| RuntimeError
| Raised (e : exn).

(** How a call ends: it returns, raises, or is still running when its fuel
    ends. *)
Inductive result (A : Type) : Type :=
| Ok (a : A)
| Error (e : error)
| Running.
#[global] Arguments Ok {A} a.
#[global] Arguments Error {A} e.
#[global] Arguments Running {A}.

(** The client: whether it was made with [use_hidden_api=True]; whether
    it holds a jar with cookies ([self._cookies] is truthy); its
    [SeleniumDriver], if it has made one, with the Chrome of that driver,
    if it has been launched ([self._driver] and [self._driver.driver]).
    [chrome] is the oracle of [uc.Chrome(...)]: for each launch to come, the
    browser it gives, or [None] when the launch raises. *)
Record Pyktok : Type := mkPyktok {
  use_hidden_api : bool;
  _cookies : bool;
  _driver : option (option SeleniumDriverAPI);
  chrome : list (option SeleniumDriverAPI)
}.

Definition Call (A : Type) : Type := Pyktok -> result A * Pyktok.

Definition ret {A} (a : A) : Call A := fun p => (Ok a, p).

Definition bind {A B} (m : Call A) (f : A -> Call B) : Call B := fun p =>
  match m p with
  | (Ok a, p') => f a p'
  | (Error e, p') => (Error e, p')
  | (Running, p') => (Running, p')
  end.

Definition raises {A} (e : error) : Call A := fun p => (Error e, p).

Definition still_running {A} : Call A := fun p => (Running, p).

Definition set_driver (p : Pyktok) (d : option (option SeleniumDriverAPI)) : Pyktok :=
  mkPyktok (use_hidden_api p) (_cookies p) d (chrome p).

(** A method of [self._driver.driver] called from the client; without a
    Chrome there is nothing to call it on. *)
Definition with_driver {A} (m : M SeleniumDriverAPI A) : Call A := fun p =>
  match _driver p with
  | Some (Some d) =>
      match m d with
      | (Ret a, d') => (Ok a, set_driver p (Some (Some d')))
      | (Raise e, d') => (Error (Raised e), set_driver p (Some (Some d')))
      | (OutOfFuel, d') => (Running, set_driver p (Some (Some d')))
      end
  | _ => (Error (Raised AttributeError), p)
  end.

(** [SeleniumDriver.start(cookies_jar)]
<<
    self.driver = uc.Chrome(options=opts, use_subprocess=False, version_main=144)
    ...                               # CDP commands, each in try/except: pass
    self.driver.get(TIKTOK_BASE)
    if cookies_jar:
        self._inject_cookies(cookies_jar)    # add_cookie in try/except, then
                                             # self.driver.refresh()
>>
    The refresh loads the page again. *)
Definition start : Call unit := fun p =>
  match chrome p with
  | Some d :: rest =>
      with_driver (driver_get;; if _cookies p then driver_get else mret tt)
        (mkPyktok (use_hidden_api p) (_cookies p) (Some (Some d)) rest)
  | None :: rest =>
      (Error (Raised WebDriverException),
       mkPyktok (use_hidden_api p) (_cookies p) (_driver p) rest)
  | [] => (Error (Raised WebDriverException), p)
  end.

(** [_ensure_driver]
<<
    if self._driver is None or self._driver.driver is None:
        self._driver = SeleniumDriver(...)
        self._driver.start(cookies_jar=self._cookies)
    return self._driver
>> *)
Definition _ensure_driver : Call unit := fun p =>
  match _driver p with
  | Some (Some _) => (Ok tt, p)
  | _ => start (set_driver p (Some None))
  end.

(** Reading a module-level name that is expected to hold a dict of strings. *)
Definition read_global_dict (name : string) : Call (list (string * string)) :=
  if existsb (String.eqb name) module_names then
    match List.find (fun kv => String.eqb (fst kv) name) module_dicts with
    | Some kv => ret (snd kv)
    | None => raises (Raised TypeError)
    end
  else raises NameError.

(** [SeleniumDriver.go]: [driver.get(url)], a sleep, and a script that
    moves the mouse. *)
Definition go : M SeleniumDriverAPI unit :=
  driver_get;; execute_script;; mret tt.

(** [_require_hidden_api] *)
Definition _require_hidden_api : Call unit := fun p =>
  if use_hidden_api p then (Ok tt, p) else (Error RuntimeError, p).

(** [not resp] for what [_hidden_api_fetch] returned. *)
Definition no_response (resp : option json) : bool :=
  match resp with
  | None => true
  | Some j => negb (py_truthy j)
  end.

(** [_hidden_api_fetch(endpoint_key, params)]
<<
    drv = self._ensure_driver()
    path = HIDDEN_API_ENDPOINTS[endpoint_key]
    base_url = TIKTOK_BASE + path
    ms_token = drv.get_ms_token()
    if ms_token:
        params["msToken"] = ms_token
    ...
    try:
        drv.driver.execute_script("return window.byted_acrawler;")
    except Exception:
        drv.go(TIKTOK_BASE)
    try:
        sign_result = drv.driver.execute_script(...)
        x_bogus = sign_result.get("X-Bogus", "") if isinstance(sign_result, dict) else ""
    except Exception as exc:
        x_bogus = ""
    ...
    try:
        raw = drv.driver.execute_async_script(js)
        return json.loads(raw)
    except Exception as exc:
        return None
>>
    The text the script returns is the body of the response; what
    [json.loads] makes of it need not be a dict. *)
Definition _hidden_api_fetch (endpoint_key : string) (params : dict)
  : Call (option json) :=
  bind _ensure_driver (fun _ =>
  bind (read_global_dict "HIDDEN_API_ENDPOINTS") (fun table =>
  bind (match endpoint_path table endpoint_key with
        | Some path => ret path
        | None => raises (Raised KeyError)
        end) (fun path =>
  bind (with_driver get_ms_token) (fun ms_token =>
  let params :=
    match ms_token with
    | Some t => if String.eqb t "" then params else dict_set params "msToken" (JStr t)
    | None => params
    end in
  bind (with_driver (try_except (execute_script;; mret tt) (fun _ => go))) (fun _ =>
  bind (with_driver
          (try_except
             (sign_result ← execute_script;
              mret (match sign_result with
                    | JObj d => py_get d "X-Bogus" (JStr "")
                    | _ => JStr ""
                    end))
             (fun _ => mret (JStr "")))) (fun x_bogus =>
  with_driver
    (try_except
       (raw ← execute_async_script;
        match raw with
        | AsyncOther b =>
            match body_json b with
            | Some j => mret (Some j)
            | None => raise JSONDecodeError
            end
        | _ => raise JSONDecodeError
        end)
       (fun _ => mret None)))))))).

(** [resp.get(key, default)] for something that may not be a dict. *)
Definition get_of (resp : json) (key : string) (default : json) : Call json :=
  match resp with
  | JObj d => ret (py_get d key default)
  | _ => raises (Raised AttributeError)
  end.

(** The loop the five paginated calls share, up to the endpoint, the
    parameters, the field of the items and the flag:
<<
    while len(videos) < count:
        resp = self._hidden_api_fetch(endpoint, {..., "cursor": cursor})
        if not resp:
            break
        for item in resp.get(field, []):
            videos.append(item)
            if len(videos) >= count:
                break
        if not resp.get(flag, False):
            break
        cursor = resp.get("cursor", 0)
    return videos[:count]
>> *)
Fixpoint listing_loop (fuel : nat) (endpoint : string) (params : json -> dict)
    (field flag : string) (count : Z) (videos : list json) (cursor : json)
  : Call (list json) :=
  if Z.ltb (Z.of_nat (length videos)) count then
    match fuel with
    | O => still_running
    | S fuel' =>
        bind (_hidden_api_fetch endpoint (params cursor)) (fun resp =>
        if no_response resp then ret (py_take videos count)
        else
          let r := match resp with Some j => j | None => JNull end in
          bind (get_of r field (JArr [])) (fun page =>
          bind (match py_iter page with
                | Some items => ret items
                | None => raises (Raised TypeError)
                end) (fun items =>
          let videos := append_items videos items count in
          bind (get_of r flag (JBool false)) (fun more =>
          if negb (py_truthy more) then ret (py_take videos count)
          else
            bind (get_of r "cursor" (JNum 0)) (fun cursor =>
            listing_loop fuel' endpoint params field flag count videos cursor)))))
    end
  else ret (py_take videos count).

Definition get_user_info (username : string) : Call (option json) :=
  bind _require_hidden_api (fun _ =>
  _hidden_api_fetch "user_detail" [("uniqueId", JStr username); ("secUid", JStr "")]).

Definition get_user_videos (fuel : nat) (username : string) (count : Z)
  : Call (list json) :=
  bind _require_hidden_api (fun _ =>
  bind (get_user_info username) (fun user_resp =>
  if no_response user_resp then ret []
  else
    let sec_uid :=
      _safe (match user_resp with Some j => j | None => JNull end)
        ["userInfo"; "user"; "secUid"] (JStr "") in
    if negb (py_truthy sec_uid) then ret []
    else
      listing_loop fuel "user_videos"
        (fun cursor => [("secUid", sec_uid); ("count", JNum 35); ("cursor", cursor)])
        "itemList" "hasMore" count [] (JNum 0))).

Definition get_hashtag_videos (fuel : nat) (hashtag : string) (count : Z)
  : Call (list json) :=
  bind _require_hidden_api (fun _ =>
  bind (_hidden_api_fetch "hashtag_detail" [("challengeName", JStr hashtag)])
    (fun detail =>
  if no_response detail then ret []
  else
    let challenge_id :=
      _safe (match detail with Some j => j | None => JNull end)
        ["challengeInfo"; "challenge"; "id"] (JStr "") in
    if negb (py_truthy challenge_id) then ret []
    else
      listing_loop fuel "hashtag_videos"
        (fun cursor =>
           [("challengeID", challenge_id); ("count", JNum 35); ("cursor", cursor)])
        "itemList" "hasMore" count [] (JNum 0))).

Definition get_video_comments (fuel : nat) (video_id : string) (count : Z)
  : Call (list json) :=
  bind _require_hidden_api (fun _ =>
  let vid := extract_vid video_id in
  listing_loop fuel "video_comments"
    (fun cursor => [("aweme_id", JStr vid); ("count", JNum 20); ("cursor", cursor)])
    "comments" "has_more" count [] (JNum 0)).

Definition get_sound_info (sound_id : string) : Call (option json) :=
  bind _require_hidden_api (fun _ =>
  _hidden_api_fetch "sound_detail" [("musicId", JStr sound_id)]).

Definition get_sound_videos (fuel : nat) (sound_id : string) (count : Z)
  : Call (list json) :=
  bind _require_hidden_api (fun _ =>
  listing_loop fuel "sound_videos"
    (fun cursor => [("musicID", JStr sound_id); ("count", JNum 30); ("cursor", cursor)])
    "itemList" "hasMore" count [] (JNum 0)).

Definition get_playlist_info (playlist_id : string) : Call (option json) :=
  bind _require_hidden_api (fun _ =>
  _hidden_api_fetch "playlist_detail" [("mixId", JStr playlist_id)]).

Definition get_playlist_videos (fuel : nat) (playlist_id : string) (count : Z)
  : Call (list json) :=
  bind _require_hidden_api (fun _ =>
  listing_loop fuel "playlist_videos"
    (fun cursor => [("mixId", JStr playlist_id); ("count", JNum 30); ("cursor", cursor)])
    "itemList" "hasMore" count [] (JNum 0)).

End DOM.

(** * Vocabulary of the properties *)

Section FrameVocabulary.
Context `{External}.

(** The file at [path] after merging the rows [rows1] and then the rows
    [rows2] into it, as two calls of a [save_*_csv] helper do. *)
Definition merged_twice (fs : files) (path : string) (rows1 rows2 : list row)
    (key : string) : option csv_file :=
  match mergeAndWrite fs path (DataFrame rows1) key with
  | Ret fs1 =>
      match mergeAndWrite fs1 path (DataFrame rows2) key with
      | Ret fs2 => fs2 !! path
      | _ => None
      end
  | _ => None
  end.

(** The file at [path] after merging [rows] into it once. *)
Definition merged_once (fs : files) (path : string) (rows : list row)
    (key : string) : option csv_file :=
  match mergeAndWrite fs path (DataFrame rows) key with
  | Ret fs1 => fs1 !! path
  | _ => None
  end.

End FrameVocabulary.

(** A row that has only its key. *)
Definition video_id_row (id : string) : row := [("video_id", JStr id)].

(** A file that holds only the column of the key. *)
Definition video_id_file (ids : list string) : csv_file :=
  mkCsv ["video_id"] (map (fun id => [id]) ids).


(** ** Example worlds

    A browser that answers every script with [reply], loads every page and
    has no cookies; the network answers are [answers]. *)
Definition browser (reply : json) (answers : list async_reply) : SeleniumDriverAPI :=
  mkDriver (repeat (ScriptReturns reply) 60) (repeat true 60) (repeat (Some []) 60)
    answers [] None [].

Definition client (d : SeleniumDriverAPI) : PyktokAPI := mkApi d ∅.

Definition world (d : SeleniumDriverAPI) : World := mkWorld (client d) ∅.

(** A completed request whose body parses to [j]. *)
Definition answer (j : json) : async_reply :=
  AsyncStatus "200" {| body_len := 100; body_json := Some j |}.

(** A completed request with an empty body. *)
Definition empty_answer : async_reply := AsyncStatus "200" empty_body.

Definition video (id : string) : json := JObj [("id", JStr id)].

Definition user_detail_of (sec_uid : string) : json :=
  JObj [("userInfo", JObj [("user", JObj [("secUid", JStr sec_uid)])])].

Definition hashtag_detail_of (id : string) : json :=
  JObj [("challengeInfo", JObj [("challenge", JObj [("id", JStr id)])])].

Definition page_of (ids : list string) (more : bool) (cursor : Z) : json :=
  JObj [("itemList", JArr (map video ids)); ("hasMore", JBool more);
        ("cursor", JNum cursor)].

(** The permanent-block answer of the hashtag listing. *)
Definition blocked_answer : async_reply := answer (JObj [("statusCode", JNum 100002)]).

(** ** Reading the ghost record *)

Definition is_attempt (e : event) : bool :=
  match e with EvAttempt _ _ => true | _ => false end.

Definition is_call (e : event) : bool :=
  match e with EvCall _ _ => true | _ => false end.

Definition is_result (e : event) : bool :=
  match e with EvResult _ _ => true | _ => false end.

Definition is_invalidate (e : event) : bool :=
  match e with EvInvalidate => true | _ => false end.

Definition is_fallback (e : event) : bool :=
  match e with EvFallback _ => true | _ => false end.

(** The number of passes through the retry loop recorded in [evs]. *)
Definition n_attempts (evs : list event) : nat := length (List.filter is_attempt evs).

(** What one call of [fetch_api] on [endpoint] with [params] records between
    its [EvCall] and its [EvResult]: derivations of the session parameters,
    passes of the retry loop, and requests whose parameters are [params]
    merged over some session parameters and token. *)
Definition inner_event `{External} (endpoint : string) (params : dict) (e : event)
  : Prop :=
  match e with
  | EvDerive => True
  | EvAttempt ep _ => ep = endpoint
  | EvRequest ep merged _ =>
      ep = endpoint
      /\ exists base_params ms_token,
           merged = merge_params endpoint base_params params ms_token
  | _ => False
  end.

(** [m] appends to the record only events that satisfy [Q], at most [n] of
    them passes of the retry loop, and does not run out of fuel. *)
Definition emits {A} (n : nat) (Q : event -> Prop) (m : M SeleniumDriverAPI A) : Prop :=
  forall d, exists evs,
    trace (snd (m d)) = trace d ++ evs /\ Forall Q evs /\ (n_attempts evs <= n)%nat
    /\ fst (m d) <> OutOfFuel.

(** [m] returns: it neither raises nor runs out of fuel. *)
Definition returns {S A} (m : M S A) : Prop :=
  forall s, exists a, fst (m s) = Ret a.

(** What one call of [fetch_api] appends to the record: the call, what
    happened inside, and the result when it returned. *)
Definition fetch_record (endpoint : string) (params : dict) (inner : list event)
    (r : outcome (option dict)) : list event :=
  EvCall endpoint params :: inner ++
  match r with
  | Ret resp => [EvResult endpoint resp]
  | _ => []
  end.

(** A browser in which the signing capability is not there at the first
    poll and the warm-up page then fails to load. *)
Definition stalled_browser : SeleniumDriverAPI :=
  mkDriver (repeat (ScriptReturns (JBool false)) 7) [false] [] [] [] None [].

(** ** Reading a listing run off the record *)

(** The record kept by the client's driver. *)
Definition record (a : PyktokAPI) : list event := trace (_driver a).

(** The items a listing call reads from a page: [resp.get(field, [])]
    iterated. *)
Definition field_items (field : string) (r : dict) : list json :=
  match py_iter (py_get r field (JArr [])) with
  | Some items => items
  | None => []
  end.

(** The items of the pages that the calls on [endpoint] returned, in the
    order of the calls. *)
Definition page_of_event (endpoint : string) (items : dict -> list json) (e : event)
  : list json :=
  match e with
  | EvResult ep (Some r) => if String.eqb ep endpoint then items r else []
  | _ => []
  end.

Definition pages (endpoint : string) (items : dict -> list json) (evs : list event)
  : list json :=
  flat_map (page_of_event endpoint items) evs.

(** Whether a page asks for the next one: [resp.get(flag, False)]. *)
Definition has_more (flag : string) (r : dict) : bool :=
  py_truthy (py_get r flag (JBool false)).

(** What a listing loop makes of a response.  [retries] says whether a
    failed call leaves the listing open (the user and hashtag listings) or
    ends it. *)
Definition goes_on (retries : bool) (flag : string) (resp : option dict) : bool :=
  if no_response resp then retries
  else match resp with Some r => has_more flag r | None => false end.

(** Whether the calls on [endpoint] recorded in [evs] respect the loop
    condition: a call is made only while fewer than [count] items have come
    in ([have] so far) and the listing is still [open]. *)
Fixpoint stops_when_done (endpoint : string) (items : dict -> list json)
    (decide : option dict -> bool) (count : Z) (have : nat) (open : bool)
    (evs : list event) : bool :=
  match evs with
  | [] => true
  | EvCall ep _ :: rest =>
      if String.eqb ep endpoint
      then open && Z.ltb (Z.of_nat have) count
           && stops_when_done endpoint items decide count have open rest
      else stops_when_done endpoint items decide count have open rest
  | EvResult ep resp :: rest =>
      if String.eqb ep endpoint
      then stops_when_done endpoint items decide count
             (have + length (page_of_event endpoint items (EvResult ep resp)))
             (decide resp) rest
      else stops_when_done endpoint items decide count have open rest
  | _ :: rest => stops_when_done endpoint items decide count have open rest
  end.

(** The number of calls of [fetch_api] on [endpoint] recorded in [evs]. *)
Definition n_calls (endpoint : string) (evs : list event) : nat :=
  length (List.filter
            (fun e => match e with EvCall ep _ => String.eqb ep endpoint | _ => false end)
            evs).

(** ** The outline of a run: how each call on an endpoint ended, and what
    the loop did about it *)

Inductive mark : Type :=
| Page
| Failed
| Invalidated
| FellBack.

Definition mark_of (endpoint : string) (e : event) : list mark :=
  match e with
  | EvResult ep resp =>
      if String.eqb ep endpoint then [if no_response resp then Failed else Page] else []
  | EvInvalidate => [Invalidated]
  | EvFallback _ => [FellBack]
  | _ => []
  end.

Definition outline (endpoint : string) (evs : list event) : list mark :=
  flat_map (mark_of endpoint) evs.







(** ** The cache between two states of the client *)

(** A value [_cache_set] refuses to store. *)
Definition is_empty_value (v : json) : bool :=
  match v with
  | JNull => true
  | JArr [] => true
  | JObj [] => true
  | _ => false
  end.

(** From [a] to [a'] no cache entry was removed, and each entry of [a']
    is the one [a] had or a value that is not empty. *)
Definition cache_grows (a a' : PyktokAPI) : Prop :=
  forall k,
    match _last_ok a' !! k with
    | Some v => _last_ok a !! k = Some v \/ is_empty_value v = false
    | None => _last_ok a !! k = None
    end.

(** No entry of the cache holds an empty value. *)
Definition cache_nonempty (a : PyktokAPI) : Prop :=
  forall k v, _last_ok a !! k = Some v -> is_empty_value v = false.

(** ** Strings of digits *)


Fixpoint all_safe (s : string) : bool :=
  match s with
  | EmptyString => true
  | String c rest => is_safe_char c && all_safe rest
  end.

(** ** A browser that is ready to sign

    The session parameters are memoised, the signing capability is there at
    the first poll, the cookies can be read, and the network answers
    [answers] in turn. *)
Definition ready_browser (answers : list async_reply) : SeleniumDriverAPI :=
  mkDriver (repeat (ScriptReturns (JBool true)) 60) (repeat true 60)
    (repeat (Some []) 60) answers [] (Some [("from_page", JStr "user")]) [].

(** A browser that answers the user detail and one page of one video that
    asks for more, and then no request any more. *)
Definition one_page_browser : SeleniumDriverAPI :=
  ready_browser [answer (user_detail_of "S"); answer (page_of ["1"] true 1)].

(** ** What a listing loop promises

    A listing is read off the record through [endpoint_of], the endpoint
    of its pages, [items_of], what it reads from a page, and [open_after],
    whether a response leaves it open; [also_taken] are the items it takes
    from events of other endpoints (the search pages of the hashtag fallback), and [others]
    the events it may record besides those of its own calls. *)
Record listing : Type := mkListing {
  endpoint_of : string;
  items_of : dict -> list json;
  open_after : option dict -> bool;
  also_taken : event -> list json;
  others : event -> Prop
}.

(** The items a listing takes from an event. *)
Definition taken (L : listing) (e : event) : list json :=
  page_of_event (endpoint_of L) (items_of L) e ++ also_taken L e.

(** An event of a call of [fetch_api] on the endpoint of the listing. *)
Definition own_event (L : listing) (e : event) : Prop :=
  match e with
  | EvCall ep' _ | EvAttempt ep' _ | EvRequest ep' _ _ | EvResult ep' _ => ep' = endpoint_of L
  | EvDerive => True
  | _ => False
  end.

(** [m] continues a listing that has [acc] so far, [have] of them counted
    against [count], and is [open] or not: what it records are events of
    the listing, its calls respect the loop condition, and what it returns
    is [acc] followed by the items of what it records, cut at [count]. *)
Definition lists_from (L : listing) (count : Z) (acc : list json) (have : nat)
    (open : bool) (m : M PyktokAPI (list json)) : Prop :=
  forall a, exists evs,
    record (snd (m a)) = record a ++ evs
    /\ Forall (fun e => own_event L e \/ others L e) evs
    /\ stops_when_done (endpoint_of L) (items_of L) (open_after L) count have open evs = true
    /\ forall out, fst (m a) = Ret out ->
         out = py_take (acc ++ flat_map (taken L) evs) count.

(** An event of another endpoint, or none of a call. *)
Definition foreign (endpoint : string) (e : event) : Prop :=
  match e with
  | EvCall ep' _ | EvResult ep' _ => String.eqb ep' endpoint = false
  | _ => True
  end.

(** The listings of [PyktokAPI]. *)
Definition item_listing (endpoint flag : string) (field : string) (retries : bool)
    (others : event -> Prop) : listing :=
  mkListing endpoint (field_items field) (goes_on retries flag) (fun _ => []) others.

Definition sound_listing : listing :=
  item_listing "sound_videos" "hasMore" "itemList" false (fun _ => False).

Definition playlist_listing : listing :=
  item_listing "playlist_videos" "hasMore" "itemList" false (fun _ => False).

Definition comments_listing : listing :=
  item_listing "video_comments" "has_more" "comments" false (fun _ => False).

Definition user_listing : listing :=
  item_listing "user_videos" "hasMore" "itemList" true (fun e => e = EvInvalidate).

(** A search goes on after a page that had videos and asks for more. *)
Definition search_goes_on (resp : option dict) : bool :=
  match resp with
  | Some r =>
      negb (no_response resp)
      && match _extract_videos r with [] => false | _ => true end
      && has_more "has_more" r
  | None => false
  end.

Definition search_listing : listing :=
  mkListing "search_general" _extract_videos search_goes_on (fun _ => [])
    (fun _ => False).

(** The hashtag listing also takes the videos of the search pages of its
    fallback. *)
Definition hashtag_listing : listing :=
  mkListing "hashtag_videos" (field_items "itemList") (goes_on true "hasMore")
    (page_of_event "search_general" _extract_videos)
    (fun e => e = EvInvalidate \/ (exists h, e = EvFallback h)
              \/ own_event search_listing e).

(** The outline of what [m] records on [endpoint] satisfies [policy]. *)
Definition follows (policy : list mark -> bool) (endpoint : string)
    (m : M PyktokAPI (list json)) : Prop :=
  forall a, exists evs,
    record (snd (m a)) = record a ++ evs
    /\ policy (outline endpoint evs) = true.


(** [m] removes no cache entry and stores no empty value. *)
Definition keeps_cache {A} (m : M PyktokAPI A) : Prop :=
  forall a, cache_grows a (snd (m a)).

(** When [m] returns a list, it has stored it under [key] unless it is
    empty, and has changed nothing else in the cache. *)
Definition caches_result (key : string) (m : M PyktokAPI (list json)) : Prop :=
  forall a out,
    fst (m a) = Ret out ->
    _last_ok (snd (m a))
    = match out with
      | [] => _last_ok a
      | _ => <[key := JArr out]> (_last_ok a)
      end.

(** When the last mark of what [m] records on [endpoint], or of [before]
    if it records none, is a failed call, [m] leaves the cache as it was. *)
Definition gives_up_uncached (endpoint : string) (before : list mark)
    (m : M PyktokAPI (list json)) : Prop :=
  forall a, exists evs,
    record (snd (m a)) = record a ++ evs
    /\ (last (before ++ outline endpoint evs) = Some Failed ->
        _last_ok (snd (m a)) = _last_ok a).

(** A page without items that asks for the next one. *)
Definition empty_page_with_more : dict := [("itemList", JArr []); ("hasMore", JBool true)].

(** A browser that is ready to sign and answers [n] requests, each with an
    empty page that asks for the next one. *)
Definition patient_browser (n : nat) : SeleniumDriverAPI :=
  mkDriver (repeat (ScriptReturns (JBool true)) (2 * n)) [] (repeat (Some []) n)
    (repeat (answer (JObj empty_page_with_more)) n) [] (Some []) [].

(** ** Rows *)

(** The text under which a video is de-duplicated: [str] of its [id]. *)
Definition video_key `{External} (v : json) : string :=
  match v with
  | JObj d => py_str (py_get d "id" (JStr ""))
  | _ => ""
  end.

(** The text under which a comment is de-duplicated: [str] of its [cid]. *)
Definition comment_key `{External} (c : json) : string :=
  match c with
  | JObj d => py_str (py_get d "cid" (JStr ""))
  | _ => ""
  end.

(** A comment [_comment_export_row] can read: a dict whose [user], if there
    is one, is a dict. *)
Definition is_comment (c : json) : bool :=
  match c with
  | JObj d => is_dict (py_get d "user" (JObj []))
  | _ => false
  end.

(** ** Statements about one computation *)

(** Whatever [m] returns satisfies [P]. *)
Definition yields {S A} (P : A -> Prop) (m : M S A) : Prop :=
  forall s a, fst (m s) = Ret a -> P a.

(** [m] leaves the component [f] of the driver as it was. *)
Definition keeps {A X} (f : SeleniumDriverAPI -> X) (m : M SeleniumDriverAPI A) : Prop :=
  forall d, f (snd (m d)) = f d.

(** [m] reads [k] replies of the scripts and none of the page loads, the
    cookies and the network. *)
Definition reads {A} (k : nat) (m : M SeleniumDriverAPI A) : Prop :=
  forall d,
    script_tape (snd (m d)) = drop k (script_tape d)
    /\ nav_tape (snd (m d)) = nav_tape d
    /\ cookie_tape (snd (m d)) = cookie_tape d
    /\ async_tape (snd (m d)) = async_tape d.

(** What was recorded between the states [d] and [d']. *)
Definition new_events (d d' : SeleniumDriverAPI) : list event :=
  drop (length (trace d)) (trace d').

(** The test a parsed body has to pass for [fetch_api] to return it:
<<
    if data.get("statusCode") == 0 or any(k in data for k in expected_keys):
        return data
>> *)
Definition accepted (endpoint_key : string) (data : dict) : bool :=
  py_eq_int (py_get data "statusCode" JNull) 0
  || existsb (fun k => py_in k data) (_expected_keys endpoint_key).

(** The replies the polls for the signing capability will read: those left
    once the six [_js] probes of a derivation have read theirs. *)
Definition polls (d : SeleniumDriverAPI) : list script_reply :=
  match _hidden_api_session_params d with
  | Some _ => script_tape d
  | None => drop 6 (script_tape d)
  end.

(** The next poll does not find the signing capability. *)
Definition poll_fails (replies : list script_reply) : bool :=
  match replies with
  | ScriptReturns v :: _ => negb (py_truthy v)
  | _ => true
  end.

(** The next poll finds the signing capability. *)
Definition poll_succeeds (replies : list script_reply) : bool :=
  match replies with
  | ScriptReturns v :: _ => py_truthy v
  | _ => false
  end.

(** The cookies can be read at the next try. *)
Definition cookies_readable (replies : list (option (list (string * string)))) : bool :=
  match replies with
  | Some _ :: _ => true
  | _ => false
  end.

(** The next page load fails. *)
Definition navigation_fails (loads : list bool) : bool :=
  match loads with
  | true :: _ => false
  | _ => true
  end.

(** The next request completes with a body that parses to the dict [data];
    [rest] are the replies after it. *)
Definition answers_with (data : dict) (replies rest : list async_reply) : Prop :=
  exists status b,
    replies = AsyncStatus status b :: rest
    /\ (10 <= body_len b)%nat
    /\ body_json b = Some (JObj data).

(** What one call of [fetch_api] on [endpoint] with [params] records inside,
    once its session parameters are [base_params]: derivations, passes of
    the retry loop, and requests whose parameters are [params] merged over
    [base_params] and the token of the moment. *)
Definition request_event `{External} (endpoint : string) (base_params params : dict)
    (e : event) : Prop :=
  match e with
  | EvDerive => True
  | EvAttempt ep _ => ep = endpoint
  | EvRequest ep merged _ =>
      ep = endpoint
      /\ exists ms_token, merged = merge_params endpoint base_params params ms_token
  | _ => False
  end.

(** The client of [DOM.py] has a Chrome that is running. *)
Definition dom_started (p : DOM.Pyktok) : bool :=
  match DOM._driver p with
  | Some (Some _) => true
  | _ => false
  end.

(** What is left of a call of [DOM.py] that makes sure of its driver and
    then reads a name that is bound nowhere. *)
Definition dom_name_error {A} : DOM.Call A :=
  DOM.bind DOM._ensure_driver (fun _ => DOM.raises DOM.NameError).

(** * The merge with the file on disk *)

Section FramesFacts.
Context `{External}.

Lemma dict_get_set_eq (d : dict) k v : dict_get (dict_set d k v) k = Some v.
Proof.
  induction d as [|[k' v'] d IH]; simpl.
  - by rewrite String.eqb_refl.
  - destruct (String.eqb_spec k' k) as [->|Hne]; simpl.
    + by rewrite String.eqb_refl.
    + destruct (String.eqb_spec k' k); [done|exact IH].
Qed.

(** After the coercion the key of a row is a text, and it is the text
    [astype(str)] made of the cell. *)
Lemma key_str_coerced key (r : row) :
  key_str key (dict_set r key (JStr (key_str key r))) = key_str key r.
Proof. unfold key_str at 1. by rewrite dict_get_set_eq. Qed.

End FramesFacts.

(** C2.  [_deduplicate] at a key with leading zeros.  The file holds the
    one row of key 007 and the new rows are the one row of key 007:
    [pd.read_csv] reads the column of the file as integers, so the row of
    the file gets the key 7 under [astype(str)], the new row keeps 007, and
    both rows are returned where the claim has one row, the one of the
    file.  With the key 7 on both sides the row of the file is the one
    kept.  The scenario of the claim gives its three rows when there is no
    file at the path; on the empty file that a helper leaves when it found
    nothing, [_deduplicate] raises at [pd.read_csv]. *)
Theorem deduplicate_keeps_a_reparsed_key_twice :
  _deduplicate (H := pandas) {["videos.csv" := video_id_file ["007"]]} "videos.csv"
    (DataFrame (H := pandas) [video_id_row "007"]) "video_id"
  = Ret (mkFrame ["video_id"] [video_id_row "7"; video_id_row "007"])
  /\ _deduplicate (H := pandas) {["videos.csv" := video_id_file ["7"]]} "videos.csv"
       (DataFrame (H := pandas) [video_id_row "7"]) "video_id"
     = Ret (mkFrame ["video_id"] [video_id_row "7"])
  /\ merged_twice (H := pandas) ∅ "videos.csv" [video_id_row "1"; video_id_row "2"]
       [video_id_row "2"; video_id_row "3"] "video_id"
     = Some (video_id_file ["1"; "2"; "3"])
  /\ _deduplicate (H := pandas) {["videos.csv" := mkCsv [] []]} "videos.csv"
       (DataFrame (H := pandas) [video_id_row "1"; video_id_row "2"]) "video_id"
     = Raise PandasError.
Proof. repeat split; vm_compute; reflexivity. Qed.

(** C3.  Merging and writing the same rows twice is not merging and
    writing them once.  A key with leading zeros is written as it is and
    read back as the integer 7, whose text no longer equals the key of the
    same row merged again: one merge leaves one row, two merges leave
    two.  With the key 7 the second merge changes nothing. *)
Theorem mergeAndWrite_twice_keeps_reparsed_key :
  merged_once (H := pandas) ∅ "videos.csv" [video_id_row "007"] "video_id"
  = Some (video_id_file ["007"])
  /\ merged_twice (H := pandas) ∅ "videos.csv" [video_id_row "007"]
       [video_id_row "007"] "video_id"
     = Some (video_id_file ["7"; "007"])
  /\ merged_twice (H := pandas) ∅ "videos.csv" [video_id_row "7"]
       [video_id_row "7"] "video_id"
     = merged_once (H := pandas) ∅ "videos.csv" [video_id_row "7"] "video_id".
Proof. repeat split; vm_compute; reflexivity. Qed.

(** * Running computations *)

Lemma bind_run {S A B} (m : M S A) (f : A -> M S B) (s : S) :
  (m ≫= f) s =
  match m s with
  | (Ret a, s') => f a s'
  | (Raise e, s') => (Raise e, s')
  | (OutOfFuel, s') => (OutOfFuel, s')
  end.
Proof. reflexivity. Qed.

Lemma with_api_run {A} (m : M PyktokAPI A) (w : World) :
  with_api m w = (fst (m (api w)), mkWorld (snd (m (api w))) (disk w)).
Proof. unfold with_api. by destruct (m (api w)). Qed.

Lemma with_driver_run {A} (m : M SeleniumDriverAPI A) (a : PyktokAPI) :
  with_driver m a = (fst (m (_driver a)), mkApi (snd (m (_driver a))) (_last_ok a)).
Proof. unfold with_driver. by destruct (m (_driver a)). Qed.


(** * What the driver records *)

Create HintDb emits.

Section DriverFacts.
Context `{External}.

Lemma n_attempts_app a b : n_attempts (a ++ b) = (n_attempts a + n_attempts b)%nat.
Proof. unfold n_attempts. by rewrite List.filter_app, length_app. Qed.

Lemma emits_weaken {A} n n' (Q Q' : event -> Prop) (m : M SeleniumDriverAPI A) :
  emits n Q m -> (n <= n')%nat -> (forall e, Q e -> Q' e) -> emits n' Q' m.
Proof.
  intros Hm Hn HQ d. destruct (Hm d) as (evs & Ht & Hall & Hc & Hf).
  exists evs. repeat split; [done| |lia|done]. eapply Forall_impl; eauto.
Qed.

(** A computation that leaves the record alone. *)
Lemma emits_silent {A} Q (m : M SeleniumDriverAPI A) :
  (forall d, trace (snd (m d)) = trace d /\ fst (m d) <> OutOfFuel) -> emits 0 Q m.
Proof.
  intros Hm d. destruct (Hm d) as [Ht Hf]. exists []. rewrite app_nil_r.
  repeat split; [done|constructor|done|done].
Qed.

Lemma emits_ret {A} Q (a : A) : emits 0 Q (mret a).
Proof. by apply emits_silent. Qed.

Lemma emits_raise {A} Q e : emits 0 Q (raise e : M SeleniumDriverAPI A).
Proof. by apply emits_silent. Qed.

Lemma emits_bind {A B} n1 n2 Q (m : M SeleniumDriverAPI A) (f : A -> M SeleniumDriverAPI B) :
  emits n1 Q m -> (forall a, emits n2 Q (f a)) -> emits (n1 + n2) Q (m ≫= f).
Proof.
  intros Hm Hf d. rewrite bind_run. destruct (Hm d) as (e1 & Ht1 & Hall1 & Hc1 & Hf1).
  destruct (m d) as [[a|e|] d1]; simpl in *.
  - destruct (Hf a d1) as (e2 & Ht2 & Hall2 & Hc2 & Hf2). exists (e1 ++ e2).
    rewrite Ht2, Ht1, app_assoc. repeat split; [by apply Forall_app| |done].
    rewrite n_attempts_app. lia.
  - exists e1. repeat split; [done..|lia|done].
  - done.
Qed.

Lemma emits_try {A} n1 n2 Q (m : M SeleniumDriverAPI A) (h : exn -> M SeleniumDriverAPI A) :
  emits n1 Q m -> (forall e, emits n2 Q (h e)) -> emits (n1 + n2) Q (try_except m h).
Proof.
  intros Hm Hh d. unfold try_except. destruct (Hm d) as (e1 & Ht1 & Hall1 & Hc1 & Hf1).
  destruct (m d) as [[a|e|] d1]; simpl in *.
  - exists e1. repeat split; [done..|lia|done].
  - destruct (Hh e d1) as (e2 & Ht2 & Hall2 & Hc2 & Hf2). exists (e1 ++ e2).
    rewrite Ht2, Ht1, app_assoc. repeat split; [by apply Forall_app| |done].
    rewrite n_attempts_app. lia.
  - done.
Qed.

Lemma emits_log (Q : event -> Prop) e :
  Q e -> emits (if is_attempt e then 1 else 0) Q (log e).
Proof.
  intros HQ d. exists [e]. repeat split; [by constructor| |done].
  unfold n_attempts. simpl. destruct (is_attempt e); simpl; lia.
Qed.

Lemma emits_execute_script Q : emits 0 Q execute_script.
Proof.
  apply emits_silent. intros d. unfold execute_script.
  by destruct (script_tape d) as [|[|v] rest].
Qed.

Lemma emits_driver_get Q : emits 0 Q driver_get.
Proof.
  apply emits_silent. intros d. unfold driver_get.
  by destruct (nav_tape d) as [|[|] rest].
Qed.

Lemma emits_get_cookies Q : emits 0 Q get_cookies.
Proof.
  apply emits_silent. intros d. unfold get_cookies.
  by destruct (cookie_tape d) as [|[cs|] rest].
Qed.

Lemma emits_execute_async_script Q : emits 0 Q execute_async_script.
Proof.
  apply emits_silent. intros d. unfold execute_async_script.
  by destruct (async_tape d) as [|[| |s b| |b] rest].
Qed.

Lemma emits_randint Q lo : emits 0 Q (randint lo).
Proof.
  apply emits_silent. intros d. unfold randint.
  by destruct (random_tape d) as [|n rest].
Qed.

Lemma emits_set_session_params Q p : emits 0 Q (set_session_params p).
Proof. by apply emits_silent. Qed.

Lemma emits_get_session_params Q : emits 0 Q get_session_params.
Proof. by apply emits_silent. Qed.

(** Along a bind, a [try], and at a leaf. *)
Lemma emits_bind0 {A B} Q (m : M SeleniumDriverAPI A) (f : A -> M SeleniumDriverAPI B) :
  emits 0 Q m -> (forall a, emits 0 Q (f a)) -> emits 0 Q (m ≫= f).
Proof. intros. by apply (emits_bind 0 0). Qed.

Lemma emits_try0 {A} Q (m : M SeleniumDriverAPI A) (h : exn -> M SeleniumDriverAPI A) :
  emits 0 Q m -> (forall e, emits 0 Q (h e)) -> emits 0 Q (try_except m h).
Proof. intros. by apply (emits_try 0 0). Qed.

Lemma emits_go Q : emits 0 Q go.
Proof. apply emits_driver_get. Qed.

Lemma emits_try_pass Q (m : M SeleniumDriverAPI unit) : emits 0 Q m -> emits 0 Q (try_pass m).
Proof. intros. apply emits_try0; [done|]. intros. apply emits_ret. Qed.

Lemma emits_js Q default : emits 0 Q (_js default).
Proof.
  apply emits_try0; [|intros; apply emits_ret].
  apply emits_bind0; [apply emits_execute_script|intros; apply emits_ret].
Qed.

Lemma emits_ensure ep params :
  emits 0 (inner_event ep params) _ensure_hidden_api_session_params.
Proof.
  unfold _ensure_hidden_api_session_params.
  apply emits_bind0; [apply emits_get_session_params|]. intros [p|]; [apply emits_ret|].
  repeat (apply emits_bind0; [first [apply emits_js|apply emits_randint]|intros ?]).
  apply emits_bind0; [apply emits_set_session_params|intros _].
  apply emits_bind0; [by apply (emits_log (inner_event ep params) EvDerive)|intros _].
  apply emits_ret.
Qed.

Lemma emits_wait_acrawler Q n : emits 0 Q (wait_acrawler n).
Proof.
  induction n as [|n IH]; simpl; [apply emits_ret|].
  apply emits_bind0.
  - apply emits_try0; [|intros; apply emits_ret].
    apply emits_bind0; [apply emits_execute_script|intros; apply emits_ret].
  - intros [|]; [apply emits_ret|]. apply emits_bind0; [apply emits_go|done].
Qed.

Lemma emits_get_ms_token Q : emits 0 Q get_ms_token.
Proof. apply emits_bind0; [apply emits_get_cookies|intros; apply emits_ret]. Qed.

Lemma emits_do_fetch Q : emits 0 Q _do_fetch.
Proof.
  apply emits_bind0; [apply emits_execute_async_script|].
  intros [| |s b| |b]; first [apply emits_ret|apply emits_raise].
Qed.

Lemma emits_fetch_attempt ep base params attempt :
  emits 0 (inner_event ep params) (fetch_attempt ep base params attempt).
Proof.
  unfold fetch_attempt. apply emits_try0; [|intros; apply emits_ret].
  apply emits_bind0; [apply emits_get_ms_token|intros token].
  cbv zeta.
  apply emits_bind0.
  { apply emits_try0; [|intros; apply emits_ret].
    apply emits_bind0; [apply emits_execute_script|intros; apply emits_ret]. }
  intros x_bogus.
  apply emits_bind0; [apply (emits_log (inner_event ep params) (EvRequest ep _ _)); simpl; eauto|intros _].
  apply emits_bind0; [apply emits_do_fetch|intros [status b]].
  destruct (body_len b <? 10)%nat.
  - destruct (Z.ltb attempt max_retries); [|apply emits_ret].
    apply emits_bind0; [apply emits_try_pass, emits_go|intros; apply emits_ret].
  - destruct (body_json b) as [[| | | | |data]|]; try apply emits_raise.
    destruct (_ || _); [apply emits_ret|].
    destruct (_ && _); apply emits_ret.
Qed.

Lemma emits_fetch_attempts n ep base params : forall attempt,
  emits n (inner_event ep params) (fetch_attempts n ep base params attempt).
Proof.
  induction n as [|n IH]; intros attempt; simpl; [apply emits_ret|].
  apply (emits_bind 1 n); [by apply (emits_log (inner_event ep params) (EvAttempt ep attempt))|].
  intros _. apply (emits_bind 0 n); [apply emits_fetch_attempt|].
  intros [|r]; [apply IH|]. eapply emits_weaken; [apply emits_ret|lia|done].
Qed.

(** The retry loop absorbs every exception. *)
Lemma returns_fetch_attempt ep base params attempt :
  returns (fetch_attempt ep base params attempt).
Proof.
  intros d. unfold fetch_attempt, try_except.
  destruct (emits_fetch_attempt ep base params attempt d) as (_ & _ & _ & _ & Hf).
  unfold fetch_attempt, try_except in Hf.
  match goal with |- context [?m d] => destruct (m d) as [[s|e|] d1] end;
    simpl in *; eauto. done.
Qed.

Lemma returns_fetch_attempts n ep base params : forall attempt,
  returns (fetch_attempts n ep base params attempt).
Proof.
  induction n as [|n IH]; intros attempt d; simpl; [by eexists|].
  rewrite bind_run. cbn [log]. rewrite bind_run.
  match goal with |- context [fetch_attempt ep base params attempt ?d1] =>
    destruct (returns_fetch_attempt ep base params attempt d1) as [s Hs];
    destruct (fetch_attempt ep base params attempt d1) as [r d2] end.
  simpl in Hs. subst r. destruct s as [|r]; [apply IH|by eexists].
Qed.

End DriverFacts.

(** * One call of [fetch_api] *)

Section FetchFacts.
Context `{External}.

Lemma fetch_api_spec ep params d :
  exists inner,
    Forall (inner_event ep params) inner
    /\ (n_attempts inner <= 5)%nat
    /\ trace (snd (fetch_api ep params d))
       = trace d ++ fetch_record ep params inner (fst (fetch_api ep params d))
    /\ fst (fetch_api ep params d) <> OutOfFuel
    /\ (forall e, fst (fetch_api ep params d) = Raise e -> n_attempts inner = O).
Proof.
  unfold fetch_api, fetch_record. rewrite bind_run. cbn [log].
  set (d0 := mkDriver _ _ _ _ _ _ (trace d ++ [EvCall ep params])).
  assert (Ht0 : trace d0 = trace d ++ [EvCall ep params]) by done.
  clearbody d0.
  destruct (endpoint_path HIDDEN_API_ENDPOINTS ep) as [path|].
  2:{ exists []. cbn [raise fst snd]. rewrite Ht0.
      split; [constructor|]. split; [unfold n_attempts; simpl; lia|].
      split; [reflexivity|]. split; [discriminate|intros; reflexivity]. }
  rewrite bind_run.
  destruct (emits_ensure ep params d0) as (e1 & Ht1 & Hall1 & Hc1 & Hf1).
  destruct (_ensure_hidden_api_session_params d0) as [[base|e|] d1];
    cbn [fst snd] in *; [| |done].
  2:{ exists e1. rewrite Ht1, Ht0, <- ?app_assoc, ?app_nil_r.
      split; [assumption|]. split; [lia|]. split; [reflexivity|].
      split; [discriminate|intros; lia]. }
  rewrite bind_run.
  destruct (emits_wait_acrawler (inner_event ep params) max_sign_attempts d1)
    as (e2 & Ht2 & Hall2 & Hc2 & Hf2).
  destruct (wait_acrawler max_sign_attempts d1) as [[ready|e|] d2];
    cbn [fst snd] in *; [| |done].
  2:{ exists (e1 ++ e2). rewrite Ht2, Ht1, Ht0, <- ?app_assoc, ?app_nil_r, n_attempts_app.
      split; [apply Forall_app; split; assumption|].
      split; [lia|]. split; [reflexivity|]. split; [discriminate|intros; lia]. }
  rewrite bind_run. destruct ready.
  - destruct (emits_fetch_attempts (Z.to_nat max_retries) ep base params 1 d2)
      as (e3 & Ht3 & Hall3 & Hc3 & Hf3).
    destruct (returns_fetch_attempts (Z.to_nat max_retries) ep base params 1 d2) as [r Hr].
    destruct (fetch_attempts _ _ _ _ _ d2) as [r' d3]. cbn [fst snd] in *. subst r'.
    exists (e1 ++ e2 ++ e3). rewrite bind_run. cbn [log]. unfold mret, M_ret. cbn [fst snd trace].
    rewrite Ht3, Ht2, Ht1, Ht0, <- ?app_assoc.
    rewrite !n_attempts_app. change (Z.to_nat max_retries) with 5%nat in Hc3.
    split; [apply Forall_app; split; [exact Hall1|apply Forall_app; split; assumption]|].
    split; [lia|]. split; [reflexivity|]. split; [discriminate|intros; discriminate].
  - exists (e1 ++ e2). unfold mret at 1, M_ret at 1. rewrite bind_run. cbn [log]. unfold mret, M_ret. cbn [fst snd trace].
    rewrite Ht2, Ht1, Ht0, <- ?app_assoc.
    rewrite n_attempts_app.
    split; [apply Forall_app; split; assumption|].
    split; [lia|]. split; [reflexivity|]. split; [discriminate|intros; discriminate].
Qed.

End FetchFacts.

(** * The parameters of the requests *)

Section RequestFacts.
Context `{External}.

Lemma request_is_inner ep base params e :
  request_event ep base params e -> inner_event ep params e.
Proof. destruct e; simpl; try done. intros [-> [t ->]]. split; [done|]. by exists base, t. Qed.

Lemma emits_ensure_over Q : Q EvDerive -> emits 0 Q _ensure_hidden_api_session_params.
Proof.
  intros HQ. unfold _ensure_hidden_api_session_params.
  apply emits_bind0; [apply emits_get_session_params|]. intros [p|]; [apply emits_ret|].
  repeat (apply emits_bind0; [first [apply emits_js|apply emits_randint]|intros ?]).
  apply emits_bind0; [apply emits_set_session_params|intros _].
  apply emits_bind0; [by apply (emits_log Q EvDerive)|intros _].
  apply emits_ret.
Qed.

Lemma emits_fetch_attempt_over ep base params attempt :
  emits 0 (request_event ep base params) (fetch_attempt ep base params attempt).
Proof.
  unfold fetch_attempt. apply emits_try0; [|intros; apply emits_ret].
  apply emits_bind0; [apply emits_get_ms_token|intros token].
  cbv zeta.
  apply emits_bind0.
  { apply emits_try0; [|intros; apply emits_ret].
    apply emits_bind0; [apply emits_execute_script|intros; apply emits_ret]. }
  intros x_bogus.
  apply emits_bind0;
    [apply (emits_log (request_event ep base params) (EvRequest ep _ _)); simpl; eauto|intros _].
  apply emits_bind0; [apply emits_do_fetch|intros [status b]].
  destruct (body_len b <? 10)%nat.
  - destruct (Z.ltb attempt max_retries); [|apply emits_ret].
    apply emits_bind0; [apply emits_try_pass, emits_go|intros; apply emits_ret].
  - destruct (body_json b) as [[| | | | |data]|]; try apply emits_raise.
    destruct (_ || _); [apply emits_ret|].
    destruct (_ && _); apply emits_ret.
Qed.

Lemma emits_fetch_attempts_over n ep base params : forall attempt,
  emits n (request_event ep base params) (fetch_attempts n ep base params attempt).
Proof.
  induction n as [|n IH]; intros attempt; simpl; [apply emits_ret|].
  apply (emits_bind 1 n);
    [by apply (emits_log (request_event ep base params) (EvAttempt ep attempt))|].
  intros _. apply (emits_bind 0 n); [apply emits_fetch_attempt_over|].
  intros [|r]; [apply IH|]. eapply emits_weaken; [apply emits_ret|lia|done].
Qed.

(** The requests of one call are all merged over the session parameters
    that [_ensure_hidden_api_session_params] gave at its start. *)
Lemma fetch_api_requests ep params d :
  let d0 := snd (log (EvCall ep params) d) in
  exists inner,
    trace (snd (fetch_api ep params d))
    = trace d ++ fetch_record ep params inner (fst (fetch_api ep params d))
    /\ (n_attempts inner <= 5)%nat
    /\ fst (fetch_api ep params d) <> OutOfFuel
    /\ forall base, fst (_ensure_hidden_api_session_params d0) = Ret base ->
         Forall (request_event ep base params) inner.
Proof.
  intros d0'. subst d0'. unfold fetch_api, fetch_record. rewrite bind_run. cbn [log fst snd].
  set (d0 := mkDriver _ _ _ _ _ _ (trace d ++ [EvCall ep params])).
  assert (Ht0 : trace d0 = trace d ++ [EvCall ep params]) by done.
  clearbody d0.
  destruct (endpoint_path HIDDEN_API_ENDPOINTS ep) as [path|].
  2:{ exists []. cbn [raise fst snd]. rewrite Ht0.
      split; [reflexivity|]. split; [unfold n_attempts; simpl; lia|].
      split; [discriminate|]. intros; constructor. }
  rewrite bind_run.
  destruct (_ensure_hidden_api_session_params d0) as [[base|e|] d1] eqn:Hens.
  2:{ destruct (emits_ensure_over (inner_event ep params) I d0) as (e1 & Ht1 & Hall1 & Hc1 & Hf1).
      rewrite Hens in *. cbn [fst snd] in *.
      exists e1. rewrite Ht1, Ht0, <- ?app_assoc, ?app_nil_r.
      split; [reflexivity|]. split; [lia|]. split; [discriminate|]. intros b. discriminate. }
  2:{ destruct (emits_ensure_over (inner_event ep params) I d0) as (e1 & _ & _ & _ & Hf1).
      rewrite Hens in Hf1. by cbn [fst] in Hf1. }
  destruct (emits_ensure_over (request_event ep base params) I d0)
    as (e1 & Ht1 & Hall1 & Hc1 & Hf1).
  rewrite Hens in *. cbn [fst snd] in *.
  rewrite bind_run.
  destruct (emits_wait_acrawler (request_event ep base params) max_sign_attempts d1)
    as (e2 & Ht2 & Hall2 & Hc2 & Hf2).
  destruct (wait_acrawler max_sign_attempts d1) as [[ready|e|] d2];
    cbn [fst snd] in *; [| |done].
  2:{ exists (e1 ++ e2). rewrite Ht2, Ht1, Ht0, <- ?app_assoc, ?app_nil_r, n_attempts_app.
      split; [reflexivity|]. split; [lia|]. split; [discriminate|].
      intros b [= <-]. apply Forall_app; split; assumption. }
  rewrite bind_run. destruct ready.
  - destruct (emits_fetch_attempts_over (Z.to_nat max_retries) ep base params 1 d2)
      as (e3 & Ht3 & Hall3 & Hc3 & Hf3).
    destruct (returns_fetch_attempts (Z.to_nat max_retries) ep base params 1 d2) as [r Hr].
    destruct (fetch_attempts _ _ _ _ _ d2) as [r' d3]. cbn [fst snd] in *. subst r'.
    exists (e1 ++ e2 ++ e3). rewrite bind_run. cbn [log]. unfold mret, M_ret.
    cbn [fst snd trace].
    rewrite Ht3, Ht2, Ht1, Ht0, <- ?app_assoc.
    rewrite !n_attempts_app. change (Z.to_nat max_retries) with 5%nat in Hc3.
    split; [reflexivity|]. split; [lia|]. split; [discriminate|].
    intros b [= <-].
    apply Forall_app; split; [exact Hall1|apply Forall_app; split; assumption].
  - exists (e1 ++ e2). unfold mret at 1, M_ret at 1. rewrite bind_run. cbn [log].
    unfold mret, M_ret. cbn [fst snd trace].
    rewrite Ht2, Ht1, Ht0, <- ?app_assoc.
    rewrite n_attempts_app.
    split; [reflexivity|]. split; [lia|]. split; [discriminate|].
    intros b [= <-]. apply Forall_app; split; assumption.
Qed.

End RequestFacts.

(** * The helpers when there is nothing to save *)

Section SaveNothing.
Context `{External}.

Lemma cached_fallback_nothing key count (a : PyktokAPI) :
  _last_ok a !! key = None -> cached_fallback key [] count a = (Ret [], a).
Proof.
  intros Hnone. unfold cached_fallback. rewrite bind_run. unfold _cache_get.
  by rewrite Hnone.
Qed.

(** [pd.DataFrame().to_csv(filename, index=False); return filename] *)
Lemma save_nothing_run filename (w : World) :
  save_nothing filename w
  = if can_write filename
    then (Ret filename, mkWorld (api w) (<[filename := mkCsv [] []]> (disk w)))
    else (Raise OSError, w).
Proof. unfold save_nothing, to_csv. by destruct (can_write filename). Qed.

(** The shape all helpers share: fetch, fall back on the cache, then save. *)
Lemma save_nothing_after (fetch : M PyktokAPI (list json)) key count filename
    (rest : list json -> M World string) (w : World) :
  fst (fetch (api w)) = Ret [] ->
  _last_ok (snd (fetch (api w))) !! key = None ->
  rest [] = save_nothing filename ->
  (videos ← with_api fetch; videos ← with_api (cached_fallback key videos count);
   rest videos) w
  = if can_write filename
    then (Ret filename,
          mkWorld (snd (fetch (api w))) (<[filename := mkCsv [] []]> (disk w)))
    else (Raise OSError, mkWorld (snd (fetch (api w))) (disk w)).
Proof.
  intros Hfetch Hcache Hrest. rewrite bind_run, with_api_run, Hfetch.
  rewrite bind_run, with_api_run. cbn [api disk].
  rewrite (cached_fallback_nothing key count _ Hcache). cbn [fst snd].
  by rewrite Hrest, save_nothing_run.
Qed.

End SaveNothing.

(** When the fetch of a [save_*_csv] helper returns no items and the
    cache holds no entry under the helper's key, the helper writes
    [pd.DataFrame()] to the target path.  Where the path can be written it
    returns the file name and leaves a file without columns or lines
    there, whatever the path held before: rows persisted there earlier are
    gone.  Where it cannot, the [OSError] of [to_csv] comes out of the
    helper and the files are as they were.  (The helpers are those built on
    [_deduplicate] whose fetch is part of the embedding.) *)
Theorem save_csv_without_items_overwrites `{External} (fuel : nat) (count : Z)
    (filename : option string) (w : World) :
  (forall username,
      let fetched := get_user_videos fuel username count (api w) in
      let path := filename_or filename "user_videos" username in
      fst fetched = Ret [] ->
      _last_ok (snd fetched) !! ("user_videos:" +:+ norm_username username) = None ->
      save_user_videos_csv fuel username count filename w
      = if can_write path
        then (Ret path, mkWorld (snd fetched) (<[path := mkCsv [] []]> (disk w)))
        else (Raise OSError, mkWorld (snd fetched) (disk w)))
  /\ (forall hashtag,
      let fetched := get_hashtag_videos fuel hashtag count (api w) in
      let path := filename_or filename "hashtag_videos" hashtag in
      fst fetched = Ret [] ->
      _last_ok (snd fetched) !! ("hashtag_videos:" +:+ norm_hashtag hashtag) = None ->
      save_hashtag_videos_csv fuel hashtag count filename w
      = if can_write path
        then (Ret path, mkWorld (snd fetched) (<[path := mkCsv [] []]> (disk w)))
        else (Raise OSError, mkWorld (snd fetched) (disk w)))
  /\ (forall video_id,
      let fetched := get_video_comments fuel video_id count (api w) in
      let path := filename_or filename "video_comments" video_id in
      fst fetched = Ret [] ->
      _last_ok (snd fetched) !! ("video_comments:" +:+ extract_vid video_id) = None ->
      save_video_comments_csv fuel video_id count filename w
      = if can_write path
        then (Ret path, mkWorld (snd fetched) (<[path := mkCsv [] []]> (disk w)))
        else (Raise OSError, mkWorld (snd fetched) (disk w)))
  /\ (forall sound_id,
      let fetched := get_sound_videos fuel sound_id count (api w) in
      let path := filename_or filename "sound_videos" sound_id in
      fst fetched = Ret [] ->
      _last_ok (snd fetched) !! ("sound_videos:" +:+ sound_id) = None ->
      save_sound_videos_csv fuel sound_id count filename w
      = if can_write path
        then (Ret path, mkWorld (snd fetched) (<[path := mkCsv [] []]> (disk w)))
        else (Raise OSError, mkWorld (snd fetched) (disk w)))
  /\ (forall playlist_id,
      let fetched := get_playlist_videos fuel playlist_id count (api w) in
      let path := filename_or filename "playlist_videos" playlist_id in
      fst fetched = Ret [] ->
      _last_ok (snd fetched) !! ("playlist_videos:" +:+ playlist_id) = None ->
      save_playlist_videos_csv fuel playlist_id count filename w
      = if can_write path
        then (Ret path, mkWorld (snd fetched) (<[path := mkCsv [] []]> (disk w)))
        else (Raise OSError, mkWorld (snd fetched) (disk w)))
  /\ (forall keyword,
      let fetched := search_videos fuel keyword count (api w) in
      let path := filename_or filename "search_videos" keyword in
      fst fetched = Ret [] ->
      _last_ok (snd fetched) !! ("search_videos:" +:+ keyword) = None ->
      save_search_videos_csv fuel keyword count filename w
      = if can_write path
        then (Ret path, mkWorld (snd fetched) (<[path := mkCsv [] []]> (disk w)))
        else (Raise OSError, mkWorld (snd fetched) (disk w))).
Proof.
  repeat split; intros x fetched path Hfetch Hcache;
    apply (save_nothing_after _ _ _ _ _ _ Hfetch Hcache); reflexivity.
Qed.

(** A browser on which the signing capability never appears: the user
    detail cannot be fetched, no videos come back, nothing is cached, and
    the two rows the file held are replaced by the empty file. *)
Lemma save_csv_without_items_witness :
  let w := mkWorld (client (browser (JBool false) []))
             {["@bob.csv" := mkCsv ["video_id"] [["1"]; ["2"]]]} in
  save_user_videos_csv (H := pandas) 5 "@bob" 30 None w
  = if can_write (External := pandas) "@bob.csv"
    then (Ret "@bob.csv",
          mkWorld (snd (get_user_videos (H := pandas) 5 "@bob" 30 (api w)))
            (<["@bob.csv" := mkCsv [] []]> (disk w)))
    else (Raise OSError,
          mkWorld (snd (get_user_videos (H := pandas) 5 "@bob" 30 (api w))) (disk w)).
Proof.
  intros w.
  apply (proj1 (save_csv_without_items_overwrites (H := pandas) 5 30 None w) "@bob").
  - vm_compute; reflexivity.
  - vm_compute; reflexivity.
Defined.

(** * What [fetch_api] can raise *)

Section FetchErrors.
Context `{External}.

Lemma returns_bind {S A B} (m : M S A) (f : A -> M S B) :
  returns m -> (forall a, returns (f a)) -> returns (m ≫= f).
Proof.
  intros Hm Hf s. rewrite bind_run. destruct (Hm s) as [a Ha].
  destruct (m s) as [r s1]. simpl in Ha. subst r. apply Hf.
Qed.

Lemma returns_ret {S A} (a : A) : returns (mret a : M S A).
Proof. intros s. by exists a. Qed.

Lemma returns_js default : returns (_js default).
Proof.
  intros d. unfold _js, try_except. rewrite bind_run. unfold execute_script.
  destruct (script_tape d) as [|[|v] rest]; simpl; eauto.
Qed.

Lemma returns_randint lo : returns (randint lo).
Proof. intros d. unfold randint. destruct (random_tape d); simpl; eauto. Qed.

Lemma returns_ensure : returns _ensure_hidden_api_session_params.
Proof.
  unfold _ensure_hidden_api_session_params.
  apply returns_bind; [intros d; by eexists|]. intros [p|]; [apply returns_ret|].
  repeat (apply returns_bind; [first [apply returns_js|apply returns_randint]|intros ?]).
  apply returns_bind; [intros d; by eexists|intros _].
  apply returns_bind; [intros d; by eexists|intros _]. apply returns_ret.
Qed.

(** The only exception that leaves the wait for the signing capability is
    the one [self.go] lets through. *)
Lemma wait_acrawler_raise n : forall d e,
  fst (wait_acrawler n d) = Raise e -> e = WebDriverException.
Proof.
  induction n as [|n IH]; intros d e; simpl; [done|].
  rewrite bind_run. unfold try_except. rewrite bind_run. unfold execute_script.
  destruct (script_tape d) as [|[|v] rest]; simpl.
  - rewrite bind_run. unfold go, driver_get. simpl.
    destruct (nav_tape d) as [|[|] nrest]; simpl; [congruence|apply IH|congruence].
  - rewrite bind_run. unfold go, driver_get. simpl.
    destruct (nav_tape d) as [|[|] nrest]; simpl; [congruence|apply IH|congruence].
  - destruct (py_truthy v); simpl; [done|].
    rewrite bind_run. unfold go, driver_get. simpl.
    destruct (nav_tape d) as [|[|] nrest]; simpl; [congruence|apply IH|congruence].
Qed.

(** [fetch_api] raises in two cases only: the endpoint key is not in the
    table, or a warm-up navigation fails while it waits for the signing
    capability. *)
Lemma fetch_api_raise_cases ep params d e :
  fst (fetch_api ep params d) = Raise e ->
  (endpoint_path HIDDEN_API_ENDPOINTS ep = None /\ e = KeyError)
  \/ (exists path, endpoint_path HIDDEN_API_ENDPOINTS ep = Some path)
     /\ e = WebDriverException.
Proof.
  unfold fetch_api. rewrite bind_run. cbn [log].
  destruct (endpoint_path HIDDEN_API_ENDPOINTS ep) as [path|]; [|intros [= <-]; by left].
  intros Hr. right. split; [by eexists|]. revert Hr. rewrite bind_run.
  match goal with |- context [_ensure_hidden_api_session_params ?d0] =>
    destruct (returns_ensure d0) as [base Hb];
    destruct (_ensure_hidden_api_session_params d0) as [r d1] end.
  simpl in Hb. subst r. rewrite bind_run.
  destruct (wait_acrawler max_sign_attempts d1) as [[ready|e'|] d2] eqn:Hw.
  - rewrite bind_run. destruct ready.
    + destruct (returns_fetch_attempts (Z.to_nat max_retries) ep base params 1 d2) as [r Hr].
      destruct (fetch_attempts _ _ _ _ _ d2) as [r' d3]. simpl in Hr. subst r'. done.
    + done.
  - intros [= <-]. eapply wait_acrawler_raise. by rewrite Hw.
  - done.
Qed.

End FetchErrors.

(** * More about one call of [fetch_api] *)

Section FetchMore.
Context `{External}.

Lemma yields_bind {S A B} (Q : B -> Prop) (m : M S A) (f : A -> M S B) :
  (forall a, yields Q (f a)) -> yields Q (m ≫= f).
Proof.
  intros Hf s b. rewrite bind_run.
  destruct (m s) as [[a|e|] s1]; simpl; [apply Hf|done|done].
Qed.

Lemma yields_try {S A} (Q : A -> Prop) (m : M S A) (h : exn -> M S A) :
  yields Q m -> (forall e, yields Q (h e)) -> yields Q (try_except m h).
Proof.
  intros Hm Hh s a. unfold try_except. specialize (Hm s).
  destruct (m s) as [[a'|e|] s1]; simpl in *; [apply Hm|apply Hh|done].
Qed.

Lemma yields_ret {S A} (Q : A -> Prop) (a : A) : Q a -> yields Q (mret a : M S A).
Proof. intros Ha s a' [= <-]. exact Ha. Qed.

Lemma yields_raise {S A} (Q : A -> Prop) e : yields Q (raise e : M S A).
Proof. intros s a. discriminate. Qed.

Lemma fetch_attempt_accepts ep base params attempt :
  yields (fun s => match s with
                   | Return (Some data) => accepted ep data = true
                   | _ => True
                   end)
    (fetch_attempt ep base params attempt).
Proof.
  unfold fetch_attempt.
  apply yields_try;
    [|intros; apply yields_ret; unfold retry_or_give_up; by destruct (Z.ltb _ _)].
  apply yields_bind; intros token. cbv zeta.
  apply yields_bind; intros x_bogus. apply yields_bind; intros _.
  apply yields_bind; intros [status b].
  destruct (body_len b <? 10)%nat.
  - destruct (Z.ltb attempt max_retries); [|by apply yields_ret].
    apply yields_bind; intros _. by apply yields_ret.
  - destruct (body_json b) as [[| | | | |data]|]; try apply yields_raise.
    fold (accepted ep data). destruct (accepted ep data) eqn:Hacc; [by apply yields_ret|].
    destruct (_ && _); apply yields_ret; [done|].
    unfold retry_or_give_up. by destruct (Z.ltb _ _).
Qed.

Lemma fetch_attempts_accepts n ep base params : forall attempt,
  yields (fun r => match r with Some data => accepted ep data = true | None => True end)
    (fetch_attempts n ep base params attempt).
Proof.
  induction n as [|n IH]; intros attempt; simpl; [by apply yields_ret|].
  apply yields_bind; intros _. intros d r. rewrite bind_run.
  pose proof (fetch_attempt_accepts ep base params attempt d) as Hs.
  destruct (fetch_attempt ep base params attempt d) as [[[|r']|e|] d1];
    simpl in *; [apply IH| |done|done].
  intros [= <-]. by apply (Hs (Return r')).
Qed.

Lemma fetch_api_accepts ep params :
  yields (fun r => match r with Some data => accepted ep data = true | None => True end)
    (fetch_api ep params).
Proof.
  unfold fetch_api. apply yields_bind; intros _.
  destruct (endpoint_path HIDDEN_API_ENDPOINTS ep); [|apply yields_raise].
  apply yields_bind; intros base. apply yields_bind; intros ready.
  intros d r. rewrite bind_run. destruct ready.
  - pose proof (fetch_attempts_accepts (Z.to_nat max_retries) ep base params 1 d) as Hr.
    destruct (fetch_attempts _ _ _ _ _ d) as [[r'|e|] d1]; simpl in *; [|done|done].
    intros [= <-]. by apply Hr.
  - simpl. by intros [= <-].
Qed.

Lemma accepted_nonempty ep data : accepted ep data = true -> data <> [].
Proof.
  intros Hacc ->. unfold accepted in Hacc. simpl in Hacc.
  induction (_expected_keys ep) as [|k ks IH]; simpl in *; done.
Qed.

(** ** The session parameters *)

Lemma py_in_dict_set k k' v : forall d : dict,
  py_in k d = true -> py_in k (dict_set d k' v) = true.
Proof.
  unfold py_in. induction d as [|[k0 v0] d IH]; simpl; [done|].
  destruct (String.eqb k0 k') eqn:E'; simpl; [by destruct (String.eqb k0 k)|].
  destruct (String.eqb k0 k); [done|]. exact IH.
Qed.

Lemma py_in_dict_update k (b : dict) : forall a : dict,
  py_in k a = true -> py_in k (dict_update a b) = true.
Proof.
  unfold dict_update. induction b as [|[k0 v0] b IH]; intros a Ha; simpl; [done|].
  apply IH. by apply py_in_dict_set.
Qed.

Lemma merge_params_with_from_page ep base params tok :
  py_in "from_page" base = true ->
  merge_params ep base params tok
  = dict_set (dict_update base params) "msToken" (JStr tok).
Proof.
  intros Hin. unfold merge_params, dict_setdefault.
  rewrite (py_in_dict_set _ _ _ _ (py_in_dict_update _ params _ Hin)).
  destruct (String.eqb ep "trending"); [done|].
  destruct (String.eqb ep "hashtag_videos"); [done|].
  by destruct (_ || _).
Qed.

Lemma ensure_memoised d p :
  _hidden_api_session_params d = Some p ->
  _ensure_hidden_api_session_params d = (Ret p, d).
Proof.
  intros Hm. unfold _ensure_hidden_api_session_params. rewrite bind_run.
  unfold get_session_params. by rewrite Hm.
Qed.

(** What a derivation leaves: the parameters it returns are the memo, and
    they name the page they come from. *)
Lemma ensure_derives d :
  _hidden_api_session_params d = None ->
  exists p,
    fst (_ensure_hidden_api_session_params d) = Ret p
    /\ _hidden_api_session_params (snd (_ensure_hidden_api_session_params d)) = Some p
    /\ py_in "from_page" p = true.
Proof.
  intros Hm. unfold _ensure_hidden_api_session_params. rewrite bind_run.
  unfold get_session_params. rewrite Hm.
  repeat (rewrite bind_run;
          match goal with |- context [_js ?dflt ?d0] =>
            let v := fresh "v" in let Hv := fresh "Hv" in
            destruct (returns_js dflt d0) as [v Hv];
            destruct (_js dflt d0) as [? ?]; simpl in Hv; subst
          end).
  repeat (rewrite bind_run;
          match goal with |- context [randint ?lo ?d0] =>
            let v := fresh "n" in let Hv := fresh "Hn" in
            destruct (returns_randint lo d0) as [v Hv];
            destruct (randint lo d0) as [? ?]; simpl in Hv; subst
          end).
  eexists. split; [reflexivity|]. split; reflexivity.
Qed.

(** ** The replies a call reads *)

Lemma reads_bind {A B} k1 k2 (m : M SeleniumDriverAPI A) (f : A -> M SeleniumDriverAPI B) :
  reads k1 m -> (forall a, reads k2 (f a)) -> returns m -> reads (k1 + k2) (m ≫= f).
Proof.
  intros Hm Hf Hret d. rewrite bind_run. destruct (Hm d) as (Hs & Hn & Hc & Ha).
  destruct (Hret d) as [a Hr]. destruct (m d) as [r d1]. cbn [fst snd] in *. subst r.
  destruct (Hf a d1) as (Hs' & Hn' & Hc' & Ha').
  rewrite Hs', Hn', Hc', Ha', Hs, Hn, Hc, Ha, drop_drop. done.
Qed.

Lemma reads_js default : reads 1 (_js default).
Proof.
  intros d. unfold _js, try_except. rewrite bind_run. unfold execute_script.
  destruct (script_tape d) as [|[|v] rest] eqn:E; simpl; rewrite ?E; done.
Qed.

Lemma reads_randint lo : reads 0 (randint lo).
Proof. intros d. unfold randint. destruct (random_tape d); simpl; done. Qed.

Lemma ensure_reads d :
  script_tape (snd (_ensure_hidden_api_session_params d)) = polls d
  /\ nav_tape (snd (_ensure_hidden_api_session_params d)) = nav_tape d
  /\ cookie_tape (snd (_ensure_hidden_api_session_params d)) = cookie_tape d
  /\ async_tape (snd (_ensure_hidden_api_session_params d)) = async_tape d.
Proof.
  unfold polls. destruct (_hidden_api_session_params d) as [p|] eqn:Hm.
  { by rewrite (ensure_memoised d p Hm). }
  unfold _ensure_hidden_api_session_params. rewrite bind_run.
  unfold get_session_params. rewrite Hm.
  match goal with |- script_tape (snd (?m d)) = _ /\ _ => cut (reads 6 m) end.
  { intros Hr. apply Hr. }
  apply (reads_bind 1 5); [apply reads_js| |apply returns_js]. intros user_agent.
  apply (reads_bind 1 4); [apply reads_js| |apply returns_js]. intros language.
  apply (reads_bind 1 3); [apply reads_js| |apply returns_js]. intros platform.
  apply (reads_bind 1 2); [apply reads_js| |apply returns_js]. intros tz_name.
  apply (reads_bind 1 1); [apply reads_js| |apply returns_js]. intros screen_height.
  apply (reads_bind 1 0); [apply reads_js| |apply returns_js]. intros screen_width.
  apply (reads_bind 0 0); [apply reads_randint| |apply returns_randint]. intros device_id.
  apply (reads_bind 0 0); [apply reads_randint| |apply returns_randint]. intros history_len.
  intros d0. rewrite !bind_run. done.
Qed.

Lemma wait_acrawler_reads n : forall d,
  cookie_tape (snd (wait_acrawler n d)) = cookie_tape d
  /\ async_tape (snd (wait_acrawler n d)) = async_tape d.
Proof.
  induction n as [|n IH]; intros d; simpl; [done|].
  rewrite bind_run. unfold try_except. rewrite bind_run. unfold execute_script.
  destruct (script_tape d) as [|[|v] rest]; simpl;
    try (destruct (py_truthy v); simpl; [done|]);
    rewrite bind_run; unfold go, driver_get; simpl;
    (destruct (nav_tape d) as [|[|] nrest]; simpl;
     [done|by rewrite (proj1 (IH _)), (proj2 (IH _))|done]).
Qed.

Lemma wait_acrawler_stalls n d :
  poll_fails (script_tape d) = true ->
  navigation_fails (nav_tape d) = true ->
  fst (wait_acrawler (S n) d) = Raise WebDriverException.
Proof.
  intros Hp Hn. simpl. rewrite bind_run. unfold try_except. rewrite bind_run.
  unfold execute_script, poll_fails, navigation_fails in *.
  destruct (script_tape d) as [|[|v] rest]; simpl.
  - rewrite bind_run. unfold go, driver_get. simpl.
    by destruct (nav_tape d) as [|[|] nrest].
  - rewrite bind_run. unfold go, driver_get. simpl.
    by destruct (nav_tape d) as [|[|] nrest].
  - destruct (py_truthy v); [done|]. simpl.
    rewrite bind_run. unfold go, driver_get. simpl.
    by destruct (nav_tape d) as [|[|] nrest].
Qed.

Lemma wait_acrawler_ready n d :
  poll_succeeds (script_tape d) = true ->
  fst (wait_acrawler (S n) d) = Ret true
  /\ trace (snd (wait_acrawler (S n) d)) = trace d.
Proof.
  intros Hp. simpl. rewrite bind_run. unfold try_except. rewrite bind_run.
  unfold execute_script, poll_succeeds in *.
  destruct (script_tape d) as [|[|v] rest]; [done|done|]. simpl.
  by rewrite Hp.
Qed.

(** The first lines of [fetch_api] on a known endpoint key: the state in
    which the wait for the signing capability starts. *)
Lemma fetch_api_prologue ep params d path :
  endpoint_path HIDDEN_API_ENDPOINTS ep = Some path ->
  exists base d1 e1,
    fetch_api ep params d
    = (acrawler_ready ← wait_acrawler max_sign_attempts;
       r ← (if acrawler_ready : bool
            then fetch_attempts (Z.to_nat max_retries) ep base params 1
            else mret None);
       log (EvResult ep r);;
       mret r) d1
    /\ script_tape d1 = polls d /\ nav_tape d1 = nav_tape d
    /\ cookie_tape d1 = cookie_tape d /\ async_tape d1 = async_tape d
    /\ trace d1 = trace d ++ EvCall ep params :: e1
    /\ n_attempts e1 = O.
Proof.
  intros Hpath. unfold fetch_api. rewrite bind_run. cbn [log]. rewrite Hpath.
  set (d0 := mkDriver _ _ _ _ _ _ _).
  rewrite bind_run.
  destruct (returns_ensure d0) as [base Hb].
  destruct (ensure_reads d0) as (Hs & Hn & Hc & Ha).
  destruct (emits_ensure ep params d0) as (e1 & Ht & _ & Hc1 & _).
  destruct (_ensure_hidden_api_session_params d0) as [r d1].
  cbn [fst snd] in *. subst r.
  exists base, d1, e1. split; [reflexivity|].
  repeat split; try done; [..|lia].
  rewrite Ht. subst d0. cbn [trace]. by rewrite <- app_assoc.
Qed.

(** A request that is answered with the permanent block of the hashtag
    listing ends the retry loop, whatever the attempt. *)
Lemma fetch_attempt_blocked base params attempt d data rest :
  cookies_readable (cookie_tape d) = true ->
  answers_with data (async_tape d) rest ->
  py_eq_int (py_get data "statusCode" JNull) 100002 = true ->
  py_in "itemList" data = false ->
  exists merged x_bogus,
    fst (fetch_attempt "hashtag_videos" base params attempt d) = Ret (Return None)
    /\ async_tape (snd (fetch_attempt "hashtag_videos" base params attempt d)) = rest
    /\ trace (snd (fetch_attempt "hashtag_videos" base params attempt d))
       = trace d ++ [EvRequest "hashtag_videos" merged x_bogus].
Proof.
  intros Hck (status & b & Hat & Hlen & Hjson) Hcode Hlist.
  assert (Hzero : py_eq_int (py_get data "statusCode" JNull) 0 = false).
  { destruct (py_get data "statusCode" JNull) as [|[|]|n| | |]; simpl in *; try done.
    apply Z.eqb_eq in Hcode. subst n. done. }
  assert (Hshort : (body_len b <? 10)%nat = false) by (apply Nat.ltb_ge; lia).
  unfold fetch_attempt, try_except, get_ms_token. rewrite !bind_run.
  unfold get_cookies, cookies_readable in *.
  destruct (cookie_tape d) as [|[cs|] crest]; [done| |done].
  cbn [mret M_ret fst snd]. rewrite !bind_run. unfold execute_script. cbn [script_tape].
  destruct (script_tape d) as [|[|v] srest];
    cbn [mret M_ret fst snd]; rewrite !bind_run; cbn [log fst snd];
    rewrite !bind_run; unfold _do_fetch; rewrite !bind_run;
    unfold execute_async_script; cbn [async_tape]; rewrite Hat;
    cbn [mret M_ret fst snd]; rewrite Hshort, Hjson, Hzero;
    cbn [_expected_keys String.eqb Ascii.eqb Bool.eqb existsb orb andb];
    rewrite Hlist, Hcode; cbn [orb andb mret M_ret fst snd async_tape trace];
    eauto.
Qed.

End FetchMore.

(** One call of [fetch_api], whatever the endpoint key, the parameters and
    the browser: it comes to an end; it records the call, then what happens
    inside (derivations of the session parameters, passes of the retry
    loop, requests), then the result it returns, if it returns; the passes
    of the retry loop are at most [max_retries]; and the parameters of
    every request are the caller's merged over the session parameters, that
    is over what [_ensure_hidden_api_session_params] gives once the call is
    recorded (the memo, when there is one). *)
Theorem fetch_api_makes_at_most_five_attempts `{External} (ep : string) (params : dict)
    (d : SeleniumDriverAPI) :
  let run := fetch_api ep params d in
  exists inner base,
    trace (snd run) = trace d ++ fetch_record ep params inner (fst run)
    /\ (n_attempts inner <= Z.to_nat max_retries)%nat
    /\ fst run <> OutOfFuel
    /\ fst (_ensure_hidden_api_session_params (snd (log (EvCall ep params) d))) = Ret base
    /\ (forall p, _hidden_api_session_params d = Some p -> base = p)
    /\ Forall (request_event ep base params) inner.
Proof.
  intros run. subst run.
  destruct (fetch_api_requests ep params d) as (inner & Ht & Hn & Hf & Hreq).
  cbv zeta in Hreq. cbn [log snd] in *.
  set (d0 := mkDriver _ _ _ _ _ _ (trace d ++ [EvCall ep params])) in *.
  assert (Hm : _hidden_api_session_params d0 = _hidden_api_session_params d) by done.
  assert (exists base, fst (_ensure_hidden_api_session_params d0) = Ret base
                       /\ forall p, _hidden_api_session_params d = Some p -> base = p)
    as (base & Hbase & Hmemo).
  { destruct (_hidden_api_session_params d0) as [p0|] eqn:Hm0.
    - exists p0. rewrite (ensure_memoised d0 p0 Hm0). split; [done|].
      intros p Hp. rewrite <- Hm in Hp. by injection Hp.
    - destruct (ensure_derives d0 Hm0) as (p & Hp & _). exists p. split; [exact Hp|].
      intros p' Hp'. rewrite <- Hm in Hp'. discriminate. }
  exists inner, base. split; [exact Ht|]. split; [exact Hn|]. split; [exact Hf|].
  split; [exact Hbase|]. split; [exact Hmemo|]. by apply Hreq.
Qed.

(** When [fetch_api] raises, it is a [KeyError] for an endpoint key that is
    not in the table or a [WebDriverException] on a known key; either way
    it raises before the first pass of the retry loop, and no request has
    been sent. *)
Theorem fetch_api_raises_only_before_the_first_attempt `{External} (ep : string)
    (params : dict) (d : SeleniumDriverAPI) (e : exn) :
  fst (fetch_api ep params d) = Raise e ->
  ((endpoint_path HIDDEN_API_ENDPOINTS ep = None /\ e = KeyError)
   \/ ((exists path, endpoint_path HIDDEN_API_ENDPOINTS ep = Some path)
       /\ e = WebDriverException))
  /\ n_attempts (new_events d (snd (fetch_api ep params d))) = O
  /\ async_tape (snd (fetch_api ep params d)) = async_tape d.
Proof.
  intros Hr. split; [by apply (fetch_api_raise_cases ep params d)|].
  destruct (fetch_api_spec ep params d) as (inner & _ & _ & Ht & _ & Hzero).
  split.
  { unfold new_events. rewrite Ht, drop_app_length, Hr. unfold fetch_record.
    rewrite app_nil_r. change (EvCall ep params :: inner) with ([EvCall ep params] ++ inner).
    rewrite n_attempts_app. by rewrite (Hzero e Hr). }
  destruct (endpoint_path HIDDEN_API_ENDPOINTS ep) as [path|] eqn:Hpath.
  2:{ unfold fetch_api. rewrite bind_run. cbn [log]. by rewrite Hpath. }
  destruct (fetch_api_prologue ep params d path Hpath)
    as (base & d1 & e1 & Hrun & _ & _ & _ & Ha & _ & _).
  rewrite Hrun in Hr |- *. rewrite bind_run in Hr |- *.
  destruct (wait_acrawler_reads max_sign_attempts d1) as [_ Ha2].
  destruct (wait_acrawler max_sign_attempts d1) as [[ready|e'|] d2]; cbn [fst snd] in *.
  - exfalso. rewrite bind_run in Hr. destruct ready.
    + destruct (returns_fetch_attempts (Z.to_nat max_retries) ep base params 1 d2) as [r Hret].
      destruct (fetch_attempts _ _ _ _ _ d2) as [r' d3]. simpl in Hret. subst r'. done.
    + done.
  - congruence.
  - done.
Qed.

Lemma fetch_api_raises_only_witness :
  let run := fetch_api (H := pandas) "user_videos" [("cursor", JNum 0)] stalled_browser in
  ((endpoint_path HIDDEN_API_ENDPOINTS "user_videos" = None /\ WebDriverException = KeyError)
   \/ ((exists path, endpoint_path HIDDEN_API_ENDPOINTS "user_videos" = Some path)
       /\ WebDriverException = WebDriverException))
  /\ n_attempts (new_events stalled_browser (snd run)) = O
  /\ async_tape (snd run) = async_tape stalled_browser.
Proof.
  intros run.
  apply (fetch_api_raises_only_before_the_first_attempt (H := pandas)
           "user_videos" [("cursor", JNum 0)] stalled_browser WebDriverException).
  vm_compute; reflexivity.
Defined.

(** On a known endpoint key, when the first poll does not find the signing
    capability and the warm-up page that is loaded next fails to load,
    [fetch_api] raises [WebDriverException]: the [self.go] of the wait loop
    is outside every [try]. *)
Theorem fetch_api_raises_when_warm_up_navigation_fails `{External} (ep : string)
    (params : dict) (d : SeleniumDriverAPI) (path : string) :
  endpoint_path HIDDEN_API_ENDPOINTS ep = Some path ->
  poll_fails (polls d) = true ->
  navigation_fails (nav_tape d) = true ->
  fst (fetch_api ep params d) = Raise WebDriverException.
Proof.
  intros Hpath Hpoll Hnav.
  destruct (fetch_api_prologue ep params d path Hpath)
    as (base & d1 & e1 & Hrun & Hs & Hn & _).
  rewrite Hrun, bind_run.
  pose proof (wait_acrawler_stalls 4 d1) as Hw.
  rewrite Hs, Hn in Hw. specialize (Hw Hpoll Hnav).
  change (S 4) with max_sign_attempts in Hw.
  destruct (wait_acrawler max_sign_attempts d1) as [r d2]. simpl in Hw. by subst r.
Qed.

Lemma fetch_api_warm_up_witness :
  fst (fetch_api (H := pandas) "user_videos"
         [("secUid", JStr "SEC"); ("count", JNum 35); ("cursor", JNum 0)] stalled_browser)
  = Raise WebDriverException.
Proof.
  apply (fetch_api_raises_when_warm_up_navigation_fails (H := pandas) "user_videos" _
           stalled_browser "/api/post/item_list/"); reflexivity.
Defined.

(** A dict that [fetch_api] returns has passed its acceptance test (a
    [statusCode] equal to 0, or one of the keys expected of the endpoint);
    so it is not empty, and the caller's [if not resp] is the test for
    [None]. *)
Theorem fetch_api_returns_only_accepted_dicts `{External} (ep : string) (params : dict)
    (d : SeleniumDriverAPI) (data : dict) :
  fst (fetch_api ep params d) = Ret (Some data) ->
  accepted ep data = true /\ no_response (Some data) = false.
Proof.
  intros Hr. pose proof (fetch_api_accepts ep params d (Some data) Hr) as Hacc.
  split; [exact Hacc|]. apply accepted_nonempty in Hacc. by destruct data.
Qed.

Lemma fetch_api_accepted_witness :
  accepted "sound_videos" [("itemList", JArr []); ("hasMore", JBool false)] = true
  /\ no_response (Some [("itemList", JArr []); ("hasMore", JBool false)]) = false.
Proof.
  apply (fetch_api_returns_only_accepted_dicts (H := pandas) "sound_videos"
           [("musicID", JStr "7"); ("count", JNum 30); ("cursor", JNum 0)]
           (ready_browser [answer (JObj [("itemList", JArr []); ("hasMore", JBool false)])])).
  vm_compute; reflexivity.
Defined.

(** When the signing capability is there at the first poll, the cookies
    can be read, and the first request of a call on the hashtag listing is
    answered with status code 100002 and no [itemList], [fetch_api] returns
    [None] after that one pass of the retry loop: exactly one request has
    been consumed. *)
Theorem hashtag_block_ends_the_call_at_its_first_attempt `{External} (params : dict)
    (d : SeleniumDriverAPI) (data : dict) (rest : list async_reply) :
  poll_succeeds (polls d) = true ->
  cookies_readable (cookie_tape d) = true ->
  answers_with data (async_tape d) rest ->
  py_eq_int (py_get data "statusCode" JNull) 100002 = true ->
  py_in "itemList" data = false ->
  let run := fetch_api "hashtag_videos" params d in
  fst run = Ret None
  /\ n_attempts (new_events d (snd run)) = 1%nat
  /\ async_tape (snd run) = rest.
Proof.
  intros Hpoll Hck Hans Hcode Hlist run. subst run.
  destruct (fetch_api_prologue "hashtag_videos" params d "/api/challenge/item_list/" eq_refl)
    as (base & d1 & e1 & Hrun & Hs & _ & Hc & Ha & Ht & He1).
  rewrite Hrun, bind_run. rewrite <- Hs in Hpoll.
  destruct (wait_acrawler_ready 4 d1 Hpoll) as [Hw Htw].
  destruct (wait_acrawler_reads (S 4) d1) as [Hcw Haw].
  change (S 4) with max_sign_attempts in *.
  destruct (wait_acrawler max_sign_attempts d1) as [r d2]. cbn [fst snd] in *. subst r.
  rewrite bind_run. change (Z.to_nat max_retries) with 5%nat.
  cbn [fetch_attempts]. rewrite !bind_run. cbn [log fst snd].
  set (d3 := mkDriver _ _ _ _ _ _ (trace d2 ++ [EvAttempt "hashtag_videos" 1])).
  destruct (fetch_attempt_blocked base params 1 d3 data rest)
    as (merged & x & Hf & Haf & Htf);
    [subst d3; cbn [cookie_tape]; by rewrite Hcw, Hc
    |subst d3; cbn [async_tape]; by rewrite Haw, Ha|done..|].
  rewrite bind_run.
  destruct (fetch_attempt "hashtag_videos" base params 1 d3) as [r d4].
  cbn [fst snd] in *. subst r. cbn [mret M_ret fst snd]. rewrite bind_run.
  cbn [log mret M_ret fst snd async_tape trace]. split; [reflexivity|]. split; [|exact Haf].
  unfold new_events. rewrite Htf. subst d3. cbn [trace]. rewrite Htw, Ht.
  rewrite <- !app_assoc, drop_app_length. cbn [app].
  change (EvCall "hashtag_videos" params :: e1 ++ ?l) with ([EvCall "hashtag_videos" params] ++ e1 ++ l).
  rewrite !n_attempts_app, He1. reflexivity.
Qed.

Lemma hashtag_block_witness :
  let run := fetch_api (H := pandas) "hashtag_videos" [("challengeID", JStr "42")]
               (ready_browser [blocked_answer; blocked_answer]) in
  fst run = Ret None
  /\ n_attempts (new_events (ready_browser [blocked_answer; blocked_answer]) (snd run)) = 1%nat
  /\ async_tape (snd run) = [blocked_answer].
Proof.
  apply (hashtag_block_ends_the_call_at_its_first_attempt (H := pandas)
           [("challengeID", JStr "42")] (ready_browser [blocked_answer; blocked_answer])
           [("statusCode", JNum 100002)] [blocked_answer]).
  - reflexivity.
  - reflexivity.
  - exists "200", {| body_len := 100; body_json := Some (JObj [("statusCode", JNum 100002)]) |}.
    split; [reflexivity|]. split; [simpl; lia|reflexivity].
  - reflexivity.
  - reflexivity.
Defined.

(** The session parameters are derived once: a call of
    [_ensure_hidden_api_session_params] returns, what it returns is the
    memo afterwards, a second call right after returns the same parameters
    and changes nothing, and a memo that is already there is returned as it
    is with no reply read and nothing recorded. *)
Theorem session_params_are_derived_once `{External} (d : SeleniumDriverAPI) :
  exists p,
    fst (_ensure_hidden_api_session_params d) = Ret p
    /\ _hidden_api_session_params (snd (_ensure_hidden_api_session_params d)) = Some p
    /\ _ensure_hidden_api_session_params (snd (_ensure_hidden_api_session_params d))
       = (Ret p, snd (_ensure_hidden_api_session_params d))
    /\ (forall p0, _hidden_api_session_params d = Some p0 ->
          p = p0 /\ snd (_ensure_hidden_api_session_params d) = d).
Proof.
  destruct (_hidden_api_session_params d) as [p0|] eqn:Hm.
  - exists p0. rewrite (ensure_memoised d p0 Hm). cbn [fst snd].
    split; [reflexivity|]. split; [exact Hm|]. split; [by apply ensure_memoised|].
    by intros p1 [= <-].
  - destruct (ensure_derives d Hm) as (p & Hp & Hmemo & _). exists p.
    split; [exact Hp|]. split; [exact Hmemo|]. split; [by apply ensure_memoised|].
    intros p0. discriminate.
Qed.

(** Session parameters that were derived carry [from_page]; so the three
    [setdefault("from_page", ...)] of [fetch_api] change nothing, and the
    parameters of a request are the session's, overridden by the caller's
    and by the token, for every endpoint key. *)
Theorem derived_session_params_make_setdefault_idle `{External} (d : SeleniumDriverAPI)
    (ep : string) (params : dict) (ms_token : string) :
  _hidden_api_session_params d = None ->
  match fst (_ensure_hidden_api_session_params d) with
  | Ret base =>
      merge_params ep base params ms_token
      = dict_set (dict_update base params) "msToken" (JStr ms_token)
  | _ => False
  end.
Proof.
  intros Hm. destruct (ensure_derives d Hm) as (p & Hp & _ & Hin).
  rewrite Hp. by apply merge_params_with_from_page.
Qed.

Lemma derived_session_params_witness :
  match fst (_ensure_hidden_api_session_params (H := pandas) stalled_browser) with
  | Ret base =>
      merge_params "hashtag_videos" base [("cursor", JNum 0)] "tok"
      = dict_set (dict_update base [("cursor", JNum 0)]) "msToken" (JStr "tok")
  | _ => False
  end.
Proof.
  apply (derived_session_params_make_setdefault_idle (H := pandas) stalled_browser
           "hashtag_videos" [("cursor", JNum 0)] "tok").
  reflexivity.
Defined.

(** * The listing loops *)

Section ListingFacts.
Context `{External}.

(** ** Slices *)

Lemma py_take_firstn {A} (l : list A) (n : Z) :
  0 <= n -> py_take l n = firstn (Z.to_nat n) l.
Proof. intros Hn. unfold py_take. by rewrite (proj2 (Z.leb_le 0 n) Hn). Qed.

Lemma py_take_nil {A} (n : Z) : py_take (@nil A) n = [].
Proof. unfold py_take. destruct (Z.leb 0 n); by rewrite firstn_nil. Qed.

Lemma firstn_absorb {A} (n : nat) (l more : list A) :
  firstn n (firstn n l ++ more) = firstn n (l ++ more).
Proof.
  destruct (le_lt_dec n (length l)) as [Hle|Hgt].
  - rewrite !take_app_le; [by rewrite take_take, Nat.min_id|done|].
    rewrite length_take. lia.
  - rewrite (take_ge l); [done|lia].
Qed.

(** The loop over the items of a page keeps what fits under [count]. *)
Lemma append_items_spec (videos items : list json) (count : Z) :
  Z.of_nat (length videos) < count ->
  append_items videos items count = firstn (Z.to_nat count) (videos ++ items).
Proof.
  revert videos. induction items as [|x items IH]; intros videos Hlt; simpl.
  - rewrite app_nil_r, take_ge; [done|lia].
  - destruct (Z.leb count (Z.of_nat (length (videos ++ [x])))) eqn:E.
    + apply Z.leb_le in E. rewrite length_app in E. simpl in E.
      replace (Z.to_nat count) with (length (videos ++ [x]))
        by (rewrite length_app; simpl; lia).
      rewrite (cons_middle x videos items), app_assoc. by rewrite take_app_length.
    + apply Z.leb_gt in E. rewrite IH by exact E. by rewrite <- app_assoc.
Qed.

Lemma py_take_append_items (videos items more : list json) (count : Z) :
  Z.of_nat (length videos) < count ->
  py_take (append_items videos items count ++ more) count
  = py_take ((videos ++ items) ++ more) count.
Proof.
  intros Hlt. rewrite append_items_spec by exact Hlt.
  rewrite !py_take_firstn by lia. apply firstn_absorb.
Qed.

(** ** Reading the record of a call *)

Lemma stops_saturated endpoint items verdict count evs : forall have have' open,
  count <= Z.of_nat have -> count <= Z.of_nat have' ->
  stops_when_done endpoint items verdict count have open evs
  = stops_when_done endpoint items verdict count have' open evs.
Proof.
  induction evs as [|e evs IH]; intros have have' open Hh Hh'; [done|].
  destruct e; simpl; try (by apply IH).
  - destruct (String.eqb _ _); [|by apply IH].
    rewrite (proj2 (Z.ltb_ge _ _) Hh), (proj2 (Z.ltb_ge _ _) Hh').
    by rewrite !andb_false_r.
  - destruct (String.eqb _ _); [|by apply IH]. apply IH; lia.
Qed.

Lemma inner_is_own (L : listing) params e :
  inner_event (endpoint_of L) params e -> own_event L e.
Proof. destruct e; simpl; try done. by intros [-> _]. Qed.

Lemma stops_inner endpoint items verdict count have open ep params inner rest :
  Forall (inner_event ep params) inner ->
  stops_when_done endpoint items verdict count have open (inner ++ rest)
  = stops_when_done endpoint items verdict count have open rest.
Proof.
  induction 1 as [|e inner He _ IH]; [done|]. destruct e; simpl in *; done.
Qed.

Lemma taken_inner (L : listing) params inner :
  (forall e, own_event L e -> also_taken L e = []) ->
  Forall (inner_event (endpoint_of L) params) inner ->
  flat_map (taken L) inner = [].
Proof.
  intros Hown. induction 1 as [|e inner He _ IH]; [done|]. simpl. rewrite IH, app_nil_r.
  unfold taken. rewrite (Hown e (inner_is_own L params e He)), app_nil_r.
  destruct e; simpl in *; done.
Qed.

Lemma client_fetch ep params (a : PyktokAPI) :
  exists inner,
    Forall (inner_event ep params) inner
    /\ record (snd (with_driver (fetch_api ep params) a))
       = record a ++ fetch_record ep params inner (fst (with_driver (fetch_api ep params) a))
    /\ _last_ok (snd (with_driver (fetch_api ep params) a)) = _last_ok a
    /\ fst (with_driver (fetch_api ep params) a) <> OutOfFuel.
Proof.
  rewrite with_driver_run. cbn [fst snd _last_ok]. unfold record. cbn [_driver].
  destruct (fetch_api_spec ep params (_driver a)) as (inner & Hall & _ & Ht & Hf & _).
  exists inner. split; [exact Hall|]. split; [exact Ht|]. split; [reflexivity|exact Hf].
Qed.

(** ** Building blocks of a listing *)

Lemma lists_ext (L : listing) count acc have open (m m' : M PyktokAPI (list json)) :
  (forall a, m a = m' a) -> lists_from L count acc have open m' ->
  lists_from L count acc have open m.
Proof. intros Heq Hm a. rewrite Heq. apply Hm. Qed.

Lemma lists_silent (L : listing) count acc have open (m : M PyktokAPI (list json)) :
  (forall a, record (snd (m a)) = record a
             /\ forall out, fst (m a) = Ret out -> out = py_take acc count) ->
  lists_from L count acc have open m.
Proof.
  intros Hm a. destruct (Hm a) as [Hrec Hout]. exists [].
  rewrite !app_nil_r. split; [exact Hrec|]. split; [constructor|]. split; [reflexivity|exact Hout].
Qed.

Lemma finish_run key videos count (a : PyktokAPI) :
  fst (finish key videos count a) = Ret (py_take videos count)
  /\ _driver (snd (finish key videos count a)) = _driver a.
Proof.
  unfold finish. rewrite bind_run. unfold _cache_set.
  destruct (py_take videos count); done.
Qed.

Lemma lists_finish (L : listing) count acc have open key videos :
  py_take videos count = py_take acc count ->
  lists_from L count acc have open (finish key videos count).
Proof.
  intros Heq. apply lists_silent. intros a.
  destruct (finish_run key videos count a) as [Hr Hd].
  split; [unfold record; by rewrite Hd|]. rewrite Hr. intros out [= <-]. exact Heq.
Qed.

Lemma lists_ret (L : listing) count acc have open videos :
  py_take videos count = py_take acc count ->
  lists_from L count acc have open (mret (py_take videos count)).
Proof.
  intros Heq. apply lists_silent. intros a. split; [done|].
  intros out [= <-]. exact Heq.
Qed.

Lemma lists_raise (L : listing) count acc have open e :
  lists_from L count acc have open (raise e).
Proof. apply lists_silent. intros a. split; [done|]. intros out. discriminate. Qed.

Lemma lists_out_of_fuel (L : listing) count acc have open :
  lists_from L count acc have open out_of_fuel.
Proof. apply lists_silent. intros a. split; [done|]. intros out. discriminate. Qed.

(** One call of the listing's endpoint, followed by what the loop does with
    the response. *)
Lemma lists_step (L : listing) count videos params
    (k : option dict -> M PyktokAPI (list json)) :
  (forall e, own_event L e -> also_taken L e = []) ->
  Z.of_nat (length videos) < count ->
  (forall resp,
      let page := page_of_event (endpoint_of L) (items_of L) (EvResult (endpoint_of L) resp) in
      lists_from L count (videos ++ page) (length videos + length page)
        (open_after L resp) (k resp)) ->
  lists_from L count videos (length videos) true
    (resp ← with_driver (fetch_api (endpoint_of L) params); k resp).
Proof.
  intros Hown Hlt Hk a. rewrite bind_run.
  destruct (client_fetch (endpoint_of L) params a) as (inner & Hall & Hrec & _ & Hfuel).
  assert (Hinner : Forall (fun e => own_event L e \/ others L e) inner).
  { eapply Forall_impl; [exact Hall|]. intros e He. left. by eapply inner_is_own. }
  destruct (with_driver (fetch_api (endpoint_of L) params) a) as [[resp|e|] a1];
    cbn [fst snd] in *; [| |done].
  - destruct (Hk resp a1) as (evs & Hrec' & HQ & Hstops & Hout).
    exists (fetch_record (endpoint_of L) params inner (Ret resp) ++ evs).
    split; [by rewrite Hrec', Hrec, app_assoc|].
    split.
    { apply Forall_app. split; [|exact HQ]. unfold fetch_record.
      constructor; [by left|]. apply Forall_app. split; [exact Hinner|].
      constructor; [by left|constructor]. }
    split.
    { unfold fetch_record. cbn [app stops_when_done]. rewrite String.eqb_refl.
      rewrite (proj2 (Z.ltb_lt _ _) Hlt). cbn [andb]. rewrite <- app_assoc.
      rewrite (stops_inner _ _ _ _ _ _ _ _ _ _ Hall). cbn [app stops_when_done].
      rewrite String.eqb_refl. exact Hstops. }
    intros out Hr. rewrite (Hout out Hr). f_equal. unfold fetch_record.
    assert (Hcall : taken L (EvCall (endpoint_of L) params) = []).
    { unfold taken. by rewrite Hown. }
    assert (Hres : taken L (EvResult (endpoint_of L) resp)
                   = page_of_event (endpoint_of L) (items_of L) (EvResult (endpoint_of L) resp)).
    { unfold taken. rewrite Hown by done. apply app_nil_r. }
    cbn [app flat_map]. rewrite Hcall, !flat_map_app.
    rewrite (taken_inner L params inner Hown Hall). cbn [flat_map app].
    rewrite Hres, app_nil_r. by rewrite <- app_assoc.
  - exists (fetch_record (endpoint_of L) params inner (Raise e)).
    split; [exact Hrec|]. unfold fetch_record. rewrite app_nil_r.
    split; [constructor; [by left|exact Hinner]|].
    split; [|intros out; discriminate].
    cbn [stops_when_done]. rewrite String.eqb_refl, (proj2 (Z.ltb_lt _ _) Hlt).
    cbn [andb]. rewrite <- (app_nil_r inner).
    by rewrite (stops_inner _ _ _ _ _ _ _ _ _ _ Hall).
Qed.

Lemma stops_skip endpoint items verdict count have open evs1 evs :
  Forall (foreign endpoint) evs1 ->
  stops_when_done endpoint items verdict count have open (evs1 ++ evs)
  = stops_when_done endpoint items verdict count have open evs.
Proof.
  induction 1 as [|e evs1 He _ IH]; [done|].
  destruct e; simpl in *; rewrite ?He; exact IH.
Qed.

Lemma taken_skip (L : listing) evs1 :
  Forall (fun e => taken L e = []) evs1 -> flat_map (taken L) evs1 = [].
Proof. induction 1 as [|e evs1 He _ IH]; [done|]. cbn [flat_map]. by rewrite He, IH. Qed.

(** Something the loop does between two calls: it returns, and records
    only events that are not of a call. *)
Lemma lists_after {A} (L : listing) count acc have open (m1 : M PyktokAPI A) evs1
    (k : A -> M PyktokAPI (list json)) :
  (forall a, (exists x, fst (m1 a) = Ret x) /\ record (snd (m1 a)) = record a ++ evs1) ->
  Forall (fun e => others L e /\ taken L e = [] /\ foreign (endpoint_of L) e) evs1 ->
  (forall x, lists_from L count acc have open (k x)) ->
  lists_from L count acc have open (m1 ≫= k).
Proof.
  intros Hm1 Hevs Hk a. rewrite bind_run. destruct (Hm1 a) as [[x Hx] Hrec].
  destruct (m1 a) as [r a1]. cbn [fst snd] in *. subst r.
  destruct (Hk x a1) as (evs & Hrec' & HQ & Hstops & Hout).
  exists (evs1 ++ evs). split; [by rewrite Hrec', Hrec, app_assoc|].
  split.
  { apply Forall_app. split; [|exact HQ]. eapply Forall_impl; [exact Hevs|].
    intros e (He & _). by right. }
  split.
  { rewrite stops_skip; [exact Hstops|]. eapply Forall_impl; [exact Hevs|].
    by intros e (_ & _ & He). }
  intros out Hr. rewrite (Hout out Hr), flat_map_app.
  rewrite (taken_skip L evs1); [reflexivity|]. eapply Forall_impl; [exact Hevs|].
  by intros e (_ & He & _).
Qed.

(** The loop goes on with what the page added. *)
Lemma lists_rebase (L : listing) count videos items m :
  Z.of_nat (length videos) < count ->
  lists_from L count (append_items videos items count)
    (length (append_items videos items count)) true m ->
  lists_from L count (videos ++ items) (length videos + length items) true m.
Proof.
  intros Hlt Hm a. destruct (Hm a) as (evs & Hrec & HQ & Hstops & Hout).
  exists evs. split; [exact Hrec|]. split; [exact HQ|]. split.
  - etrans; [|exact Hstops]. rewrite append_items_spec by exact Hlt.
    rewrite length_take, length_app.
    destruct (le_lt_dec (Z.to_nat count) (length videos + length items)) as [Hle|Hgt].
    + apply stops_saturated; lia.
    + f_equal. lia.
  - intros out Hr. rewrite (Hout out Hr). by apply py_take_append_items.
Qed.

Lemma with_driver_invalidate (a : PyktokAPI) :
  (exists x, fst (with_driver (set_session_params None;; log EvInvalidate) a) = Ret x)
  /\ record (snd (with_driver (set_session_params None;; log EvInvalidate) a))
     = record a ++ [EvInvalidate].
Proof. rewrite with_driver_run. split; [by eexists|done]. Qed.

Lemma with_driver_go (a : PyktokAPI) :
  (exists x, fst (with_driver (try_pass go) a) = Ret x)
  /\ record (snd (with_driver (try_pass go) a)) = record a ++ [].
Proof.
  rewrite with_driver_run. unfold try_pass, try_except, go, driver_get, record.
  rewrite app_nil_r. cbn [fst snd _driver].
  destruct (nav_tape (_driver a)) as [|[|] rest]; split; by eauto.
Qed.

Lemma lists_bind_ret {A} (L : listing) count acc have open (x : A)
    (k : A -> M PyktokAPI (list json)) :
  lists_from L count acc have open (k x) ->
  lists_from L count acc have open (mret x ≫= k).
Proof. intros Hk a. rewrite bind_run. apply Hk. Qed.

Lemma lists_bind_raise {A} (L : listing) count acc have open e
    (k : A -> M PyktokAPI (list json)) :
  lists_from L count acc have open (raise e ≫= k).
Proof. intros a. rewrite bind_run. apply (lists_raise L count acc have open e a). Qed.

Lemma no_page (L : listing) (resp : option dict) :
  items_of L [] = [] -> no_response resp = true ->
  page_of_event (endpoint_of L) (items_of L) (EvResult (endpoint_of L) resp) = [].
Proof.
  intros Hnil Hno. destruct resp as [[|kv r]|]; simpl in *; try done.
  by destruct (String.eqb _ _).
Qed.

Lemma a_page (L : listing) (r : dict) :
  page_of_event (endpoint_of L) (items_of L) (EvResult (endpoint_of L) (Some r))
  = items_of L r.
Proof. simpl. by rewrite String.eqb_refl. Qed.

Lemma py_take_appended videos items count :
  Z.of_nat (length videos) < count ->
  py_take (append_items videos items count) count = py_take (videos ++ items) count.
Proof.
  intros Hlt. rewrite <- (app_nil_r (append_items videos items count)).
  rewrite py_take_append_items by exact Hlt. by rewrite app_nil_r.
Qed.

(** ** The loops *)

Ltac loop_entry Hlt :=
  match goal with
  | |- context [Z.ltb (Z.of_nat (length ?videos)) ?count] =>
      destruct (Z.ltb (Z.of_nat (length videos)) count) eqn:Hlt;
      [apply Z.ltb_lt in Hlt|by apply lists_finish]
  end.

Ltac stays_open Hno :=
  match goal with
  | |- lists_from ?L _ _ _ (open_after ?L ?resp) _ =>
      replace (open_after L resp) with true;
      [|cbv [open_after sound_listing playlist_listing comments_listing user_listing
             hashtag_listing item_listing goes_on has_more];
        rewrite ?Hno;
        by repeat match goal with |- context [py_truthy ?j] => destruct (py_truthy j) end]
  end.

(** The part all loops over a field of the page share: read the items, add
    them, and finish or go on. *)
Ltac page_read L field IH Hlt Hno :=
  rewrite (a_page L); unfold page_items;
  change (items_of L) with (field_items field); unfold field_items;
  match goal with
  | |- context [py_iter ?j] =>
      destruct (py_iter j) as [?items|];
      [apply lists_bind_ret|apply lists_bind_raise]
  end;
  match goal with
  | |- context [negb (py_truthy ?j)] =>
      let Hmore := fresh "Hmore" in
      destruct (negb (py_truthy j)) eqn:Hmore;
      [apply lists_finish; by apply py_take_appended
      |stays_open Hno; apply lists_rebase; [exact Hlt|]; apply IH]
  end.

Lemma sound_videos_loop_lists sound_id count : forall fuel videos cursor,
  lists_from sound_listing count videos (length videos) true
    (sound_videos_loop fuel sound_id count videos cursor).
Proof.
  induction fuel as [|fuel IH]; intros videos cursor; cbn [sound_videos_loop];
    loop_entry Hlt; [apply lists_out_of_fuel|].
  apply (lists_step sound_listing); [done|exact Hlt|]. intros resp page. subst page.
  destruct (no_response resp) eqn:Hno.
  - rewrite (no_page sound_listing resp eq_refl Hno), app_nil_r. by apply lists_finish.
  - destruct resp as [r|]; [|done]. page_read sound_listing "itemList" IH Hlt Hno.
Qed.

Lemma playlist_videos_loop_lists playlist_id count : forall fuel videos cursor,
  lists_from playlist_listing count videos (length videos) true
    (playlist_videos_loop fuel playlist_id count videos cursor).
Proof.
  induction fuel as [|fuel IH]; intros videos cursor; cbn [playlist_videos_loop];
    loop_entry Hlt; [apply lists_out_of_fuel|].
  apply (lists_step playlist_listing); [done|exact Hlt|]. intros resp page. subst page.
  destruct (no_response resp) eqn:Hno.
  - rewrite (no_page playlist_listing resp eq_refl Hno), app_nil_r. by apply lists_finish.
  - destruct resp as [r|]; [|done]. page_read playlist_listing "itemList" IH Hlt Hno.
Qed.

Lemma video_comments_loop_lists vid count : forall fuel comments cursor,
  lists_from comments_listing count comments (length comments) true
    (video_comments_loop fuel vid count comments cursor).
Proof.
  induction fuel as [|fuel IH]; intros comments cursor; cbn [video_comments_loop];
    loop_entry Hlt; [apply lists_out_of_fuel|].
  apply (lists_step comments_listing); [done|exact Hlt|]. intros resp page. subst page.
  destruct (no_response resp) eqn:Hno.
  - rewrite (no_page comments_listing resp eq_refl Hno), app_nil_r. by apply lists_ret.
  - destruct resp as [r|]; [|done]. page_read comments_listing "comments" IH Hlt Hno.
Qed.

Lemma user_videos_loop_lists username sec_uid count : forall fuel videos cursor failures,
  lists_from user_listing count videos (length videos) true
    (user_videos_loop fuel username sec_uid count videos cursor failures).
Proof.
  induction fuel as [|fuel IH]; intros videos cursor failures; cbn [user_videos_loop];
    loop_entry Hlt; [apply lists_out_of_fuel|].
  apply (lists_step user_listing); [done|exact Hlt|]. intros resp page. subst page.
  destruct (no_response resp) eqn:Hno.
  - rewrite (no_page user_listing resp eq_refl Hno), app_nil_r, Nat.add_0_r.
    destruct (Z.leb max_consecutive_failures (failures + 1)); [by apply lists_ret|].
    stays_open Hno.
    apply (lists_after user_listing _ _ _ _ _ [EvInvalidate]);
      [apply with_driver_invalidate|by repeat constructor|intros _].
    apply (lists_after user_listing _ _ _ _ _ []);
      [apply with_driver_go|constructor|intros _]. apply IH.
  - destruct resp as [r|]; [|done]. page_read user_listing "itemList" IH Hlt Hno.
Qed.

Lemma search_videos_loop_lists keyword count : forall fuel videos cursor,
  lists_from search_listing count videos (length videos) true
    (search_videos_loop fuel keyword count videos cursor).
Proof.
  induction fuel as [|fuel IH]; intros videos cursor; cbn [search_videos_loop];
    loop_entry Hlt; [apply lists_out_of_fuel|].
  apply (lists_step search_listing); [done|exact Hlt|]. intros resp page. subst page.
  destruct (no_response resp) eqn:Hno.
  - rewrite (no_page search_listing resp eq_refl Hno), app_nil_r. by apply lists_finish.
  - destruct resp as [r|]; [|done]. rewrite (a_page search_listing).
    cbn [items_of search_listing].
    destruct (_extract_videos r) as [|item items] eqn:Hitems.
    + rewrite app_nil_r. by apply lists_finish.
    + destruct (negb (py_truthy (py_get r "has_more" (JBool false)))) eqn:Hmore.
      * apply lists_finish. by apply py_take_appended.
      * replace (open_after search_listing (Some r)) with true.
        2:{ cbn [open_after search_listing]. unfold search_goes_on, has_more.
            rewrite Hno, Hitems. by destruct (py_truthy _). }
        apply lists_rebase; [exact Hlt|]. apply IH.
Qed.

(** ** The fallback of the hashtag listing *)

Lemma take_app_take {A} (n : nat) (l more : list A) :
  firstn n (l ++ firstn n more) = firstn n (l ++ more).
Proof. rewrite !take_app, take_take. do 2 f_equal. lia. Qed.

Lemma hashtag_own_also e :
  own_event hashtag_listing e -> also_taken hashtag_listing e = [].
Proof. destruct e as [| | | |ep' [r|]| |]; simpl; try done. by intros ->. Qed.

Lemma search_events_in_hashtag hashtag count have open evs :
  Forall (fun e => own_event search_listing e \/ others search_listing e) evs ->
  Forall (fun e => own_event hashtag_listing e \/ others hashtag_listing e)
    (EvFallback hashtag :: evs)
  /\ stops_when_done "hashtag_videos" (items_of hashtag_listing)
       (open_after hashtag_listing) count have open (EvFallback hashtag :: evs) = true
  /\ flat_map (taken hashtag_listing) (EvFallback hashtag :: evs)
     = flat_map (taken search_listing) evs.
Proof.
  intros Hall. split; [|split].
  - constructor; [right; right; left; by eexists|].
    eapply Forall_impl; [exact Hall|]. intros e [He|[]]. right. by do 2 right.
  - cbn [stops_when_done]. rewrite <- (app_nil_r evs). rewrite stops_skip; [done|].
    eapply Forall_impl; [exact Hall|]. intros e [He|[]].
    destruct e; simpl in *; try done; by subst.
  - cbn [flat_map]. change (taken hashtag_listing (EvFallback hashtag)) with (@nil json).
    cbn [app]. induction Hall as [|e evs [He|[]] _ IH]; [done|].
    cbn [flat_map]. rewrite IH. f_equal. unfold taken.
    destruct e as [| | | |ep' [r|]| |]; simpl in *; try done.
    subst ep'. simpl. by rewrite ?app_nil_r.
Qed.

Lemma fallback_lists search_fuel hashtag count videos open :
  Z.of_nat (length videos) < count ->
  lists_from hashtag_listing count videos (length videos) open
    (with_driver (log (EvFallback hashtag));;
     fallback_videos ← search_videos search_fuel ("#" +:+ hashtag) count;
     fallback_videos ←
       match fallback_videos with
       | [] => search_videos search_fuel hashtag count
       | _ => mret fallback_videos
       end;
     mret (py_take (videos ++ fallback_videos) count)).
Proof.
  intros Hlt a. rewrite bind_run, with_driver_run. cbn [log fst snd].
  set (a1 := mkApi _ _).
  assert (Hrec0 : record a1 = record a ++ [EvFallback hashtag]) by done.
  clearbody a1. rewrite bind_run. unfold search_videos.
  destruct (search_videos_loop_lists ("#" +:+ hashtag) count search_fuel [] (JNum 0) a1)
    as (evs1 & Hrec1 & HQ1 & _ & Hout1).
  destruct (search_videos_loop search_fuel ("#" +:+ hashtag) count [] (JNum 0) a1)
    as [[fb1|e|] a2]; cbn [fst snd] in *.
  2,3: (exists (EvFallback hashtag :: evs1);
        destruct (search_events_in_hashtag hashtag count (length videos) open evs1 HQ1)
          as (HQ & Hst & _);
        split; [by rewrite Hrec1, Hrec0, <- app_assoc|];
        split; [exact HQ|]; split; [exact Hst|intros out; discriminate]).
  specialize (Hout1 fb1 eq_refl). cbn [app] in Hout1. rewrite bind_run.
  destruct fb1 as [|x fb1].
  - destruct (search_videos_loop_lists hashtag count search_fuel [] (JNum 0) a2)
      as (evs2 & Hrec2 & HQ2 & _ & Hout2).
    assert (HQ12 : Forall (fun e => own_event search_listing e \/ others search_listing e)
                     (evs1 ++ evs2)) by (by apply Forall_app).
    destruct (search_events_in_hashtag hashtag count (length videos) open (evs1 ++ evs2) HQ12)
      as (HQ & Hst & Htk).
    exists (EvFallback hashtag :: evs1 ++ evs2).
    destruct (search_videos_loop search_fuel hashtag count [] (JNum 0) a2)
      as [[fb2|e|] a3]; cbn [fst snd mret M_ret] in *;
      (split; [by rewrite Hrec2, Hrec1, Hrec0, <- !app_assoc|]);
      (split; [exact HQ|]); (split; [exact Hst|]); [|intros out; discriminate..].
    intros out [= <-]. rewrite Htk, flat_map_app, (Hout2 fb2 eq_refl). cbn [app].
    rewrite !py_take_firstn in * by lia.
    assert (Hnil : flat_map (taken search_listing) evs1 = []).
    { destruct (flat_map (taken search_listing) evs1) as [|y l]; [done|].
      destruct (Z.to_nat count) eqn:E; [lia|done]. }
    rewrite Hnil. cbn [app]. apply take_app_take.
  - destruct (search_events_in_hashtag hashtag count (length videos) open evs1 HQ1)
      as (HQ & Hst & Htk).
    exists (EvFallback hashtag :: evs1). cbn [fst snd mret M_ret].
    split; [by rewrite Hrec1, Hrec0, <- app_assoc|].
    split; [exact HQ|]. split; [exact Hst|].
    intros out [= <-]. rewrite Htk, Hout1.
    rewrite !py_take_firstn by lia. apply take_app_take.
Qed.

Lemma hashtag_videos_loop_lists search_fuel hashtag challenge_id count :
  forall fuel videos cursor blocked,
    lists_from hashtag_listing count videos (length videos) true
      (hashtag_videos_loop fuel search_fuel hashtag challenge_id count videos cursor
         blocked).
Proof.
  induction fuel as [|fuel IH]; intros videos cursor blocked; cbn [hashtag_videos_loop];
    loop_entry Hlt; [apply lists_out_of_fuel|].
  apply (lists_step hashtag_listing); [apply hashtag_own_also|exact Hlt|].
  intros resp page. subst page.
  destruct (no_response resp) eqn:Hno.
  - rewrite (no_page hashtag_listing resp eq_refl Hno), app_nil_r, Nat.add_0_r.
    destruct (Z.ltb max_blocked_retries (blocked + 1)); [by apply fallback_lists|].
    stays_open Hno.
    apply (lists_after hashtag_listing _ _ _ _ _ [EvInvalidate]);
      [apply with_driver_invalidate| |intros _].
    { constructor; [|constructor]. split; [by left|done]. }
    apply (lists_after hashtag_listing _ _ _ _ _ []);
      [apply with_driver_go|constructor|intros _]. apply IH.
  - destruct resp as [r|]; [|done]. page_read hashtag_listing "itemList" IH Hlt Hno.
Qed.

End ListingFacts.

(** * What the listing calls return *)

Section ListingResults.
Context `{External}.

Lemma taken_pages (L : listing) evs :
  (forall e, also_taken L e = []) ->
  flat_map (taken L) evs = pages (endpoint_of L) (items_of L) evs.
Proof.
  intros Hnone. unfold pages. induction evs as [|e evs IH]; [done|].
  cbn [flat_map]. rewrite IH. unfold taken. by rewrite Hnone, app_nil_r.
Qed.

Lemma length_py_take {A} (l : list A) (count : Z) :
  0 <= count -> (length (py_take l count) <= Z.to_nat count)%nat.
Proof. intros Hc. rewrite py_take_firstn by exact Hc. rewrite length_take. lia. Qed.

(** From the promise of a loop to the result of the call that starts it. *)
Lemma lists_result (L : listing) count (m : M PyktokAPI (list json)) (a : PyktokAPI) :
  lists_from L count [] 0 true m ->
  (count <= 0 -> forall out, fst (m a) = Ret out -> out = []) ->
  exists evs,
    record (snd (m a)) = record a ++ evs
    /\ stops_when_done (endpoint_of L) (items_of L) (open_after L) count 0 true evs = true
    /\ forall out, fst (m a) = Ret out ->
         out = py_take (flat_map (taken L) evs) count
         /\ (length out <= Z.to_nat count)%nat.
Proof.
  intros Hm Hidle. destruct (Hm a) as (evs & Hrec & _ & Hstops & Hout).
  exists evs. split; [exact Hrec|]. split; [exact Hstops|].
  intros out Hr. split; [by apply Hout|].
  destruct (Z_lt_le_dec 0 count) as [Hpos|Hneg].
  - rewrite (Hout out Hr). apply length_py_take. lia.
  - rewrite (Hidle Hneg out Hr). simpl. lia.
Qed.

Lemma finish_nothing key count (a : PyktokAPI) out :
  fst (finish key [] count a) = Ret out -> out = [].
Proof.
  destruct (finish_run key [] count a) as [Hr _]. rewrite Hr, py_take_nil. by intros [= <-].
Qed.

End ListingResults.

Ltac idle_loop :=
  let Hc := fresh "Hc" in
  intros Hc out;
  match goal with
  | |- fst (_ ?fuel _ ?count [] _ _) = _ -> _ =>
      destruct fuel;
      cbn [sound_videos_loop playlist_videos_loop video_comments_loop search_videos_loop];
      rewrite (proj2 (Z.ltb_ge (Z.of_nat (@length json [])) count)) by (simpl; lia);
      apply finish_nothing
  end.

(** [get_sound_videos] and [get_playlist_videos], for every fuel, id,
    count and state of the client: what the call records respects the loop
    condition (a call on its endpoint is made only while fewer than [count]
    items have come in and no earlier response was a failure or a page
    without [hasMore]), and when it returns, it returns the items of the
    pages it received, in the order of the pages and of the items in them,
    cut at [count]; so at most [count] items, and none when [count] is not
    positive. *)
Theorem sound_and_playlist_videos_are_the_pages_in_order `{External} (fuel : nat)
    (id : string) (count : Z) (a : PyktokAPI) :
  (let run := get_sound_videos fuel id count a in
   exists evs,
     record (snd run) = record a ++ evs
     /\ stops_when_done "sound_videos" (field_items "itemList") (goes_on false "hasMore")
          count 0 true evs = true
     /\ forall out, fst run = Ret out ->
          out = py_take (pages "sound_videos" (field_items "itemList") evs) count
          /\ (length out <= Z.to_nat count)%nat)
  /\ (let run := get_playlist_videos fuel id count a in
      exists evs,
        record (snd run) = record a ++ evs
        /\ stops_when_done "playlist_videos" (field_items "itemList")
             (goes_on false "hasMore") count 0 true evs = true
        /\ forall out, fst run = Ret out ->
             out = py_take (pages "playlist_videos" (field_items "itemList") evs) count
             /\ (length out <= Z.to_nat count)%nat).
Proof.
  split; intros run; subst run.
  - unfold get_sound_videos.
    destruct (lists_result sound_listing count
                (sound_videos_loop fuel id count [] (JNum 0)) a)
      as (evs & Hrec & Hstops & Hout);
      [apply (sound_videos_loop_lists id count fuel [] (JNum 0))|idle_loop|].
    exists evs. split; [exact Hrec|]. split; [exact Hstops|].
    intros out Hr. destruct (Hout out Hr) as [Heq Hlen]. split; [|exact Hlen].
    rewrite Heq. by rewrite (taken_pages sound_listing evs).
  - unfold get_playlist_videos.
    destruct (lists_result playlist_listing count
                (playlist_videos_loop fuel id count [] (JNum 0)) a)
      as (evs & Hrec & Hstops & Hout);
      [apply (playlist_videos_loop_lists id count fuel [] (JNum 0))|idle_loop|].
    exists evs. split; [exact Hrec|]. split; [exact Hstops|].
    intros out Hr. destruct (Hout out Hr) as [Heq Hlen]. split; [|exact Hlen].
    rewrite Heq. by rewrite (taken_pages playlist_listing evs).
Qed.

(** [get_video_comments]: what it records respects the loop condition, and
    when it returns, it returns the comments of the pages it received on
    [video_comments], in order, cut at [count]. *)
Theorem get_video_comments_returns_the_pages_in_order `{External} (fuel : nat)
    (video_id : string) (count : Z) (a : PyktokAPI) :
  let run := get_video_comments fuel video_id count a in
  exists evs,
    record (snd run) = record a ++ evs
    /\ stops_when_done "video_comments" (field_items "comments") (goes_on false "has_more")
         count 0 true evs = true
    /\ forall out, fst run = Ret out ->
         out = py_take (pages "video_comments" (field_items "comments") evs) count
         /\ (length out <= Z.to_nat count)%nat.
Proof.
  intros run. subst run. unfold get_video_comments.
  destruct (lists_result comments_listing count
              (video_comments_loop fuel (extract_vid video_id) count [] (JNum 0)) a)
    as (evs & Hrec & Hstops & Hout);
    [apply (video_comments_loop_lists (extract_vid video_id) count fuel [] (JNum 0))
    |idle_loop|].
  exists evs. split; [exact Hrec|]. split; [exact Hstops|].
  intros out Hr. destruct (Hout out Hr) as [Heq Hlen]. split; [|exact Hlen].
  rewrite Heq. by rewrite (taken_pages comments_listing evs).
Qed.

(** [search_videos]: a call on [search_general] is made only while fewer
    than [count] videos have come in and every earlier response had videos
    and asked for more; when it returns, it returns the videos
    [_extract_videos] finds in the pages, in order, cut at [count]. *)
Theorem search_videos_returns_the_pages_in_order `{External} (fuel : nat)
    (keyword : string) (count : Z) (a : PyktokAPI) :
  let run := search_videos fuel keyword count a in
  exists evs,
    record (snd run) = record a ++ evs
    /\ stops_when_done "search_general" _extract_videos search_goes_on count 0 true evs
       = true
    /\ forall out, fst run = Ret out ->
         out = py_take (pages "search_general" _extract_videos evs) count
         /\ (length out <= Z.to_nat count)%nat.
Proof.
  intros run. subst run. unfold search_videos.
  destruct (lists_result search_listing count
              (search_videos_loop fuel keyword count [] (JNum 0)) a)
    as (evs & Hrec & Hstops & Hout);
    [apply (search_videos_loop_lists keyword count fuel [] (JNum 0))|idle_loop|].
  exists evs. split; [exact Hrec|]. split; [exact Hstops|].
  intros out Hr. destruct (Hout out Hr) as [Heq Hlen]. split; [|exact Hlen].
  rewrite Heq. by rewrite (taken_pages search_listing evs).
Qed.

(** * The user and hashtag listings, from the detail call on *)

Section DetailFirst.
Context `{External}.

Lemma fetch_record_foreign ep ep' params inner r :
  String.eqb ep ep' = false ->
  Forall (inner_event ep params) inner ->
  Forall (foreign ep') (fetch_record ep params inner r).
Proof.
  intros Hne Hall. unfold fetch_record. constructor; [exact Hne|].
  apply Forall_app. split.
  - eapply Forall_impl; [exact Hall|]. intros e He. destruct e; simpl in *; done.
  - destruct r; repeat constructor. exact Hne.
Qed.

Lemma fetch_record_not_taken (L : listing) ep params inner r :
  (forall e, match e with
             | EvResult ep' _ => ep' = ep
             | EvInvalidate | EvFallback _ => False
             | _ => True
             end -> taken L e = []) ->
  Forall (inner_event ep params) inner ->
  Forall (fun e => taken L e = []) (fetch_record ep params inner r).
Proof.
  intros Hnone Hall. unfold fetch_record. constructor; [by apply Hnone|].
  apply Forall_app. split.
  - eapply Forall_impl; [exact Hall|]. intros e He. apply Hnone.
    destruct e; simpl in *; done.
  - destruct r; repeat constructor. by apply Hnone.
Qed.

(** What comes before the loop is not counted. *)
Lemma prelude_skipped (L : listing) count evs0 (m : M PyktokAPI (list json)) a1 :
  Forall (foreign (endpoint_of L)) evs0 ->
  Forall (fun e => taken L e = []) evs0 ->
  (exists evs,
      record (snd (m a1)) = record a1 ++ evs
      /\ stops_when_done (endpoint_of L) (items_of L) (open_after L) count 0 true evs = true
      /\ forall out, fst (m a1) = Ret out ->
           out = py_take (flat_map (taken L) evs) count
           /\ (length out <= Z.to_nat count)%nat) ->
  forall before, record a1 = before ++ evs0 ->
  exists evs,
    record (snd (m a1)) = before ++ evs
    /\ stops_when_done (endpoint_of L) (items_of L) (open_after L) count 0 true evs = true
    /\ forall out, fst (m a1) = Ret out ->
         out = py_take (flat_map (taken L) evs) count
         /\ (length out <= Z.to_nat count)%nat.
Proof.
  intros Hf Ht (evs & Hrec & Hstops & Hout) before Hb. exists (evs0 ++ evs).
  split; [by rewrite Hrec, Hb, app_assoc|].
  split; [by rewrite stops_skip|].
  intros out Hr. rewrite flat_map_app, (taken_skip L evs0 Ht). by apply Hout.
Qed.

(** A call that ends before the loop with no items. *)
Lemma nothing_listed (L : listing) count evs0 :
  Forall (foreign (endpoint_of L)) evs0 ->
  Forall (fun e => taken L e = []) evs0 ->
  stops_when_done (endpoint_of L) (items_of L) (open_after L) count 0 true evs0 = true
  /\ (@nil json = py_take (flat_map (taken L) evs0) count
      /\ (length (@nil json) <= Z.to_nat count)%nat).
Proof.
  intros Hf Ht. split.
  - rewrite <- (app_nil_r evs0). by rewrite stops_skip.
  - rewrite (taken_skip L evs0 Ht), py_take_nil. simpl. split; [done|lia].
Qed.

Lemma get_user_info_record username (a : PyktokAPI) :
  exists evs0,
    record (snd (get_user_info username a)) = record a ++ evs0
    /\ Forall (foreign "user_videos") evs0
    /\ Forall (fun e => taken user_listing e = []) evs0
    /\ fst (get_user_info username a) <> OutOfFuel.
Proof.
  unfold get_user_info. rewrite bind_run.
  destruct (with_driver_go a) as [[[] Hgo] Hrec0]. rewrite app_nil_r in Hrec0.
  destruct (with_driver (try_pass go) a) as [r a0]. cbn [fst snd] in *. subst r.
  rewrite bind_run.
  set (params := [("uniqueId", JStr (norm_username username)); ("secUid", JStr "")]).
  destruct (client_fetch "user_detail" params a0) as (inner & Hall & Hrec & _ & Hfuel).
  exists (fetch_record "user_detail" params inner
            (fst (with_driver (fetch_api "user_detail" params) a0))).
  destruct (with_driver (fetch_api "user_detail" params) a0) as [[resp|e|] a1];
    cbn [fst snd] in *; [| |done].
  - rewrite bind_run. unfold _cache_set.
    split; [|split; [by apply fetch_record_foreign|split; [|by destruct (resp_json resp) as [| | | |[]|[]]]]].
    + rewrite <- Hrec0, <- Hrec. by destruct (resp_json resp) as [| | | |[]|[]].
    + apply fetch_record_not_taken; [|exact Hall]. intros [| | | |ep' [r|]| |]; simpl; try done.
      by intros ->.
  - split; [by rewrite <- Hrec0, <- Hrec|].
    split; [by apply fetch_record_foreign|]. split; [|done].
    apply fetch_record_not_taken; [|exact Hall]. intros [| | | |ep' [r|]| |]; simpl; try done.
    by intros ->.
Qed.

End DetailFirst.

(** [get_user_videos]: a call on [user_videos] is made only while fewer
    than [count] items have come in and the last page, if any, had
    [hasMore]; when it returns, it returns the items of the pages it
    received on [user_videos], in order, cut at [count].  When the user
    detail came back empty or without a [secUid], it returns the empty list
    at once: nothing is done after the detail call. *)
Theorem get_user_videos_returns_the_pages_in_order `{External} (fuel : nat)
    (username : string) (count : Z) (a : PyktokAPI) :
  let run := get_user_videos fuel username count a in
  let detail := get_user_info (norm_username username) a in
  (exists evs,
    record (snd run) = record a ++ evs
    /\ stops_when_done "user_videos" (field_items "itemList") (goes_on true "hasMore")
         count 0 true evs = true
    /\ forall out, fst run = Ret out ->
         out = py_take (pages "user_videos" (field_items "itemList") evs) count
         /\ (length out <= Z.to_nat count)%nat)
  /\ (forall resp, fst detail = Ret resp ->
        no_response resp = true
        \/ py_truthy (_safe (resp_json resp) ["userInfo"; "user"; "secUid"] (JStr "")) = false ->
        run = (Ret [], snd detail)).
Proof.
  intros run detail. subst run detail. split.
  2:{ intros resp Hresp Hnone. unfold get_user_videos. rewrite bind_run.
      destruct (get_user_info (norm_username username) a) as [[r|e|] a1];
        cbn [fst snd] in *; try discriminate.
      injection Hresp as ->. destruct Hnone as [-> | ->]; [done|].
      by destruct (no_response resp). }
  cut (exists evs,
          record (snd (get_user_videos fuel username count a)) = record a ++ evs
          /\ stops_when_done (endpoint_of user_listing) (items_of user_listing)
               (open_after user_listing) count 0 true evs = true
          /\ forall out, fst (get_user_videos fuel username count a) = Ret out ->
               out = py_take (flat_map (taken user_listing) evs) count
               /\ (length out <= Z.to_nat count)%nat).
  { intros (evs & Hrec & Hstops & Hout). exists evs.
    split; [exact Hrec|]. split; [exact Hstops|]. intros out Hr.
    destruct (Hout out Hr) as [Heq Hlen]. split; [|exact Hlen].
    rewrite Heq. by rewrite (taken_pages user_listing evs). }
  unfold get_user_videos. rewrite bind_run.
  destruct (get_user_info_record (norm_username username) a)
    as (evs0 & Hrec0 & Hf0 & Ht0 & Hfuel).
  destruct (get_user_info (norm_username username) a) as [[resp|e|] a1];
    cbn [fst snd] in *; [| |done].
  2:{ exists evs0. split; [exact Hrec0|].
      destruct (nothing_listed user_listing count evs0 Hf0 Ht0) as [Hs _].
      split; [exact Hs|]. intros out. discriminate. }
  destruct (no_response resp).
  { exists evs0. split; [exact Hrec0|].
    destruct (nothing_listed user_listing count evs0 Hf0 Ht0) as [Hs Hn].
    split; [exact Hs|]. by intros out [= <-]. }
  destruct (negb _).
  { exists evs0. split; [exact Hrec0|].
    destruct (nothing_listed user_listing count evs0 Hf0 Ht0) as [Hs Hn].
    split; [exact Hs|]. by intros out [= <-]. }
  apply (prelude_skipped user_listing count evs0 _ a1 Hf0 Ht0); [|exact Hrec0].
  apply lists_result; [apply user_videos_loop_lists|].
  intros Hc out. destruct fuel; cbn [user_videos_loop];
    rewrite (proj2 (Z.ltb_ge (Z.of_nat (@length json [])) count)) by (simpl; lia);
    apply finish_nothing.
Qed.

(** [get_hashtag_videos]: a call on [hashtag_videos] is made only while
    fewer than [count] items have come in and the last page, if any, had
    [hasMore]; when it returns, it returns the items of the pages it
    received on [hashtag_videos], followed by the videos of the search
    pages of its fallback when it fell back, in the order of the calls, cut
    at [count].  When the hashtag detail came back empty or without an id,
    it returns the empty list at once: nothing is done after the detail
    call. *)
Theorem get_hashtag_videos_returns_the_pages_in_order `{External} (fuel : nat)
    (hashtag : string) (count : Z) (a : PyktokAPI) :
  let run := get_hashtag_videos fuel hashtag count a in
  let detail :=
    with_driver (fetch_api "hashtag_detail" [("challengeName", JStr (norm_hashtag hashtag))])
      a in
  (exists evs,
    record (snd run) = record a ++ evs
    /\ stops_when_done "hashtag_videos" (field_items "itemList") (goes_on true "hasMore")
         count 0 true evs = true
    /\ forall out, fst run = Ret out ->
         out = py_take (flat_map (taken hashtag_listing) evs) count
         /\ (length out <= Z.to_nat count)%nat)
  /\ (forall resp, fst detail = Ret resp ->
        no_response resp = true
        \/ py_truthy (_safe (resp_json resp) ["challengeInfo"; "challenge"; "id"] (JStr ""))
           = false ->
        run = (Ret [], snd detail)).
Proof.
  intros run detail. subst run detail. split.
  2:{ intros resp Hresp Hnone. unfold get_hashtag_videos. rewrite bind_run.
      destruct (with_driver (fetch_api "hashtag_detail" _) a) as [[r|e|] a1];
        cbn [fst snd] in *; try discriminate.
      injection Hresp as ->. destruct Hnone as [-> | ->]; [done|].
      by destruct (no_response resp). }
  unfold get_hashtag_videos. rewrite bind_run.
  set (params := [("challengeName", JStr (norm_hashtag hashtag))]).
  destruct (client_fetch "hashtag_detail" params a) as (inner & Hall & Hrec0 & _ & Hfuel).
  assert (Hf0 : forall r, Forall (foreign "hashtag_videos")
                            (fetch_record "hashtag_detail" params inner r))
    by (intros r; by apply fetch_record_foreign).
  assert (Ht0 : forall r, Forall (fun e => taken hashtag_listing e = [])
                            (fetch_record "hashtag_detail" params inner r)).
  { intros r. apply fetch_record_not_taken; [|exact Hall].
    intros [| | | |ep' [r'|]| |]; simpl; try done. by intros ->. }
  destruct (with_driver (fetch_api "hashtag_detail" params) a) as [[resp|e|] a1];
    cbn [fst snd] in *; [| |done].
  2:{ eexists. split; [exact Hrec0|].
      destruct (nothing_listed hashtag_listing count _ (Hf0 (Raise e)) (Ht0 (Raise e)))
        as [Hs _].
      split; [exact Hs|]. intros out. discriminate. }
  destruct (no_response resp).
  { eexists. split; [exact Hrec0|].
    destruct (nothing_listed hashtag_listing count _ (Hf0 (Ret resp)) (Ht0 (Ret resp)))
      as [Hs Hn].
    split; [exact Hs|]. by intros out [= <-]. }
  destruct (negb _).
  { eexists. split; [exact Hrec0|].
    destruct (nothing_listed hashtag_listing count _ (Hf0 (Ret resp)) (Ht0 (Ret resp)))
      as [Hs Hn].
    split; [exact Hs|]. by intros out [= <-]. }
  apply (prelude_skipped hashtag_listing count _ _ a1 (Hf0 (Ret resp)) (Ht0 (Ret resp)));
    [|exact Hrec0].
  apply lists_result; [apply hashtag_videos_loop_lists|].
  intros Hc out. destruct fuel; cbn [hashtag_videos_loop];
    rewrite (proj2 (Z.ltb_ge (Z.of_nat (@length json [])) count)) by (simpl; lia);
    apply finish_nothing.
Qed.

(** * What the user and hashtag listings do about a failed call *)

Section Policies.
Context `{External}.

Lemma outline_app endpoint a b :
  outline endpoint (a ++ b) = outline endpoint a ++ outline endpoint b.
Proof. apply flat_map_app. Qed.

Lemma outline_inner endpoint ep params inner :
  Forall (inner_event ep params) inner -> outline endpoint inner = [].
Proof.
  induction 1 as [|e inner He _ IH]; [done|]. cbn [outline flat_map].
  fold (outline endpoint inner). rewrite IH. destruct e; simpl in *; done.
Qed.

Lemma outline_fetch_record ep params inner r :
  Forall (inner_event ep params) inner ->
  outline ep (fetch_record ep params inner r)
  = match r with
    | Ret resp => [if no_response resp then Failed else Page]
    | _ => []
    end.
Proof.
  intros Hall. unfold fetch_record.
  change (EvCall ep params :: inner ++ ?l) with ([EvCall ep params] ++ inner ++ l).
  rewrite !outline_app, (outline_inner ep ep params inner Hall).
  destruct r; simpl; rewrite ?String.eqb_refl; done.
Qed.

Lemma outline_foreign_fetch endpoint ep params inner r :
  String.eqb ep endpoint = false ->
  Forall (inner_event ep params) inner ->
  outline endpoint (fetch_record ep params inner r) = [].
Proof.
  intros Hne Hall. unfold fetch_record.
  change (EvCall ep params :: inner ++ ?l) with ([EvCall ep params] ++ inner ++ l).
  rewrite !outline_app, (outline_inner endpoint ep params inner Hall).
  destruct r; simpl; rewrite ?Hne; done.
Qed.



Lemma follows_impl (policy policy' : list mark -> bool) endpoint m :
  (forall o, policy' o = true -> policy o = true) ->
  follows policy' endpoint m -> follows policy endpoint m.
Proof.
  intros Himpl Hm a. destruct (Hm a) as (evs & Hrec & Hp). exists evs.
  split; [exact Hrec|by apply Himpl].
Qed.










Lemma get_user_info_outline username (a : PyktokAPI) :
  exists evs0,
    record (snd (get_user_info username a)) = record a ++ evs0
    /\ outline "user_videos" evs0 = []
    /\ fst (get_user_info username a) <> OutOfFuel.
Proof.
  unfold get_user_info. rewrite bind_run.
  destruct (with_driver_go a) as [[[] Hgo] Hrec0]. rewrite app_nil_r in Hrec0.
  destruct (with_driver (try_pass go) a) as [r a0]. cbn [fst snd] in *. subst r.
  rewrite bind_run.
  set (params := [("uniqueId", JStr (norm_username username)); ("secUid", JStr "")]).
  destruct (client_fetch "user_detail" params a0) as (inner & Hall & Hrec & _ & Hfuel).
  exists (fetch_record "user_detail" params inner
            (fst (with_driver (fetch_api "user_detail" params) a0))).
  rewrite (outline_foreign_fetch "user_videos" "user_detail" params inner _ eq_refl Hall).
  destruct (with_driver (fetch_api "user_detail" params) a0) as [[resp|e|] a1];
    cbn [fst snd] in *; [| |done].
  - rewrite bind_run. unfold _cache_set. rewrite <- Hrec0, <- Hrec.
    by destruct (resp_json resp) as [| | | |[]|[]].
  - by rewrite <- Hrec0, <- Hrec.
Qed.

(** ** What the policies imply in numbers *)



End Policies.



(** * The cache of the client *)

Section Cache.
Context `{External}.

Lemma cache_grows_refl a : cache_grows a a.
Proof. intros k. destruct (_last_ok a !! k); [by left|done]. Qed.

Lemma cache_grows_trans a b c : cache_grows a b -> cache_grows b c -> cache_grows a c.
Proof.
  intros Hab Hbc k. specialize (Hab k). specialize (Hbc k).
  destruct (_last_ok c !! k) as [v|].
  - destruct Hbc as [Hb|Hv]; [|by right]. by rewrite Hb in Hab.
  - by rewrite Hbc in Hab.
Qed.

Lemma keeps_cache_bind {A B} (m : M PyktokAPI A) (k : A -> M PyktokAPI B) :
  keeps_cache m -> (forall x, keeps_cache (k x)) -> keeps_cache (m ≫= k).
Proof.
  intros Hm Hk a. rewrite bind_run. specialize (Hm a).
  destruct (m a) as [[x|e|] a1]; cbn [snd] in *; [|done..].
  eapply cache_grows_trans; [exact Hm|apply Hk].
Qed.

Lemma keeps_cache_driver {A} (m : M SeleniumDriverAPI A) : keeps_cache (with_driver m).
Proof. intros a. rewrite with_driver_run. intros k. cbn. destruct (_last_ok a !! k); [by left|done]. Qed.

Lemma keeps_cache_ret {A} (x : A) : keeps_cache (mret x).
Proof. intros a. apply cache_grows_refl. Qed.

Lemma keeps_cache_raise {A} e : keeps_cache (raise e : M PyktokAPI A).
Proof. intros a. apply cache_grows_refl. Qed.

Lemma keeps_cache_out_of_fuel {A} : keeps_cache (out_of_fuel : M PyktokAPI A).
Proof. intros a. apply cache_grows_refl. Qed.

Lemma keeps_cache_set key value : keeps_cache (_cache_set key value).
Proof.
  intros a k. unfold _cache_set.
  destruct value as [| | | |[|x l]|[|kv d]]; cbn [snd _last_ok];
    try (destruct (_last_ok a !! k); [by left|done]);
    (destruct (decide (k = key)) as [->|Hne];
     [rewrite lookup_insert_eq; by right
     |rewrite lookup_insert_ne by done; destruct (_last_ok a !! k); [by left|done]]).
Qed.

Lemma keeps_cache_finish key videos count : keeps_cache (finish key videos count).
Proof.
  unfold finish. apply keeps_cache_bind; [apply keeps_cache_set|intros _; apply keeps_cache_ret].
Qed.

Lemma keeps_cache_page_items (r : dict) field : keeps_cache (page_items r field).
Proof.
  unfold page_items. destruct (py_iter _); [apply keeps_cache_ret|apply keeps_cache_raise].
Qed.

Create HintDb cache.

#[local] Hint Resolve keeps_cache_driver keeps_cache_ret keeps_cache_raise keeps_cache_out_of_fuel
  keeps_cache_set keeps_cache_finish keeps_cache_page_items : cache.

Ltac keeps_cache_loop IH :=
  repeat first
    [ apply IH
    | solve [auto with cache]
    | apply keeps_cache_bind; [|intros ?]
    | match goal with
      | |- keeps_cache (if ?b then _ else _) => destruct b
      | |- keeps_cache (match ?l with [] => _ | _ => _ end) => destruct l
      end ].

Lemma keeps_cache_user_info username : keeps_cache (get_user_info username).
Proof. unfold get_user_info. keeps_cache_loop I. Qed.

Lemma keeps_cache_sound sound_id count : forall fuel videos cursor,
  keeps_cache (sound_videos_loop fuel sound_id count videos cursor).
Proof.
  induction fuel as [|fuel IH]; intros videos cursor; cbn [sound_videos_loop];
    keeps_cache_loop IH.
Qed.

Lemma keeps_cache_playlist playlist_id count : forall fuel videos cursor,
  keeps_cache (playlist_videos_loop fuel playlist_id count videos cursor).
Proof.
  induction fuel as [|fuel IH]; intros videos cursor; cbn [playlist_videos_loop];
    keeps_cache_loop IH.
Qed.

Lemma keeps_cache_comments vid count : forall fuel comments cursor,
  keeps_cache (video_comments_loop fuel vid count comments cursor).
Proof.
  induction fuel as [|fuel IH]; intros comments cursor; cbn [video_comments_loop];
    keeps_cache_loop IH.
Qed.

Lemma keeps_cache_search keyword count : forall fuel videos cursor,
  keeps_cache (search_videos_loop fuel keyword count videos cursor).
Proof.
  induction fuel as [|fuel IH]; intros videos cursor; cbn [search_videos_loop];
    keeps_cache_loop IH.
Qed.

Lemma keeps_cache_search_videos fuel keyword count :
  keeps_cache (search_videos fuel keyword count).
Proof. apply keeps_cache_search. Qed.

#[local] Hint Resolve keeps_cache_search_videos : cache.

Lemma keeps_cache_user username sec_uid count : forall fuel videos cursor failures,
  keeps_cache (user_videos_loop fuel username sec_uid count videos cursor failures).
Proof.
  induction fuel as [|fuel IH]; intros videos cursor failures; cbn [user_videos_loop];
    keeps_cache_loop IH.
Qed.

Lemma keeps_cache_hashtag search_fuel hashtag challenge_id count :
  forall fuel videos cursor blocked,
    keeps_cache (hashtag_videos_loop fuel search_fuel hashtag challenge_id count videos
                   cursor blocked).
Proof.
  induction fuel as [|fuel IH]; intros videos cursor blocked; cbn [hashtag_videos_loop];
    keeps_cache_loop IH.
Qed.

Lemma cache_grows_nonempty a a' :
  cache_grows a a' -> cache_nonempty a -> cache_nonempty a'.
Proof.
  intros Hg Hn k v Hk. specialize (Hg k). rewrite Hk in Hg.
  destruct Hg as [Hold|Hv]; [by apply (Hn k)|exact Hv].
Qed.

(** ** Listing calls that store what they return *)

Lemma caches_finish key videos count : caches_result key (finish key videos count).
Proof.
  intros a out. unfold finish. rewrite bind_run. unfold _cache_set.
  destruct (py_take videos count) as [|x l]; cbn; by intros [= <-].
Qed.

Lemma caches_bind_driver {A} key (m : M SeleniumDriverAPI A)
    (k : A -> M PyktokAPI (list json)) :
  (forall x, caches_result key (k x)) -> caches_result key (with_driver m ≫= k).
Proof.
  intros Hk a out. rewrite bind_run, with_driver_run.
  destruct (m (_driver a)) as [[x|e|] d]; cbn [fst snd]; [|discriminate..].
  apply (Hk x (mkApi d (_last_ok a))).
Qed.

Lemma caches_page_items key (r : dict) field (k : list json -> M PyktokAPI (list json)) :
  (forall x, caches_result key (k x)) -> caches_result key (page_items r field ≫= k).
Proof.
  intros Hk a out. rewrite bind_run. unfold page_items.
  destruct (py_iter _); cbn [fst snd]; [apply Hk|discriminate].
Qed.

Lemma caches_out_of_fuel key : caches_result key out_of_fuel.
Proof. intros a out. discriminate. Qed.

Ltac caches_loop IH :=
  repeat first
    [ apply IH
    | apply caches_finish
    | apply caches_out_of_fuel
    | apply caches_bind_driver; intros ?
    | apply caches_page_items; intros ?
    | match goal with
      | |- caches_result _ (if ?b then _ else _) => destruct b
      | |- caches_result _ (match ?l with [] => _ | _ => _ end) => destruct l
      end ].

Lemma caches_sound sound_id count : forall fuel videos cursor,
  caches_result ("sound_videos:" +:+ sound_id)
    (sound_videos_loop fuel sound_id count videos cursor).
Proof.
  induction fuel as [|fuel IH]; intros videos cursor; cbn [sound_videos_loop];
    caches_loop IH.
Qed.

Lemma caches_playlist playlist_id count : forall fuel videos cursor,
  caches_result ("playlist_videos:" +:+ playlist_id)
    (playlist_videos_loop fuel playlist_id count videos cursor).
Proof.
  induction fuel as [|fuel IH]; intros videos cursor; cbn [playlist_videos_loop];
    caches_loop IH.
Qed.

Lemma caches_search keyword count : forall fuel videos cursor,
  caches_result ("search_videos:" +:+ keyword)
    (search_videos_loop fuel keyword count videos cursor).
Proof.
  induction fuel as [|fuel IH]; intros videos cursor; cbn [search_videos_loop];
    caches_loop IH.
Qed.

End Cache.

(** [_cache_set] followed by [_cache_get] on the same key: a value that is
    [None], an empty list or an empty dict is not stored, the lookup gives
    what it gave before; any other value is what the lookup gives.  Other
    keys and the driver are left as they were. *)
Theorem cache_set_stores_only_non_empty_values (key : string) (value default : json)
    (a : PyktokAPI) :
  let a' := snd (_cache_set key value a) in
  fst (_cache_set key value a) = Ret tt
  /\ fst (_cache_get key default a')
     = (if is_empty_value value then fst (_cache_get key default a) else Ret value)
  /\ (forall k, k <> key -> fst (_cache_get k default a') = fst (_cache_get k default a))
  /\ _driver a' = _driver a.
Proof.
  intros a'. subst a'. unfold _cache_set, _cache_get.
  destruct value as [| | | |[|x l]|[|kv d]]; cbn [fst snd _last_ok _driver is_empty_value];
    try done;
    (split; [done|]; split; [by rewrite lookup_insert_eq|]; split; [|done];
     intros k Hk; by rewrite lookup_insert_ne).
Qed.

(** No call of the client removes a cache entry or stores an empty value:
    after [get_user_info] and after each listing call, every entry of the
    cache is the one that was there before or a value that is not empty,
    and a cache without empty values stays so. *)
Theorem client_calls_keep_the_cache `{External} (fuel : nat) (count : Z) (name : string)
    (a : PyktokAPI) :
  let kept (a' : PyktokAPI) :=
    cache_grows a a' /\ (cache_nonempty a -> cache_nonempty a') in
  kept (snd (get_user_info name a))
  /\ kept (snd (get_user_videos fuel name count a))
  /\ kept (snd (get_hashtag_videos fuel name count a))
  /\ kept (snd (get_video_comments fuel name count a))
  /\ kept (snd (search_videos fuel name count a))
  /\ kept (snd (get_sound_videos fuel name count a))
  /\ kept (snd (get_playlist_videos fuel name count a)).
Proof.
  intros kept.
  assert (Hkept : forall a', cache_grows a a' -> kept a').
  { intros a' Hg. split; [exact Hg|by apply cache_grows_nonempty]. }
  assert (Huser : keeps_cache (get_user_videos fuel name count)).
  { unfold get_user_videos. apply keeps_cache_bind; [apply keeps_cache_user_info|].
    intros resp. destruct (no_response resp); [apply keeps_cache_ret|].
    destruct (negb _); [apply keeps_cache_ret|apply keeps_cache_user]. }
  assert (Hhashtag : keeps_cache (get_hashtag_videos fuel name count)).
  { unfold get_hashtag_videos. apply keeps_cache_bind; [apply keeps_cache_driver|].
    intros resp. destruct (no_response resp); [apply keeps_cache_ret|].
    destruct (negb _); [apply keeps_cache_ret|apply keeps_cache_hashtag]. }
  split; [apply Hkept, (keeps_cache_user_info name a)|].
  split; [apply Hkept, (Huser a)|].
  split; [apply Hkept, (Hhashtag a)|].
  split; [apply Hkept, (keeps_cache_comments (extract_vid name) count fuel [] (JNum 0) a)|].
  split; [apply Hkept, (keeps_cache_search name count fuel [] (JNum 0) a)|].
  split; [apply Hkept, (keeps_cache_sound name count fuel [] (JNum 0) a)
         |apply Hkept, (keeps_cache_playlist name count fuel [] (JNum 0) a)].
Qed.

(** [get_sound_videos], [get_playlist_videos] and [search_videos] leave
    through [_cache_set] on every path: when one of them returns a list
    that is not empty, the cache holds that list under the key of the call,
    and nothing else in the cache has changed; when it returns the empty
    list, the cache is as it was. *)
Theorem listing_results_are_cached `{External} (fuel : nat) (count : Z) (name : string) :
  caches_result ("sound_videos:" +:+ name) (get_sound_videos fuel name count)
  /\ caches_result ("playlist_videos:" +:+ name) (get_playlist_videos fuel name count)
  /\ caches_result ("search_videos:" +:+ name) (search_videos fuel name count).
Proof.
  split; [apply (caches_sound name count fuel [] (JNum 0))|].
  split; [apply (caches_playlist name count fuel [] (JNum 0))
         |apply (caches_search name count fuel [] (JNum 0))].
Qed.

(** * Listing calls that give up without storing what they return *)

Section Uncached.
Context `{External}.

Lemma gives_up_silent endpoint before (m : M PyktokAPI (list json)) :
  (forall a, record (snd (m a)) = record a /\ _last_ok (snd (m a)) = _last_ok a) ->
  gives_up_uncached endpoint before m.
Proof.
  intros Hm a. destruct (Hm a) as [Hrec Hc]. exists []. rewrite app_nil_r. by split.
Qed.

(** After a page, whatever is done without another call may store. *)
Lemma gives_up_not endpoint before (m : M PyktokAPI (list json)) :
  last before <> Some Failed ->
  (forall a, record (snd (m a)) = record a) ->
  gives_up_uncached endpoint before m.
Proof.
  intros Hb Hm a. exists []. rewrite !app_nil_r. split; [apply Hm|]. by intros Hl.
Qed.

Lemma gives_up_finish endpoint before key videos count :
  last before <> Some Failed ->
  gives_up_uncached endpoint before (finish key videos count).
Proof.
  intros Hb. apply gives_up_not; [exact Hb|]. intros a.
  destruct (finish_run key videos count a) as [_ Hd]. unfold record. by rewrite Hd.
Qed.

Lemma gives_up_step ep before params (k : option dict -> M PyktokAPI (list json)) :
  (forall resp,
      gives_up_uncached ep (before ++ [if no_response resp then Failed else Page])
        (k resp)) ->
  gives_up_uncached ep before (resp ← with_driver (fetch_api ep params); k resp).
Proof.
  intros Hk a. rewrite bind_run.
  destruct (client_fetch ep params a) as (inner & Hall & Hrec & Hcache & Hfuel).
  destruct (with_driver (fetch_api ep params) a) as [[resp|e|] a1];
    cbn [fst snd] in *; [| |done].
  - destruct (Hk resp a1) as (evs & Hrec' & Hc).
    exists (fetch_record ep params inner (Ret resp) ++ evs).
    split; [by rewrite Hrec', Hrec, app_assoc|].
    rewrite outline_app, (outline_fetch_record ep params inner _ Hall), app_assoc.
    intros Hl. by rewrite (Hc Hl).
  - exists (fetch_record ep params inner (Raise e)). split; [exact Hrec|].
    intros _. exact Hcache.
Qed.

Lemma gives_up_after {A} ep before (m1 : M PyktokAPI A) evs1
    (k : A -> M PyktokAPI (list json)) :
  (forall a, (exists x, fst (m1 a) = Ret x)
             /\ record (snd (m1 a)) = record a ++ evs1
             /\ _last_ok (snd (m1 a)) = _last_ok a) ->
  (forall x, gives_up_uncached ep (before ++ outline ep evs1) (k x)) ->
  gives_up_uncached ep before (m1 ≫= k).
Proof.
  intros Hm1 Hk a. rewrite bind_run. destruct (Hm1 a) as ([x Hx] & Hrec & Hc1).
  destruct (m1 a) as [r a1]. cbn [fst snd] in *. subst r.
  destruct (Hk x a1) as (evs & Hrec' & Hc). exists (evs1 ++ evs).
  split; [by rewrite Hrec', Hrec, app_assoc|].
  rewrite outline_app, app_assoc. intros Hl. by rewrite (Hc Hl).
Qed.

Lemma invalidate_keeps_cache (a : PyktokAPI) :
  (exists x, fst (with_driver (set_session_params None;; log EvInvalidate) a) = Ret x)
  /\ record (snd (with_driver (set_session_params None;; log EvInvalidate) a))
     = record a ++ [EvInvalidate]
  /\ _last_ok (snd (with_driver (set_session_params None;; log EvInvalidate) a))
     = _last_ok a.
Proof.
  destruct (with_driver_invalidate a) as [Hr Hrec]. split; [exact Hr|]. split; [exact Hrec|].
  by rewrite with_driver_run.
Qed.

Lemma go_keeps_cache (a : PyktokAPI) :
  (exists x, fst (with_driver (try_pass go) a) = Ret x)
  /\ record (snd (with_driver (try_pass go) a)) = record a ++ []
  /\ _last_ok (snd (with_driver (try_pass go) a)) = _last_ok a.
Proof.
  destruct (with_driver_go a) as [Hr Hrec]. split; [exact Hr|]. split; [exact Hrec|].
  by rewrite with_driver_run.
Qed.

Lemma last_snoc_ne {A} (l : list A) (x y : A) : x <> y -> last (l ++ [x]) <> Some y.
Proof. intros Hne. rewrite last_snoc. congruence. Qed.

(** The success branch of a loop. *)
Ltac uncached_page IH :=
  unfold page_items;
  match goal with
  | |- context [py_iter ?j] =>
      destruct (py_iter j) as [?items|];
      [|by apply gives_up_not; [by apply last_snoc_ne|intros a0; rewrite bind_run]]
  end;
  match goal with
  | |- gives_up_uncached _ _ (mret ?x ≫= ?k) =>
      apply (gives_up_after _ _ (mret x) []);
      [intros a0; split; [by eexists|split; [by rewrite app_nil_r|done]]|];
      intros ?; cbn [outline flat_map]; rewrite app_nil_r
  end;
  match goal with
  | |- context [negb (py_truthy ?j)] =>
      destruct (negb (py_truthy j));
      [apply gives_up_finish; by apply last_snoc_ne
      |apply IH; by apply last_snoc_ne]
  end.

Lemma video_comments_loop_gives_up vid count : forall fuel comments cursor before,
  last before <> Some Failed ->
  gives_up_uncached "video_comments" before
    (video_comments_loop fuel vid count comments cursor).
Proof.
  induction fuel as [|fuel IH]; intros comments cursor before Hb;
    cbn [video_comments_loop];
    (destruct (Z.ltb (Z.of_nat (length comments)) count);
     [|by apply gives_up_finish]).
  { by apply gives_up_silent. }
  apply gives_up_step. intros resp. destruct (no_response resp).
  - by apply gives_up_silent.
  - uncached_page IH.
Qed.

Lemma user_videos_loop_gives_up username sec_uid count :
  forall fuel videos cursor failures before,
    last before <> Some Failed ->
    gives_up_uncached "user_videos" before
      (user_videos_loop fuel username sec_uid count videos cursor failures).
Proof.
  induction fuel as [|fuel IH]; intros videos cursor failures before Hb;
    cbn [user_videos_loop];
    (destruct (Z.ltb (Z.of_nat (length videos)) count);
     [|by apply gives_up_finish]).
  { by apply gives_up_silent. }
  apply gives_up_step. intros resp. destruct (no_response resp).
  - destruct (Z.leb max_consecutive_failures (failures + 1)).
    + by apply gives_up_silent.
    + apply (gives_up_after _ _ _ [EvInvalidate]); [apply invalidate_keeps_cache|intros _].
      apply (gives_up_after _ _ _ []); [apply go_keeps_cache|intros _].
      cbn [outline flat_map mark_of app]. rewrite app_nil_r, <- app_assoc.
      apply IH. rewrite app_assoc. by apply last_snoc_ne.
  - uncached_page IH.
Qed.

End Uncached.

(** [get_video_comments] and [get_user_videos] give up without storing
    what they return.  When the last call on the endpoint of the listing
    fails (for [get_user_videos] it is then the fourth failure in a row),
    the function leaves through [return ...[:count]], before
    [_cache_set]: the cache is left as it was by [get_video_comments], and
    the entry under the key of the listing is left as it was by
    [get_user_videos], whatever had been collected from the pages. *)
Theorem listings_that_give_up_store_nothing `{External} (fuel : nat) (name : string)
    (count : Z) (a : PyktokAPI) :
  (let run := get_video_comments fuel name count a in
   exists evs,
     record (snd run) = record a ++ evs
     /\ (last (outline "video_comments" evs) = Some Failed ->
         _last_ok (snd run) = _last_ok a))
  /\ (let run := get_user_videos fuel name count a in
      let key := "user_videos:" +:+ norm_username name in
      exists evs,
        record (snd run) = record a ++ evs
        /\ (last (outline "user_videos" evs) = Some Failed ->
            _last_ok (snd run) !! key = _last_ok a !! key)).
Proof.
  split.
  { intros run. subst run. unfold get_video_comments.
    apply (video_comments_loop_gives_up (extract_vid name) count fuel [] (JNum 0) []).
    done. }
  intros run key. subst run.
  unfold get_user_videos. rewrite bind_run.
  destruct (get_user_info_outline (norm_username name) a) as (evs0 & Hrec0 & Ho0 & Hfuel).
  assert (Hkey : _last_ok (snd (get_user_info (norm_username name) a)) !! key
                 = _last_ok a !! key).
  { unfold get_user_info. rewrite bind_run, with_driver_run. cbn [fst snd].
    destruct (try_pass go (_driver a)) as [[[]|e|] d0]; cbn [fst snd]; [|done..].
    rewrite bind_run, with_driver_run. cbn [fst snd _driver _last_ok].
    destruct (fetch_api _ _ d0) as [[resp|e|] d1]; cbn [fst snd]; [|done..].
    rewrite bind_run. unfold _cache_set.
    assert (Hne : "user_detail:" +:+ norm_username (norm_username name) <> key).
    { subst key. generalize (norm_username (norm_username name)).
      generalize (norm_username name). intros u v Heq.
      cbv [String.append] in Heq. congruence. }
    destruct (resp_json resp) as [| | | |[|x l]|[|kv d]];
      cbn [fst snd _last_ok mret M_ret]; try done; by rewrite lookup_insert_ne. }
  destruct (get_user_info (norm_username name) a) as [[resp|e|] a1];
    cbn [fst snd] in *; [| |done].
  2:{ exists evs0. by rewrite Ho0. }
  destruct (no_response resp); [exists evs0; by rewrite Ho0|].
  destruct (negb _); [exists evs0; by rewrite Ho0|].
  destruct (user_videos_loop_gives_up (norm_username name)
              (_safe (resp_json resp) ["userInfo"; "user"; "secUid"] (JStr "")) count
              fuel [] (JNum 0) 0 [] ltac:(done) a1) as (evs & Hrec & Hc).
  exists (evs0 ++ evs). split; [by rewrite Hrec, Hrec0, app_assoc|].
  rewrite outline_app, Ho0. intros Hl. by rewrite (Hc Hl).
Qed.

(** * The helpers when the fetch comes back empty and the cache does not *)

Section SaveCached.
Context `{External}.

Lemma cached_fallback_cached key count l (a : PyktokAPI) :
  _last_ok a !! key = Some (JArr l) -> l <> [] ->
  cached_fallback key [] count a = (Ret (py_take l count), a).
Proof.
  intros Hsome Hl. unfold cached_fallback. rewrite bind_run. unfold _cache_get.
  rewrite Hsome. by destruct l.
Qed.

Lemma save_cached_after (fetch : M PyktokAPI (list json)) key count l
    (rest : list json -> M World string) (w : World) :
  fst (fetch (api w)) = Ret [] ->
  _last_ok (snd (fetch (api w))) !! key = Some (JArr l) ->
  l <> [] ->
  (videos ← with_api fetch; videos ← with_api (cached_fallback key videos count);
   rest videos) w
  = rest (py_take l count) (mkWorld (snd (fetch (api w))) (disk w)).
Proof.
  intros Hfetch Hcache Hl. rewrite bind_run, with_api_run, Hfetch.
  rewrite bind_run, with_api_run. cbn [api disk].
  by rewrite (cached_fallback_cached key count l _ Hcache Hl).
Qed.

End SaveCached.

(** When the fetch of a [save_*_csv] helper returns no items and the cache
    holds a list that is not empty under the helper's key, the helper goes
    on with the first [count] items of that list ([cached[:count]]) as if
    they had been fetched: it writes their rows merged with the file, or,
    if the slice is empty, the empty file. *)
Theorem save_csv_falls_back_on_the_cache `{External} (fuel : nat) (count : Z)
    (filename : option string) (l : list json) (w : World) :
  l <> [] ->
  let video_rows path videos :=
    match videos with
    | [] => save_nothing path
    | _ => save_rows path (map_rows generate_video_data_row videos) "video_id"
    end in
  (forall username,
      let fetched := get_user_videos fuel username count (api w) in
      fst fetched = Ret [] ->
      _last_ok (snd fetched) !! ("user_videos:" +:+ norm_username username)
      = Some (JArr l) ->
      save_user_videos_csv fuel username count filename w
      = video_rows (filename_or filename "user_videos" username) (py_take l count)
          (mkWorld (snd fetched) (disk w)))
  /\ (forall hashtag,
      let fetched := get_hashtag_videos fuel hashtag count (api w) in
      fst fetched = Ret [] ->
      _last_ok (snd fetched) !! ("hashtag_videos:" +:+ norm_hashtag hashtag)
      = Some (JArr l) ->
      save_hashtag_videos_csv fuel hashtag count filename w
      = video_rows (filename_or filename "hashtag_videos" hashtag) (py_take l count)
          (mkWorld (snd fetched) (disk w)))
  /\ (forall video_id,
      let fetched := get_video_comments fuel video_id count (api w) in
      fst fetched = Ret [] ->
      _last_ok (snd fetched) !! ("video_comments:" +:+ extract_vid video_id)
      = Some (JArr l) ->
      save_video_comments_csv fuel video_id count filename w
      = match py_take l count with
        | [] => save_nothing (filename_or filename "video_comments" video_id)
        | comments =>
            save_rows (filename_or filename "video_comments" video_id)
              (map_rows (fun c => _comment_export_row c (extract_vid video_id)) comments)
              "cid"
        end (mkWorld (snd fetched) (disk w)))
  /\ (forall sound_id,
      let fetched := get_sound_videos fuel sound_id count (api w) in
      fst fetched = Ret [] ->
      _last_ok (snd fetched) !! ("sound_videos:" +:+ sound_id) = Some (JArr l) ->
      save_sound_videos_csv fuel sound_id count filename w
      = video_rows (filename_or filename "sound_videos" sound_id) (py_take l count)
          (mkWorld (snd fetched) (disk w)))
  /\ (forall playlist_id,
      let fetched := get_playlist_videos fuel playlist_id count (api w) in
      fst fetched = Ret [] ->
      _last_ok (snd fetched) !! ("playlist_videos:" +:+ playlist_id) = Some (JArr l) ->
      save_playlist_videos_csv fuel playlist_id count filename w
      = video_rows (filename_or filename "playlist_videos" playlist_id) (py_take l count)
          (mkWorld (snd fetched) (disk w)))
  /\ (forall keyword,
      let fetched := search_videos fuel keyword count (api w) in
      fst fetched = Ret [] ->
      _last_ok (snd fetched) !! ("search_videos:" +:+ keyword) = Some (JArr l) ->
      save_search_videos_csv fuel keyword count filename w
      = video_rows (filename_or filename "search_videos" keyword) (py_take l count)
          (mkWorld (snd fetched) (disk w))).
Proof.
  intros Hl video_rows.
  split; [|split; [|split; [|split; [|split]]]]; intros x fetched Hfetch Hcache.
  - unfold save_user_videos_csv.
    by rewrite (save_cached_after _ _ _ l _ w Hfetch Hcache Hl).
  - unfold save_hashtag_videos_csv.
    by rewrite (save_cached_after _ _ _ l _ w Hfetch Hcache Hl).
  - unfold save_video_comments_csv.
    rewrite (save_cached_after _ _ _ l _ w Hfetch Hcache Hl). by destruct (py_take l count).
  - unfold save_sound_videos_csv.
    by rewrite (save_cached_after _ _ _ l _ w Hfetch Hcache Hl).
  - unfold save_playlist_videos_csv.
    by rewrite (save_cached_after _ _ _ l _ w Hfetch Hcache Hl).
  - unfold save_search_videos_csv.
    by rewrite (save_cached_after _ _ _ l _ w Hfetch Hcache Hl).
Qed.

(** A browser on which the signing capability never appears, and a cache
    that holds one video of the sound: the video is what is saved. *)
Lemma save_csv_falls_back_witness :
  let w := mkWorld
             (mkApi (browser (JBool false) [])
                ({["sound_videos:7" := JArr [video "1"]]} : gmap string json))
             (∅ : files) in
  save_sound_videos_csv (H := pandas) 5 "7" 30 None w
  = save_rows (H := pandas) (filename_or None "sound_videos" "7")
      (map_rows (generate_video_data_row (H := pandas)) [video "1"]) "video_id"
      (mkWorld (snd (get_sound_videos (H := pandas) 5 "7" 30 (api w))) (disk w)).
Proof.
  intros w.
  apply (proj1 (proj2 (proj2 (proj2
           (save_csv_falls_back_on_the_cache (H := pandas) 5 30 None [video "1"] w
              ltac:(discriminate))))) "7").
  - vm_compute; reflexivity.
  - vm_compute; reflexivity.
Defined.

(** * How long a search runs *)

Section SearchTerminates.
Context `{External}.

Lemma finish_returns key videos count (a : PyktokAPI) :
  fst (finish key videos count a) <> OutOfFuel.
Proof. destruct (finish_run key videos count a) as [Hr _]. by rewrite Hr. Qed.

(** A page with videos adds at least one when there was room. *)
Lemma append_items_longer videos item items count :
  Z.of_nat (length videos) < count ->
  (length videos < length (append_items videos (item :: items) count))%nat.
Proof.
  intros Hlt. rewrite append_items_spec by exact Hlt.
  rewrite length_take, length_app. simpl. lia.
Qed.

Lemma search_videos_loop_terminates keyword count : forall fuel videos cursor a,
  (Z.to_nat count - length videos <= fuel)%nat ->
  fst (search_videos_loop fuel keyword count videos cursor a) <> OutOfFuel.
Proof.
  induction fuel as [|fuel IH]; intros videos cursor a Hfuel; cbn [search_videos_loop];
    (destruct (Z.ltb (Z.of_nat (length videos)) count) eqn:Hlt;
     [apply Z.ltb_lt in Hlt|apply finish_returns]); [lia|].
  rewrite bind_run.
  match goal with |- context [with_driver (fetch_api ?ep ?params) a] =>
    destruct (client_fetch ep params a) as (_ & _ & _ & _ & Hf);
    destruct (with_driver (fetch_api ep params) a) as [[resp|e|] a1] end;
    cbn [fst snd] in *; [|done..].
  destruct (no_response resp); [apply finish_returns|].
  destruct (_extract_videos _) as [|item items]; [apply finish_returns|].
  destruct (negb _); [apply finish_returns|]. apply IH.
  pose proof (append_items_longer videos item items count Hlt). lia.
Qed.

End SearchTerminates.

(** The loop of [search_videos] runs at most [count] times: every pass that
    goes on has added at least one video.  So with fuel for [count] passes
    the call comes to an end, whatever the browser answers. *)
Theorem search_videos_ends_within_count_passes `{External} (fuel : nat) (keyword : string)
    (count : Z) (a : PyktokAPI) :
  (Z.to_nat count <= fuel)%nat ->
  fst (search_videos fuel keyword count a) <> OutOfFuel.
Proof.
  intros Hfuel. unfold search_videos.
  apply (search_videos_loop_terminates keyword count fuel [] (JNum 0) a). simpl. lia.
Qed.

Lemma search_videos_ends_witness :
  fst (search_videos (H := pandas) 2 "cats" 2
         (client (ready_browser
                    [answer (JObj [("item_list", JArr [video "1"]); ("has_more", JBool true)]);
                     answer (JObj [("item_list", JArr [video "2"]); ("has_more", JBool true)])])))
  <> OutOfFuel.
Proof.
  apply (search_videos_ends_within_count_passes (H := pandas) 2 "cats" 2). simpl. lia.
Defined.

(** * A listing that does not end by itself *)

Section Endless.
Context `{External}.

(** One call on a browser that is ready and answers with an empty page that
    asks for more. *)
Lemma fetch_empty_page sound_id cursor scripts cookies answers tr :
  let d := mkDriver (ScriptReturns (JBool true) :: ScriptReturns (JBool true) :: scripts) []
             (Some [] :: cookies) (answer (JObj empty_page_with_more) :: answers) []
             (Some []) tr in
  exists tr',
    fetch_api "sound_videos"
      [("musicID", JStr sound_id); ("count", JNum 30); ("cursor", cursor)] d
    = (Ret (Some empty_page_with_more), mkDriver scripts [] cookies answers [] (Some []) tr').
Proof.
  intros d.
  set (run := fetch_api "sound_videos"
                [("musicID", JStr sound_id); ("count", JNum 30); ("cursor", cursor)] d).
  assert (Hr : fst run = Ret (Some empty_page_with_more)) by (vm_compute; reflexivity).
  assert (Hs : script_tape (snd run) = scripts) by (vm_compute; reflexivity).
  assert (Hn : nav_tape (snd run) = []) by (vm_compute; reflexivity).
  assert (Hc : cookie_tape (snd run) = cookies) by (vm_compute; reflexivity).
  assert (Ha : async_tape (snd run) = answers) by (vm_compute; reflexivity).
  assert (Hd : random_tape (snd run) = []) by (vm_compute; reflexivity).
  assert (Hm : _hidden_api_session_params (snd run) = Some []) by (vm_compute; reflexivity).
  clearbody run. destruct run as [r [st nt ct at' rt memo tr']]. cbn in *. subst.
  by exists tr'.
Qed.

Lemma sound_videos_loop_endless sound_id cache : forall n tr,
  fst (sound_videos_loop n sound_id 1 [] (JNum 0)
         (mkApi (mkDriver (repeat (ScriptReturns (JBool true)) (2 * n)) []
                   (repeat (Some []) n) (repeat (answer (JObj empty_page_with_more)) n) []
                   (Some []) tr) cache))
  = OutOfFuel.
Proof.
  induction n as [|n IH]; intros tr; [reflexivity|].
  replace (2 * S n)%nat with (S (S (2 * n))) by lia. cbn [repeat sound_videos_loop].
  change (Z.ltb (Z.of_nat (@length json [])) 1) with true. cbv beta iota.
  rewrite bind_run, with_driver_run. cbn [_driver _last_ok].
  destruct (fetch_empty_page sound_id (JNum 0) (repeat (ScriptReturns (JBool true)) (2 * n))
              (repeat (Some []) n) (repeat (answer (JObj empty_page_with_more)) n) tr)
    as [tr' ->].
  cbn [fst snd no_response empty_page_with_more]. rewrite bind_run.
  unfold page_items. cbn [py_get dict_get String.eqb Ascii.eqb Bool.eqb py_iter mret M_ret
    fst snd append_items py_truthy negb].
  apply IH.
Qed.

End Endless.

(** [get_sound_videos] has no bound on its passes: on a browser that
    answers every request with an empty page that asks for more, the loop
    is still running after any number of passes (each of them a call). *)
Theorem get_sound_videos_can_outlast_any_fuel `{External} (fuel : nat) (sound_id : string) :
  fst (get_sound_videos fuel sound_id 1 (client (patient_browser fuel))) = OutOfFuel.
Proof. apply sound_videos_loop_endless. Qed.

(** * Rows and what saving them can raise *)

Section Rows.
Context `{External}.

Lemma map_rows_spec (f : json -> outcome row) (ok : json -> bool) (key : string)
    (text : json -> string) (l : list json) :
  (forall x, ok x = true -> exists r, f x = Ret r /\ py_in key r = true
                                      /\ key_str key r = text x) ->
  (forall x, ok x = false -> f x = Raise AttributeError) ->
  match map_rows f l with
  | Ret rows =>
      Forall (fun x => ok x = true) l
      /\ length rows = length l
      /\ Forall (fun r => py_in key r = true) rows
      /\ map (key_str key) rows = map text l
  | Raise e => e = AttributeError /\ Exists (fun x => ok x = false) l
  | OutOfFuel => False
  end.
Proof.
  intros Hok Hbad. induction l as [|x l IH]; cbn [map_rows]; [by repeat constructor|].
  destruct (ok x) eqn:Hx.
  - destruct (Hok x Hx) as (r & -> & Hin & Hkey).
    destruct (map_rows f l) as [rows|e|]; [| |done].
    + destruct IH as (Hall & Hlen & Hcols & Hkeys).
      split; [by constructor|]. split; [simpl; by rewrite Hlen|].
      split; [by constructor|]. simpl. by rewrite Hkey, Hkeys.
    + destruct IH as [-> Hex]. split; [done|by apply Exists_cons_tl].
  - rewrite (Hbad x Hx). split; [done|by apply Exists_cons_hd].
Qed.

Lemma video_row_ok (v : json) :
  is_dict v = true ->
  exists r, generate_video_data_row v = Ret r /\ py_in "video_id" r = true
            /\ key_str "video_id" r = video_key v.
Proof. destruct v; try done. intros _. eexists. by repeat split. Qed.

Lemma video_row_bad (v : json) :
  is_dict v = false -> generate_video_data_row v = Raise AttributeError.
Proof. by destruct v. Qed.

Lemma comment_row_ok aweme_id (c : json) :
  is_comment c = true ->
  exists r, _comment_export_row c aweme_id = Ret r /\ py_in "cid" r = true
            /\ key_str "cid" r = comment_key c.
Proof.
  destruct c as [| | | | |d]; try done. unfold is_comment, _comment_export_row.
  destruct (py_get d "user" (JObj [])); try done. intros _. eexists. by repeat split.
Qed.

Lemma comment_row_bad aweme_id (c : json) :
  is_comment c = false -> _comment_export_row c aweme_id = Raise AttributeError.
Proof.
  destruct c as [| | | | |d]; try done. unfold is_comment, _comment_export_row.
  by destruct (py_get d "user" (JObj [])).
Qed.

Lemma in_columns_spec k (cols : list string) :
  existsb (String.eqb k) cols = true <-> k ∈ cols.
Proof.
  rewrite existsb_exists. split.
  - intros (x & Hx & Heq). apply String.eqb_eq in Heq. subst. by apply list_elem_of_In.
  - intros Hin. exists k. split; [by apply list_elem_of_In|apply String.eqb_refl].
Qed.

Lemma add_columns_incl k r : forall cols, k ∈ cols -> k ∈ add_columns cols r.
Proof.
  induction r as [|[k' v] r IH]; intros cols Hin; simpl; [done|].
  apply IH. destruct (existsb _ cols); [done|]. apply elem_of_app. by left.
Qed.

Lemma add_columns_key k (r : row) : forall cols, py_in k r = true -> k ∈ add_columns cols r.
Proof.
  unfold py_in. induction r as [|[k' v] r IH]; intros cols Hin; simpl in *; [done|].
  destruct (String.eqb_spec k' k) as [->|Hne].
  - apply add_columns_incl. destruct (existsb _ cols) eqn:E.
    + by apply in_columns_spec in E.
    + apply elem_of_app. right. by apply list_elem_of_singleton.
  - by apply IH.
Qed.

Lemma csv_columns_from_incl k df : forall cols, k ∈ cols -> k ∈ csv_columns_from cols df.
Proof.
  induction df as [|r df IH]; intros cols Hin; simpl; [done|].
  by apply IH, add_columns_incl.
Qed.

(** The frame of rows that all have a key has the column of the key. *)
Lemma has_column_of_rows key (rows : list row) :
  rows <> [] -> Forall (fun r => py_in key r = true) rows ->
  has_column key (DataFrame rows) = true.
Proof.
  intros Hne Hall. destruct Hall as [|r rows Hr _]; [done|].
  unfold has_column, DataFrame. cbn [columns]. apply in_columns_spec.
  unfold csv_columns. simpl. by apply csv_columns_from_incl, add_columns_key.
Qed.

(** A column of the new frame is a column of the merged frame. *)
Lemma has_column_concat key (old new : frame) :
  has_column key new = true -> has_column key (concat old new) = true.
Proof.
  unfold has_column, concat. cbn [columns]. intros Hn.
  rewrite existsb_app. destruct (existsb (String.eqb key) (columns old)) eqn:Ho; [done|].
  simpl. apply in_columns_spec. apply list_elem_of_In, filter_In.
  split; [by apply list_elem_of_In, in_columns_spec|]. by rewrite Ho.
Qed.

(** What [save_rows] does with rows whose frame has the key column. *)
Lemma save_rows_keyed filename (rows : list row) key (w : World) :
  has_column key (DataFrame rows) = true ->
  let run := save_rows filename (Ret rows) key w in
  match fst run with
  | Ret f =>
      f = filename /\ can_write filename = true /\ is_Some (disk (snd run) !! filename)
  | Raise e =>
      snd run = w
      /\ ((e = PandasError
           /\ exists file, disk w !! filename = Some file /\ read_csv file = None)
          \/ (e = OSError /\ can_write filename = false))
  | OutOfFuel => False
  end.
Proof.
  intros Hcol run. subst run. unfold save_rows, mergeAndWrite, _deduplicate.
  destruct (disk w !! filename) as [file|] eqn:Hfile.
  - destruct (read_csv file) as [old|] eqn:Hread.
    + rewrite (has_column_concat key old _ Hcol). unfold to_csv.
      destruct (can_write filename); cbn [fst snd disk].
      * split; [done|]. split; [done|]. rewrite lookup_insert_eq. by eexists.
      * split; [done|]. by right.
    + cbn [fst snd]. split; [done|]. left. split; [done|]. by exists file.
  - rewrite Hcol. unfold to_csv. destruct (can_write filename); cbn [fst snd disk].
    + split; [done|]. split; [done|]. rewrite lookup_insert_eq. by eexists.
    + split; [done|]. by right.
Qed.

End Rows.

(** The rows of a list of items.  [generate_video_data_row] makes a row of
    every dict, with the column [video_id] whose text is [str] of the id of
    the video, and raises [AttributeError] on the first item that is not a
    dict; [_comment_export_row] does the same for comments and the column
    [cid], and needs the [user] of the comment, if there is one, to be a
    dict. *)
Theorem rows_are_keyed_by_the_ids `{External} (videos comments : list json)
    (aweme_id : string) :
  match map_rows generate_video_data_row videos with
  | Ret rows =>
      Forall (fun v => is_dict v = true) videos
      /\ length rows = length videos
      /\ Forall (fun r => py_in "video_id" r = true) rows
      /\ map (key_str "video_id") rows = map video_key videos
  | Raise e => e = AttributeError /\ Exists (fun v => is_dict v = false) videos
  | OutOfFuel => False
  end
  /\ match map_rows (fun c => _comment_export_row c aweme_id) comments with
     | Ret rows =>
         Forall (fun c => is_comment c = true) comments
         /\ length rows = length comments
         /\ Forall (fun r => py_in "cid" r = true) rows
         /\ map (key_str "cid") rows = map comment_key comments
     | Raise e => e = AttributeError /\ Exists (fun c => is_comment c = false) comments
     | OutOfFuel => False
     end.
Proof.
  split.
  - apply (map_rows_spec generate_video_data_row is_dict "video_id" video_key);
      [apply video_row_ok|apply video_row_bad].
  - apply (map_rows_spec (fun c => _comment_export_row c aweme_id) is_comment "cid"
             comment_key); [apply comment_row_ok|apply comment_row_bad].
Qed.

(** Saving the rows of fetched videos raises in three cases only: an item
    is not a dict ([AttributeError], before the file is touched); the file
    that is already at the path cannot be read by [pd.read_csv]
    ([PandasError], the file being left as it is); the path cannot be
    written ([OSError] of [to_csv], the files being left as they are).  It
    never raises [KeyError] for the key column, and when it returns, it
    returns the file name, the path could be written and the file is
    there. *)
Theorem saving_video_rows_raises_in_three_cases `{External} (filename : string)
    (videos : list json) (w : World) :
  videos <> [] ->
  let run := save_rows filename (map_rows generate_video_data_row videos) "video_id" w in
  match fst run with
  | Ret f =>
      f = filename /\ can_write filename = true /\ is_Some (disk (snd run) !! filename)
  | Raise e =>
      snd run = w
      /\ ((e = AttributeError /\ Exists (fun v => is_dict v = false) videos)
          \/ (e = PandasError
              /\ exists file, disk w !! filename = Some file /\ read_csv file = None)
          \/ (e = OSError /\ can_write filename = false))
  | OutOfFuel => False
  end.
Proof.
  intros Hne run. subst run.
  pose proof (map_rows_spec generate_video_data_row is_dict "video_id" video_key videos
                video_row_ok video_row_bad) as Hrows.
  destruct (map_rows generate_video_data_row videos) as [rows|e|]; [| |done].
  - destruct Hrows as (_ & Hlen & Hcols & _).
    assert (Hcol : has_column "video_id" (DataFrame rows) = true).
    { apply has_column_of_rows; [|exact Hcols]. intros ->. by destruct videos. }
    pose proof (save_rows_keyed filename rows "video_id" w Hcol) as Hsave.
    cbv zeta in Hsave.
    destruct (fst (save_rows filename (Ret rows) "video_id" w)) as [f|e|]; [done| |done].
    destruct Hsave as (Hw & Hcase). split; [exact Hw|]. by right.
  - destruct Hrows as [-> Hex]. cbn [save_rows fst snd]. split; [done|]. by left.
Qed.

Lemma saving_video_rows_witness :
  let run := save_rows (H := pandas) "videos.csv"
               (map_rows (generate_video_data_row (H := pandas)) [video "1"; JNum 2])
               "video_id" (world (browser JNull [])) in
  match fst run with
  | Ret f =>
      f = "videos.csv" /\ can_write (External := pandas) "videos.csv" = true
      /\ is_Some (disk (snd run) !! "videos.csv")
  | Raise e =>
      snd run = world (browser JNull [])
      /\ ((e = AttributeError /\ Exists (fun v => is_dict v = false) [video "1"; JNum 2])
          \/ (e = PandasError
              /\ exists file, disk (world (browser JNull [])) !! "videos.csv" = Some file
                              /\ read_csv (External := pandas) file = None)
          \/ (e = OSError /\ can_write (External := pandas) "videos.csv" = false))
  | OutOfFuel => False
  end.
Proof.
  apply (saving_video_rows_raises_in_three_cases (H := pandas) "videos.csv"
           [video "1"; JNum 2] (world (browser JNull []))).
  discriminate.
Defined.

(** A helper that found nothing and wrote its file leaves a file without
    columns, which [pd.read_csv] cannot read; so when the next call on the
    same path has rows to save, [_deduplicate] raises on the file and
    nothing is written. *)
Theorem saving_after_an_empty_save_raises `{External} (filename : string)
    (rows : list row) (key : string) (w : World) :
  read_csv (mkCsv [] []) = None ->
  fst (save_nothing filename w) = Ret filename ->
  let w1 := snd (save_nothing filename w) in
  save_rows filename (Ret rows) key w1 = (Raise PandasError, w1).
Proof.
  intros Hread Hwritten w1. subst w1. revert Hwritten.
  unfold save_nothing, save_rows, mergeAndWrite, _deduplicate, to_csv.
  destruct (can_write filename); [intros _|discriminate].
  cbn [snd disk api]. rewrite lookup_insert_eq.
  change (csv_of empty_frame) with (mkCsv [] []). by rewrite Hread.
Qed.

Lemma saving_after_an_empty_save_witness :
  let w1 := snd (save_nothing (H := pandas) "videos.csv" (world (browser JNull []))) in
  save_rows (H := pandas) "videos.csv" (Ret [video_id_row "1"]) "video_id" w1
  = (Raise PandasError, w1).
Proof.
  apply (saving_after_an_empty_save_raises (H := pandas) "videos.csv" [video_id_row "1"]
           "video_id" (world (browser JNull []))).
  - reflexivity.
  - reflexivity.
Defined.

(** * Ids and file names *)

Section Names.

Lemma safe_not_space c : is_safe_char c = true -> is_space c = false.
Proof.
  destruct c as [[] [] [] [] [] [] [] []]; vm_compute; congruence.
Qed.

Lemma safe_not_slash c : is_safe_char c = true -> Ascii.eqb c "/" = false.
Proof.
  destruct c as [[] [] [] [] [] [] [] []]; vm_compute; congruence.
Qed.





Lemma keep_safe_all_safe s : all_safe (keep_safe s) = true.
Proof.
  induction s as [|c s IH]; [done|]. simpl. destruct (is_safe_char c) eqn:E; [|exact IH].
  simpl. by rewrite E, IH.
Qed.

Lemma keep_safe_id s : all_safe s = true -> keep_safe s = s.
Proof.
  induction s as [|c s IH]; [done|]. simpl. intros [Hc Hs]%andb_true_iff.
  by rewrite Hc, IH.
Qed.

Lemma replace_slash_id s : all_safe s = true -> replace_char "/" "_" s = s.
Proof.
  induction s as [|c s IH]; [done|]. simpl. intros [Hc Hs]%andb_true_iff.
  by rewrite (safe_not_slash c Hc), IH.
Qed.

Lemma collapse_spaces_id s : all_safe s = true -> collapse_spaces s = s.
Proof.
  induction s as [|c s IH]; [done|]. simpl. intros [Hc Hs]%andb_true_iff.
  by rewrite (safe_not_space c Hc), IH.
Qed.

Lemma all_safe_list s :
  all_safe s = true -> Forall (fun c => is_space c = false) (list_ascii_of_string s).
Proof.
  induction s as [|c s IH]; [constructor|]. simpl. intros [Hc Hs]%andb_true_iff.
  constructor; [by apply safe_not_space|by apply IH].
Qed.

Lemma drop_while_id (l : list ascii) :
  Forall (fun c => is_space c = false) l -> drop_while is_space l = l.
Proof. destruct 1 as [|c l Hc _]; [done|]. simpl. by rewrite Hc. Qed.

Lemma py_strip_id s : all_safe s = true -> py_strip s = s.
Proof.
  intros Hs. pose proof (all_safe_list s Hs) as Hall. unfold py_strip.
  rewrite (drop_while_id _ Hall).
  rewrite (drop_while_id (rev _)) by (by apply Forall_rev).
  by rewrite rev_involutive, string_of_list_ascii_of_string.
Qed.

Lemma sanitize_unfold s :
  _sanitize_filename_part s
  = match py_strip s with
    | EmptyString => "unknown"
    | t => match keep_safe (collapse_spaces (replace_char "/" "_" t)) with
           | EmptyString => "unknown"
           | u => u
           end
    end.
Proof.
  unfold _sanitize_filename_part. destruct (py_strip s) as [|c t]; [done|].
  cbv zeta. by destruct (keep_safe _).
Qed.

Lemma sanitize_safe s :
  all_safe (_sanitize_filename_part s) = true /\ _sanitize_filename_part s <> "".
Proof.
  rewrite sanitize_unfold. destruct (py_strip s) as [|c t]; [done|].
  pose proof (keep_safe_all_safe (collapse_spaces (replace_char "/" "_" (String c t)))) as Hk.
  destruct (keep_safe _); done.
Qed.

Lemma sanitize_stripped s t :
  py_strip s = t -> t <> "" ->
  _sanitize_filename_part s
  = match keep_safe (collapse_spaces (replace_char "/" "_" t)) with
    | EmptyString => "unknown"
    | u => u
    end.
Proof. intros Ht Hne. rewrite sanitize_unfold, Ht. by destruct t. Qed.

Lemma sanitize_id s : all_safe s = true -> s <> "" -> _sanitize_filename_part s = s.
Proof.
  intros Hs Hne. rewrite (sanitize_stripped s s (py_strip_id s Hs) Hne).
  rewrite (replace_slash_id s Hs), (collapse_spaces_id s Hs), (keep_safe_id s Hs).
  by destruct s.
Qed.

(** ** The id of a video in a string *)






(** ** Surrounding white space does not matter to the search *)











End Names.

(** [_sanitize_filename_part] returns a name that is not empty and is made
    of letters, digits, [_], [@], [-] and [.] only (so it holds no path
    separator and no white space), whatever it is given; and it leaves such
    a name as it is: sanitising twice is sanitising once. *)
Theorem sanitize_filename_part_is_safe_and_stable (s : string) :
  all_safe (_sanitize_filename_part s) = true
  /\ _sanitize_filename_part s <> ""
  /\ _sanitize_filename_part (_sanitize_filename_part s) = _sanitize_filename_part s.
Proof.
  destruct (sanitize_safe s) as [Hsafe Hne]. split; [exact Hsafe|]. split; [exact Hne|].
  by apply sanitize_id.
Qed.

(** * The hidden-endpoint calls of [DOM.py] *)

Lemma dom_started_run {A} (p : DOM.Pyktok) :
  dom_started p = true -> @dom_name_error A p = (DOM.Error DOM.NameError, p).
Proof.
  unfold dom_started, dom_name_error, DOM.bind, DOM._ensure_driver.
  by destruct (DOM._driver p) as [[d|]|].
Qed.

Lemma dom_name_error_fails {A} (p : DOM.Pyktok) (r : A) :
  fst (@dom_name_error A p) <> DOM.Ok r.
Proof.
  unfold dom_name_error, DOM.bind.
  by destruct (DOM._ensure_driver p) as [[[]|e|] p'].
Qed.

Lemma dom_fetch_run (endpoint_key : string) (params : dict) (p : DOM.Pyktok) :
  DOM._hidden_api_fetch endpoint_key params p = dom_name_error p.
Proof.
  unfold DOM._hidden_api_fetch, dom_name_error, DOM.bind.
  by destruct (DOM._ensure_driver p) as [[[]|e|] p'].
Qed.

Lemma dom_loop_run (fuel : nat) (endpoint : string) (params : json -> dict)
    (field flag : string) (count : Z) (cursor : json) (p : DOM.Pyktok) :
  DOM.listing_loop (S fuel) endpoint params field flag count [] cursor p
  = if Z.ltb 0 count then dom_name_error p else (DOM.Ok [], p).
Proof.
  cbn [DOM.listing_loop]. change (Z.of_nat (@length json [])) with 0.
  destruct (Z.ltb 0 count).
  - unfold DOM.bind at 1. rewrite dom_fetch_run.
    unfold dom_name_error, DOM.bind.
    by destruct (DOM._ensure_driver p) as [[[]|e|] p'].
  - unfold DOM.ret. by rewrite py_take_nil.
Qed.

Lemma dom_required {A} (k : DOM.Call A) (p : DOM.Pyktok) :
  DOM.bind DOM._require_hidden_api (fun _ => k) p
  = if DOM.use_hidden_api p then k p else (DOM.Error DOM.RuntimeError, p).
Proof. unfold DOM.bind, DOM._require_hidden_api. by destruct (DOM.use_hidden_api p). Qed.

(** [DOM.py] reads [HIDDEN_API_ENDPOINTS] in [_hidden_api_fetch] and binds
    it nowhere.  So all that [_hidden_api_fetch] does, for every endpoint
    key and every parameter dict, is to make sure of its driver and raise
    [NameError]: it never returns.  On a client whose Chrome is running it
    raises [NameError] before it has asked the browser for anything and
    leaves the client as it was; on another client it first launches
    Chrome, and raises what the launch raises when that fails. *)
Theorem dom_hidden_api_fetch_raises_name_error (endpoint_key : string) (params : dict)
    (p : DOM.Pyktok) :
  existsb (String.eqb "HIDDEN_API_ENDPOINTS") DOM.module_names = false
  /\ DOM._hidden_api_fetch endpoint_key params p
     = DOM.bind DOM._ensure_driver (fun _ => DOM.raises DOM.NameError) p
  /\ (dom_started p = true ->
      DOM._hidden_api_fetch endpoint_key params p = (DOM.Error DOM.NameError, p))
  /\ (forall r, fst (DOM._hidden_api_fetch endpoint_key params p) <> DOM.Ok r)
  /\ (fst (DOM._ensure_driver p) = DOM.Ok tt ->
      fst (DOM._hidden_api_fetch endpoint_key params p) = DOM.Error DOM.NameError).
Proof.
  split; [reflexivity|]. split; [apply dom_fetch_run|].
  split; [intros Hs; rewrite dom_fetch_run; by apply dom_started_run|].
  split; [intros r; rewrite dom_fetch_run; apply dom_name_error_fails|].
  rewrite dom_fetch_run. unfold dom_name_error, DOM.bind.
  by destruct (DOM._ensure_driver p) as [[[]|e|] p'].
Qed.

(** What the hidden-endpoint calls of [DOM.Pyktok] do: without
    [use_hidden_api] each of them raises [RuntimeError] and leaves the
    client as it was; with it, the calls that fetch a detail first do what
    [_hidden_api_fetch] does (make sure of the driver, raise [NameError]),
    and so do the three that start with their loop unless [count] is not
    positive, in which case the loop is not entered and the empty list is
    returned.  On a client whose Chrome is running that is a [NameError]
    with the client left as it was. *)
Theorem dom_listing_calls_raise (fuel : nat) (name : string) (count : Z)
    (p : DOM.Pyktok) :
  let detail {A} : DOM.result A * DOM.Pyktok :=
    if DOM.use_hidden_api p then dom_name_error p else (DOM.Error DOM.RuntimeError, p) in
  let looping :=
    if DOM.use_hidden_api p
    then (if Z.ltb 0 count then dom_name_error p else (DOM.Ok [], p))
    else (DOM.Error DOM.RuntimeError, p) in
  (DOM.get_user_info name p = detail
   /\ DOM.get_sound_info name p = detail
   /\ DOM.get_playlist_info name p = detail
   /\ DOM.get_user_videos fuel name count p = detail
   /\ DOM.get_hashtag_videos fuel name count p = detail
   /\ DOM.get_video_comments (S fuel) name count p = looping
   /\ DOM.get_sound_videos (S fuel) name count p = looping
   /\ DOM.get_playlist_videos (S fuel) name count p = looping)
  /\ (dom_started p = true ->
      forall A, @dom_name_error A p = (DOM.Error DOM.NameError, p))
  /\ (forall A (r : A), fst (@dom_name_error A p) <> DOM.Ok r).
Proof.
  intros detail looping. subst detail looping.
  split; [|split; [intros Hs A; by apply dom_started_run|intros A r; apply dom_name_error_fails]].
  unfold DOM.get_user_videos, DOM.get_hashtag_videos, DOM.get_video_comments,
    DOM.get_sound_videos, DOM.get_playlist_videos, DOM.get_user_info,
    DOM.get_sound_info, DOM.get_playlist_info.
  rewrite !dom_required. destruct (DOM.use_hidden_api p) eqn:Huse; [|done].
  rewrite ?dom_loop_run, ?dom_fetch_run.
  repeat split; try reflexivity.
  all: unfold DOM.bind, DOM._require_hidden_api, DOM._hidden_api_fetch, dom_name_error;
    rewrite ?Huse; unfold DOM.bind;
    by destruct (DOM._ensure_driver p) as [[[]|e|] p'].
Qed.

(** * What a search hands to the rows *)

Section SearchDicts.
Context `{External}.

Lemma filter_dicts l : Forall (fun v => is_dict v = true) (List.filter is_dict l).
Proof.
  induction l as [|x l IH]; [constructor|]. simpl. destruct (is_dict x) eqn:E; [|exact IH].
  by constructor.
Qed.

Lemma data_entry_dicts entry : Forall (fun v => is_dict v = true) (data_entry entry).
Proof.
  destruct entry as [| | | | |e]; try constructor. unfold data_entry.
  destruct (is_dict (py_get e "item" JNull)) eqn:E1; [by repeat constructor|].
  destruct (is_dict (py_or _ _)) eqn:E2; by repeat constructor.
Qed.

Lemma extract_videos_dicts resp : Forall (fun v => is_dict v = true) (_extract_videos resp).
Proof.
  unfold _extract_videos. repeat (apply Forall_app; split); try apply filter_dicts.
  induction (list_field resp "data") as [|entry l IH]; [constructor|].
  cbn [flat_map]. apply Forall_app. split; [apply data_entry_dicts|exact IH].
Qed.

Lemma pages_dicts evs :
  Forall (fun v => is_dict v = true) (pages "search_general" _extract_videos evs).
Proof.
  unfold pages. induction evs as [|e evs IH]; [constructor|]. cbn [flat_map].
  apply Forall_app. split; [|exact IH].
  destruct e as [| | | |ep' [r|]| |]; try constructor. cbn [page_of_event].
  destruct (String.eqb ep' "search_general"); [apply extract_videos_dicts|constructor].
Qed.

Lemma py_take_Forall {A} (P : A -> Prop) (l : list A) count :
  Forall P l -> Forall P (py_take l count).
Proof. intros Hl. unfold py_take. destruct (Z.leb 0 count); by apply Forall_take. Qed.

End SearchDicts.

(** [search_videos] returns dicts only: [_extract_videos] keeps nothing
    else.  So [generate_video_data_row] makes a row of every video a search
    returns: the rows that [save_search_videos_csv] builds from a search
    never raise. *)
Theorem search_videos_returns_only_dicts `{External} (fuel : nat) (keyword : string)
    (count : Z) (a : PyktokAPI) (out : list json) :
  fst (search_videos fuel keyword count a) = Ret out ->
  Forall (fun v => is_dict v = true) out
  /\ exists rows,
       map_rows generate_video_data_row out = Ret rows
       /\ length rows = length out
       /\ map (key_str "video_id") rows = map video_key out.
Proof.
  intros Hr.
  destruct (search_videos_loop_lists keyword count fuel [] (JNum 0) a)
    as (evs & _ & _ & _ & Hout).
  specialize (Hout out Hr). cbn [app] in Hout.
  rewrite (taken_pages search_listing evs) in Hout by done.
  assert (Hall : Forall (fun v => is_dict v = true) out).
  { rewrite Hout. apply py_take_Forall, pages_dicts. }
  split; [exact Hall|].
  pose proof (map_rows_spec generate_video_data_row is_dict "video_id" video_key out
                video_row_ok video_row_bad) as Hrows.
  destruct (map_rows generate_video_data_row out) as [rows|e|]; [| |done].
  - destruct Hrows as (_ & Hlen & _ & Hkeys). by exists rows.
  - destruct Hrows as [_ Hex]. apply Exists_exists in Hex as (v & Hv & Hbad).
    rewrite Forall_forall in Hall. specialize (Hall v Hv). congruence.
Qed.

Lemma search_videos_dicts_witness :
  let a := client (ready_browser
                     [answer (JObj [("item_list", JArr [video "1"; JNum 7]);
                                    ("has_more", JBool false)])]) in
  Forall (fun v => is_dict v = true) [video "1"]
  /\ exists rows,
       map_rows (generate_video_data_row (H := pandas)) [video "1"] = Ret rows
       /\ length rows = length [video "1"]
       /\ map (key_str (H := pandas) "video_id") rows
          = map (video_key (H := pandas)) [video "1"].
Proof.
  intros a.
  apply (search_videos_returns_only_dicts (H := pandas) 3 "cats" 5 a [video "1"]).
  vm_compute; reflexivity.
Defined.

(** * The save helpers when nothing was fetched *)

(** C9, as amended.  When the fetch of a [save_*_csv] helper returns no
    items, the cache holds no entry under the helper's key and the target
    path can be written, the helper returns the file name without raising
    and leaves a file without columns or lines at the path, whatever the
    path held before: rows persisted there earlier are lost. *)
Theorem save_without_items_replaces_the_file `{External} (fuel : nat) (count : Z)
    (filename : option string) (key : string) (w : World)
    (fetch : M PyktokAPI (list json)) (save : M World string) (path : string) :
  (exists username,
      fetch = get_user_videos fuel username count
      /\ key = "user_videos:" +:+ norm_username username
      /\ path = filename_or filename "user_videos" username
      /\ save = save_user_videos_csv fuel username count filename)
  \/ (exists hashtag,
      fetch = get_hashtag_videos fuel hashtag count
      /\ key = "hashtag_videos:" +:+ norm_hashtag hashtag
      /\ path = filename_or filename "hashtag_videos" hashtag
      /\ save = save_hashtag_videos_csv fuel hashtag count filename)
  \/ (exists video_id,
      fetch = get_video_comments fuel video_id count
      /\ key = "video_comments:" +:+ extract_vid video_id
      /\ path = filename_or filename "video_comments" video_id
      /\ save = save_video_comments_csv fuel video_id count filename)
  \/ (exists sound_id,
      fetch = get_sound_videos fuel sound_id count
      /\ key = "sound_videos:" +:+ sound_id
      /\ path = filename_or filename "sound_videos" sound_id
      /\ save = save_sound_videos_csv fuel sound_id count filename)
  \/ (exists playlist_id,
      fetch = get_playlist_videos fuel playlist_id count
      /\ key = "playlist_videos:" +:+ playlist_id
      /\ path = filename_or filename "playlist_videos" playlist_id
      /\ save = save_playlist_videos_csv fuel playlist_id count filename)
  \/ (exists keyword,
      fetch = search_videos fuel keyword count
      /\ key = "search_videos:" +:+ keyword
      /\ path = filename_or filename "search_videos" keyword
      /\ save = save_search_videos_csv fuel keyword count filename) ->
  fst (fetch (api w)) = Ret [] ->
  _last_ok (snd (fetch (api w))) !! key = None ->
  can_write path = true ->
  save w = (Ret path, mkWorld (snd (fetch (api w))) (<[path := mkCsv [] []]> (disk w)))
  /\ disk (snd (save w)) !! path = Some (mkCsv [] []).
Proof.
  intros Hcall Hfetch Hcache Hcan.
  assert (Hrun : save w
                 = (Ret path,
                    mkWorld (snd (fetch (api w))) (<[path := mkCsv [] []]> (disk w)))).
  { destruct Hcall as [(x & -> & -> & -> & ->)|[(x & -> & -> & -> & ->)|
      [(x & -> & -> & -> & ->)|[(x & -> & -> & -> & ->)|[(x & -> & -> & -> & ->)|
      (x & -> & -> & -> & ->)]]]]];
      (etrans; [eapply save_nothing_after; [exact Hfetch|exact Hcache|reflexivity]|]);
      by rewrite Hcan. }
  split; [exact Hrun|]. rewrite Hrun. cbn [snd disk]. apply lookup_insert_eq.
Qed.

(** The user detail cannot be fetched, no videos come back, nothing is
    cached, and the two rows the file held are replaced by the empty
    file. *)
Lemma save_without_items_witness :
  let w := mkWorld (client (browser (JBool false) []))
             {["@bob.csv" := mkCsv ["video_id"] [["1"]; ["2"]]]} in
  let fetch := get_user_videos (H := pandas) 5 "@bob" 30 in
  save_user_videos_csv (H := pandas) 5 "@bob" 30 None w
  = (Ret "@bob.csv", mkWorld (snd (fetch (api w))) (<["@bob.csv" := mkCsv [] []]> (disk w)))
  /\ disk (snd (save_user_videos_csv (H := pandas) 5 "@bob" 30 None w)) !! "@bob.csv"
     = Some (mkCsv [] []).
Proof.
  intros w fetch.
  apply (save_without_items_replaces_the_file (H := pandas) 5 30 None
           ("user_videos:" +:+ norm_username "@bob") w fetch
           (save_user_videos_csv (H := pandas) 5 "@bob" 30 None) "@bob.csv").
  - left. exists "@bob". repeat split; reflexivity.
  - vm_compute; reflexivity.
  - vm_compute; reflexivity.
  - reflexivity.
Defined.

(** C9 as stated fails where the target path cannot be written: nothing
    was fetched, nothing is cached, and the helper raises the [OSError] of
    [to_csv] instead of returning the file name. *)
Lemma save_without_items_raises_on_an_unwritable_path :
  let w := world (browser (JBool false) []) in
  fst (get_user_videos (H := pandas) 5 "@bob" 30 (api w)) = Ret []
  /\ _last_ok (snd (get_user_videos (H := pandas) 5 "@bob" 30 (api w)))
       !! ("user_videos:" +:+ norm_username "@bob") = None
  /\ can_write (External := pandas) "" = false
  /\ fst (save_user_videos_csv (H := pandas) 5 "@bob" 30 (Some "") w) = Raise OSError.
Proof. repeat split; vm_compute; reflexivity. Qed.

(** * The video id of the comment calls *)



(** * An exception out of [fetch_api] on a known endpoint *)

(** C8.  [fetch_api] on the known endpoint [user_detail], in a browser
    where the signing capability is not there at the first poll and the
    warm-up page then fails to load: the [self.go] of the wait loop is not
    guarded, and its exception comes out of [fetch_api], before any
    attempt.  The same navigation inside the retry loop is guarded
    ([try: self.go(...) except Exception: pass]). *)
Theorem fetch_api_raises_on_a_known_endpoint :
  endpoint_path HIDDEN_API_ENDPOINTS "user_detail" = Some "/api/user/detail/"
  /\ fst (fetch_api (H := pandas) "user_detail" [("uniqueId", JStr "bob")] stalled_browser)
     = Raise WebDriverException
  /\ n_attempts (trace (snd (fetch_api (H := pandas) "user_detail"
                               [("uniqueId", JStr "bob")] stalled_browser))) = O.
Proof. repeat split; vm_compute; reflexivity. Qed.

(** * A listing result that is not cached *)

(** C7.  [get_user_videos] receives one video and then fails four times in
    a row: it returns the video through the [return videos[:count]] of its
    failure cap, which stands before [_cache_set], so the cache has no
    entry for the listing.  The save helper called next fetches nothing,
    finds nothing in the cache and writes the empty file, where the claim
    has the one video that the listing call returned. *)
Theorem a_listing_that_gave_up_is_not_saved_from_the_cache :
  let listed := get_user_videos (H := pandas) 10 "bob" 5 (client one_page_browser) in
  let saved := save_user_videos_csv (H := pandas) 10 "bob" 5 None
                 (mkWorld (snd listed) ∅) in
  fst listed = Ret [video "1"]
  /\ _last_ok (snd listed) !! "user_videos:bob" = None
  /\ fst (get_user_videos (H := pandas) 10 "bob" 5 (snd listed)) = Ret []
  /\ fst saved = Ret "@bob.csv"
  /\ disk (snd saved) !! "@bob.csv" = Some (mkCsv [] []).
Proof. repeat split; vm_compute; reflexivity. Qed.
